(** * SD card over SPI: a shallow embedding of [src/sdcard_spi.c]

    The driver is embedded as state-passing functions over a [world] that
    holds the driver's [sd_spi] structure, the card at the other end of the
    bus, a clock and the log of hardware accesses.  Bytes and machine words
    are integers of [Z] reduced to their width where the C code can leave
    it. *)

From Stdlib Require Import ZArith List Bool Lia.
Import ListNotations.
Local Open Scope Z_scope.

(** ** Machine integers *)

Definition u8 (z : Z) : Z := z mod 256.
Definition u16 (z : Z) : Z := z mod 65536.
Definition u32 (z : Z) : Z := z mod 4294967296.

(** Value of a 32-bit pattern read as [int32_t]. *)
Definition s32 (z : Z) : Z :=
  if u32 z <? 2147483648 then u32 z else u32 z - 4294967296.

(** ** Constants of the driver *)

Definition CRC7_POLY : Z := 0x12.
Definition CRC16_POLY : Z := 0x1021.
Definition SPI_INIT_RATE : Z := 400000.
Definition SPI_XFER_RATE : Z := 4000000.

Definition SDF_INITIALIZED : Z := 1.
Definition SDF_HIGH_CAPACITY : Z := 2.
Definition SDF_WRITE_PROTECTED : Z := 4.
Definition SDF_DEINIT : Z := 8.

Definition SDE_NO_IDLE : Z := 1.
Definition SDE_IF_COND_ERR : Z := 2.
Definition SDE_CRC_ERR : Z := 4.
Definition SDE_OP_COND_ERR : Z := 8.
Definition SDE_OCR_ERR : Z := 16.
Definition SDE_READ_ERR : Z := 32.
Definition SDE_WRITE_ERR : Z := 64.
Definition SDE_OTHER_ERR : Z := 128.

Definition CF_APP_CMD : Z := 1.
Definition CF_FULL_RESP : Z := 2.
Definition CF_NOT_EXPECT : Z := 4.

(** Modelled from the spec: the sector size and the command codes of
    [sdcard.h], which is not among the sources.  The spec fixes the sector
    at 512 bytes and the codes as those of the SD SPI-mode command set, with
    go-idle the code whose frame starts with 0x40. *)
Definition SD_SECTOR_SIZE : Z := 512.
Definition SDCMD_GO_IDLE_STATE : Z := 0.
Definition SDCMD_SEND_IF_COND : Z := 8.
Definition SDCMD_SEND_CSD : Z := 9.
Definition SDCMD_SET_BLOCKLEN : Z := 16.
Definition SDCMD_READ_SINGLE_BLOCK : Z := 17.
Definition SDCMD_WRITE_BLOCK : Z := 24.
Definition SDCMD_SEND_OP_COND : Z := 41.
Definition SDCMD_APP_CMD : Z := 55.
Definition SDCMD_READ_OCR : Z := 58.
Definition SDCMD_CRC_ON_OFF : Z := 59.

(** ** Buffers *)

(** [buf[i]]. *)
Definition rd (buf : list Z) (i : nat) : Z := nth i buf 0.

(** [buf[i] = v]. *)
Fixpoint wr (buf : list Z) (i : nat) (v : Z) : list Z :=
  match buf, i with
  | [], _ => []
  | _ :: t, O => v :: t
  | b :: t, S j => b :: wr t j v
  end.

(** [memset(buf, v, n)]. *)
Definition memset (buf : list Z) (v : Z) (n : nat) : list Z :=
  repeat v n ++ skipn n buf.

(** ** CRC helper methods *)

(** One turn of the inner loop of [calc_crc7]. *)
Definition crc7_shift (crc : Z) : Z :=
  if Z.land crc 0x80 =? 0
  then u8 (Z.shiftl crc 1)
  else u8 (Z.lxor (Z.shiftl crc 1) CRC7_POLY).

(** One turn of the outer loop of [calc_crc7]: eight shifts after the
    byte is folded in. *)
Definition crc7_byte (crc b : Z) : Z :=
  Nat.iter 8 crc7_shift (Z.lxor crc b).

Definition calc_crc7 (data : list Z) (length : nat) : Z :=
  Z.lor (fold_left crc7_byte (firstn length data) 0) 1.

Definition crc16_shift (crc : Z) : Z :=
  if Z.land crc 0x8000 =? 0
  then u16 (Z.shiftl crc 1)
  else u16 (Z.lxor (Z.shiftl crc 1) CRC16_POLY).

Definition crc16_byte (crc b : Z) : Z :=
  Nat.iter 8 crc16_shift (u16 (Z.lxor crc (Z.shiftl b 8))).

Definition calc_crc16 (data : list Z) (length : nat) : Z :=
  fold_left crc16_byte (firstn length data) 0.

(** ** SD card commands *)

Definition populate_buffer (command arg : Z) (buf : list Z) : list Z :=
  let buf := wr buf 0 (u8 (Z.lor command 0x40)) in
  let buf := wr buf 1 (Z.land (Z.shiftr arg 24) 0xFF) in
  let buf := wr buf 2 (Z.land (Z.shiftr arg 16) 0xFF) in
  let buf := wr buf 3 (Z.land (Z.shiftr arg 8) 0xFF) in
  let buf := wr buf 4 (Z.land arg 0xFF) in
  let crc := calc_crc7 buf 5 in
  wr buf 5 crc.

(** ** State passing *)

Definition State (S A : Type) : Type := S -> A * S.

Definition ret {S A : Type} (a : A) : State S A := fun s => (a, s).

Definition bind {S A B : Type} (m : State S A) (k : A -> State S B) : State S B :=
  fun s => let (a, s') := m s in k a s'.

Declare Scope state_scope.
Delimit Scope state_scope with state.
Notation "x <- m ;; k" := (bind m (fun x => k))
  (at level 61, m at next level, right associativity) : state_scope.
Notation "' p <- m ;; k" := (bind m (fun x => match x with p => k end))
  (at level 61, p pattern, m at next level, right associativity) : state_scope.
Notation "m ;; k" := (bind m (fun _ => k))
  (at level 61, right associativity) : state_scope.
Local Open Scope state_scope.

(** ** The device structure and the hardware around it *)

(** The file-scope structure [sd_spi]; of the two hardware handles only the
    bus rate held by [config] is kept. *)
Record sd_spi_t : Type := mk_sd_spi {
  config : Z;
  flags : Z;
  err : Z
}.

(** Accesses to the hardware collaborators, in the order they happen. *)
Inductive event : Type :=
| EvGpioSetup (level : Z)
| EvSpiSetup (rate : Z)
| EvSetRate (rate : Z)
| EvPrepare
| EvCS (level : Z)
| EvXfer (receive : bool) (mosi : list Z)
| EvDelay (us : Z).

Definition event_eqb_cs (level : Z) (e : event) : bool :=
  match e with
  | EvCS l => l =? level
  | _ => false
  end.

Definition is_delay (e : event) : bool :=
  match e with
  | EvDelay _ => true
  | _ => false
  end.

(** Modelled from the spec: the hardware collaborators, of which the
    sources hold only the prototypes ([stm32/gpio.h]) or nothing
    ([board/misc.h], [sched.h]).  The card is a state machine that answers
    every byte clocked out on the full-duplex bus with the byte it shifts
    back; the timer is a monotonic tick counter with [ticks_per_us] ticks to
    the microsecond; a transfer takes [byte_ticks] ticks per byte. *)
Class Hardware : Type := {
  Card : Type;
  card_xfer : Card -> Z -> Z * Card;
  ticks_per_us : Z;
  byte_ticks : Z
}.

Section Driver.

Context {hw : Hardware}.

Record world : Type := mk_world {
  sd_spi : sd_spi_t;
  card : Card;
  now : Z;
  trace : list event   (* newest first *)
}.

Definition M (A : Type) : Type := State world A.

Definition log (e : event) : M unit :=
  fun w => (tt, mk_world (sd_spi w) (card w) (now w) (e :: trace w)).

Definition tick (d : Z) : M unit :=
  fun w => (tt, mk_world (sd_spi w) (card w) (now w + d) (trace w)).

Definition get_flags : M Z := fun w => (flags (sd_spi w), w).

Definition or_flags (f : Z) : M unit :=
  fun w => (tt, mk_world (mk_sd_spi (config (sd_spi w))
                                    (Z.lor (flags (sd_spi w)) f)
                                    (err (sd_spi w)))
                         (card w) (now w) (trace w)).

Definition or_err (e : Z) : M unit :=
  fun w => (tt, mk_world (mk_sd_spi (config (sd_spi w))
                                    (flags (sd_spi w))
                                    (Z.lor (err (sd_spi w)) e))
                         (card w) (now w) (trace w)).

Definition set_config (rate : Z) : M unit :=
  fun w => (tt, mk_world (mk_sd_spi rate (flags (sd_spi w)) (err (sd_spi w)))
                         (card w) (now w) (trace w)).

(** Modelled from the spec: [gpio_out_setup(sdcard_cs_gpio, 1)], the
    chip-select output and its first level. *)
Definition gpio_out_setup (level : Z) : M unit := log (EvGpioSetup level).

(** Modelled from the spec: [sd_spi.config = spi_setup(CONFIG_SD_SPI_BUS,
    0, rate)], the bus clock-rate selection. *)
Definition spi_setup (rate : Z) : M unit :=
  log (EvSpiSetup rate) ;; set_config rate.

(** Modelled from the spec: [spi_set_rate(&(sd_spi.config), rate)]. *)
Definition spi_set_rate (rate : Z) : M unit :=
  log (EvSetRate rate) ;; set_config rate.

(** Modelled from the spec: [spi_prepare(sd_spi.config)]. *)
Definition spi_prepare : M unit := log EvPrepare.

(** Modelled from the spec: [gpio_out_write(sd_spi.cs_pin, level)],
    chip-select assert (0) and deassert (1). *)
Definition gpio_out_write (level : Z) : M unit := log (EvCS level).

(** The bytes the card shifts back while [mosi] is clocked out. *)
Fixpoint exchange (c : Card) (mosi : list Z) : list Z * Card :=
  match mosi with
  | [] => ([], c)
  | b :: t =>
      let (r, c1) := card_xfer c b in
      let (rs, c2) := exchange c1 t in
      (r :: rs, c2)
  end.

(** Modelled from the spec: [spi_transfer(sd_spi.config, receive_data, len,
    data)], the synchronous full-duplex transfer.  The first [len] bytes of
    [data] go out; with [receive_data] set they are replaced by the bytes
    that came back (the driver fills them with the filler 0xFF first),
    otherwise what came back is discarded. *)
Definition spi_transfer (receive_data : bool) (len : nat) (data : list Z)
  : M (list Z) :=
  fun w =>
    let mosi := firstn len data in
    let (miso, c) := exchange (card w) mosi in
    (if receive_data then miso ++ skipn len data else data,
     mk_world (sd_spi w) c
              (now w + byte_ticks * Z.of_nat (length mosi))
              (EvXfer receive_data mosi :: trace w)).

(** Modelled from the spec: the monotonic time read of [board/misc.h], a
    [uint32_t] that wraps around. *)
Definition timer_read_time : M Z := fun w => (u32 (now w), w).

(** Modelled from the spec: microseconds to timer ticks, as a [uint32_t]. *)
Definition timer_from_us (us : Z) : Z := u32 (us * ticks_per_us).

(** Modelled from the spec: the deadline test on two 32-bit readings, by
    the sign of their 32-bit difference, so that it survives a wrap of the
    counter. *)
Definition timer_is_before (time1 time2 : Z) : bool :=
  s32 (time1 - time2) <? 0.

(** Modelled from the spec: the microsecond delay of [sched.h]. *)
Definition udelay (us : Z) : M unit :=
  log (EvDelay us) ;; tick (us * ticks_per_us).

(** [send_command]'s scan of the eight response bytes: the index and value
    of the first byte that is not 0xFF. *)
Fixpoint first_response (buf : list Z) (i : nat) : option (nat * Z) :=
  match buf with
  | [] => None
  | b :: t => if b =? 0xFF then first_response t (S i) else Some (i, b)
  end.

Definition send_command (command arg : Z) (buf : list Z) (cmd_flags : Z)
  : M (Z * list Z) :=
  spi_prepare ;;
  gpio_out_write 0 ;;
  let buf := memset buf 0 8 in
  buf <- (if Z.land cmd_flags CF_APP_CMD =? 0 then ret buf
          else
            let buf := wr buf 0 (u8 (Z.lor SDCMD_APP_CMD 0x40)) in
            let crc := calc_crc7 buf 5 in
            let buf := wr buf 5 crc in
            spi_transfer false 6 buf) ;;
  let buf := populate_buffer command arg buf in
  buf <- spi_transfer false 6 buf ;;
  let buf := memset buf 0xFF 8 in
  buf <- spi_transfer true 8 buf ;;
  '(r, buf) <-
    match first_response (firstn 8 buf) 0 with
    | None => ret (0xFF, buf)
    | Some (i, r) =>
        match i with
        | O => ret (r, buf)
        | S _ =>
            let recd := (8 - i)%nat in
            (* memmove(buf, &buf[i], recd) *)
            let buf := firstn recd (skipn i buf) ++ skipn recd buf in
            if Z.land cmd_flags CF_FULL_RESP =? 0 then ret (r, buf)
            else
              let rem := (8 - recd)%nat in
              let tail := memset (skipn recd buf) 0xFF rem in
              tail <- spi_transfer true rem tail ;;
              ret (r, firstn recd buf ++ tail)
        end
    end ;;
  gpio_out_write 1 ;;
  ret (r, buf).

(** Whether a response ends the retry loop of [check_command]. *)
Definition accepted (flags expect r : Z) : bool :=
  if Z.land flags CF_NOT_EXPECT =? 0 then r =? expect
  else negb (r =? expect).

Fixpoint check_command (cmd arg : Z) (buf : list Z) (flags expect : Z)
    (attempts : nat) : M (Z * list Z) :=
  match attempts with
  | O => ret (0, buf)
  | S attempts' =>
      '(r, buf) <- send_command cmd arg buf flags ;;
      if accepted flags expect r then ret (1, buf)
      else
        (match attempts' with
         | O => ret tt
         | S _ => udelay 1000
         end) ;;
        check_command cmd arg buf flags expect attempts'
  end.

(** The loop of [find_token]; [fuel] bounds its turns and is chosen by
    [find_token] so that the deadline ends the loop first. *)
Fixpoint find_token_loop (fuel : nat) (token endtime : Z) : M Z :=
  match fuel with
  | O => ret 0
  | S fuel' =>
      t <- timer_read_time ;;
      if timer_is_before t endtime then
        buf <- spi_transfer true 1 [0xFF] ;;
        if rd buf 0 =? token then ret 1
        else find_token_loop fuel' token endtime
      else ret 0
  end.

Definition find_token (token timeout_us : Z) : M Z :=
  t <- timer_read_time ;;
  let endtime := u32 (t + timer_from_us timeout_us) in
  find_token_loop (S (Z.to_nat (timer_from_us timeout_us))) token endtime.

(** The scan of the eight bytes read into [cmd_buf] in
    [sdcard_write_sector]: the first byte that is not 0xFF, or 0xFF. *)
Definition response_byte (cmd_buf : list Z) : Z :=
  match first_response (firstn 8 cmd_buf) 0 with
  | None => 0xFF
  | Some (_, r) => r
  end.

(** The protocol address of a sector: [offset] in both sector functions. *)
Definition sector_offset (flags sector : Z) : Z :=
  if Z.land flags SDF_HIGH_CAPACITY =? 0
  then u32 (sector * SD_SECTOR_SIZE)
  else sector.

(** The part of [sdcard_write_sector] that follows the command's
    response: header, data, CRC, data response and busy wait. *)
Definition write_data (buf cmd_buf : list Z) (crc : Z) : M Z :=
  (* Send Header *)
  let cmd_buf := wr cmd_buf 0 0xFE in
  cmd_buf <- spi_transfer false 1 cmd_buf ;;
  (* Send Data *)
  _ <- spi_transfer false (Z.to_nat SD_SECTOR_SIZE) buf ;;
  (* Send CRC *)
  let cmd_buf := wr cmd_buf 0 (Z.land (Z.shiftr crc 8) 0xFF) in
  let cmd_buf := wr cmd_buf 1 (Z.land crc 0xFF) in
  cmd_buf <- spi_transfer false 2 cmd_buf ;;
  (* Check for successful response *)
  let cmd_buf := memset cmd_buf 0xFF 8 in
  cmd_buf <- spi_transfer true 8 cmd_buf ;;
  let r := response_byte cmd_buf in
  let r := if Z.land r 0x1F =? 5 then 0 else 2 in
  (* Wait for card to come out of busy state, 50ms timeout *)
  found <- find_token 0xFF 50000 ;;
  let r := if found =? 0 then u8 (r + 1) else r in
  gpio_out_write 1 ;;
  if 0 <? r then or_err SDE_WRITE_ERR ;; ret 0
  else ret 1.

(** [cmd_buf] is an uninitialised array in the source; its bytes are
    written before they are sent or read, and start here as zeros. *)
Definition sdcard_write_sector (buf : list Z) (sector : Z) : M Z :=
  f <- get_flags ;;
  if Z.land f SDF_INITIALIZED =? 0 then ret (u8 (-1))
  else
    let offset := sector_offset f sector in
    let crc := calc_crc16 buf (Z.to_nat SD_SECTOR_SIZE) in
    let cmd_buf := repeat 0 8 in
    let cmd_buf := populate_buffer SDCMD_WRITE_BLOCK offset cmd_buf in
    spi_prepare ;;
    gpio_out_write 0 ;;
    cmd_buf <- spi_transfer false 6 cmd_buf ;;
    let cmd_buf := memset cmd_buf 0xFF 8 in
    cmd_buf <- spi_transfer true 8 cmd_buf ;;
    let r := response_byte cmd_buf in
    if r =? 0xFF then
      gpio_out_write 1 ;;
      or_err SDE_WRITE_ERR ;;
      ret 0
    else write_data buf cmd_buf crc.

(** The first loop of [read_data_block]: at most [tries] single bytes are
    read until one is not 0xFF; the last byte read is the response. *)
Fixpoint poll_response (tries : nat) (cmd_buf : list Z) (r : Z)
  : M (Z * list Z) :=
  match tries with
  | O => ret (r, cmd_buf)
  | S tries' =>
      let cmd_buf := wr cmd_buf 0 0xFF in
      cmd_buf <- spi_transfer true 1 cmd_buf ;;
      let r := rd cmd_buf 0 in
      if r =? 0xFF then poll_response tries' cmd_buf r
      else ret (r, cmd_buf)
  end.

(** [(cmd_buf[0] << 8) | cmd_buf[1]] as a [uint16_t]. *)
Definition recd_crc (cmd_buf : list Z) : Z :=
  u16 (Z.lor (Z.shiftl (rd cmd_buf 0) 8) (rd cmd_buf 1)).

(** The end of [read_data_block], from the CRC comparison on. *)
Definition read_verdict (r recd crc : Z) : M Z :=
  r <- (if recd =? crc then ret r
        else or_err SDE_CRC_ERR ;; ret 3) ;;
  if 0 <? r then or_err SDE_READ_ERR ;; ret 0
  else ret 1.

(** [length] is a [uint32_t] that [spi_transfer] and [calc_crc16] take as
    a [uint16_t]. *)
Definition read_data_block (cmd arg : Z) (buf : list Z) (length : Z)
  : M (Z * list Z) :=
  let cmd_buf := repeat 0 8 in
  let cmd_buf := populate_buffer cmd arg cmd_buf in
  spi_prepare ;;
  gpio_out_write 0 ;;
  cmd_buf <- spi_transfer false 6 cmd_buf ;;
  (* find the first non-zero response, maximum of 16 tries *)
  '(r, cmd_buf) <- poll_response 16 cmd_buf 0 ;;
  let r := if r =? 0 then r else 1 in
  (* Find Transfer Start token, 50ms timeout *)
  found <- find_token 0xFE 50000 ;;
  let r := if found =? 0 then 2 else r in
  (* Read out the response *)
  let buf := memset buf 0xFF (Z.to_nat length) in
  buf <- spi_transfer true (Z.to_nat (u16 length)) buf ;;
  (* Read and check crc *)
  let cmd_buf := memset cmd_buf 0xFF 8 in
  cmd_buf <- spi_transfer true 2 cmd_buf ;;
  (* Exit busy state *)
  _ <- find_token 0xFF 50000 ;;
  gpio_out_write 1 ;;
  let crc := calc_crc16 buf (Z.to_nat (u16 length)) in
  r <- read_verdict r (recd_crc cmd_buf) crc ;;
  ret (r, buf).

Definition sdcard_read_sector (buf : list Z) (sector : Z) : M (Z * list Z) :=
  f <- get_flags ;;
  if Z.land f SDF_INITIALIZED =? 0 then ret (u8 (-1), buf)
  else
    let offset := sector_offset f sector in
    read_data_block SDCMD_READ_SINGLE_BLOCK offset buf SD_SECTOR_SIZE.

Definition sdcard_check_write_protect : M Z :=
  let csd_buf := repeat 0 16 in
  '(r, csd_buf) <- read_data_block SDCMD_SEND_CSD 0 csd_buf 16 ;;
  if r =? 0 then ret 0
  else if negb (Z.land (rd csd_buf 14) 0x30 =? 0) then ret 0
  else ret 1.

(** The ten transfers of eight 0xFF bytes with chip-select high. *)
Fixpoint clock_idle (n : nat) (buf : list Z) : M unit :=
  match n with
  | O => ret tt
  | S n' => _ <- spi_transfer false 8 buf ;; clock_idle n' buf
  end.

(** The version test after the interface-condition probe: 1, 2, or 0 where
    the source gives up. *)
Definition sd_version (buf : list Z) : Z :=
  if negb (Z.land (rd buf 0) 4 =? 0) then 1
  else if (rd buf 0 =? 1) && (rd buf 3 =? 1) && (rd buf 4 =? 10) then 2
  else 0.

(** [sdcard_init] up to and including the block-length command: [true]
    when control reaches the write-protect check, [false] where the source
    returns 0 before it. *)
Definition sdcard_init_negotiate : M bool :=
  gpio_out_setup 1 ;;
  spi_setup SPI_INIT_RATE ;;
  udelay 1000 ;;
  spi_prepare ;;
  let buf := memset (repeat 0 8) 0xFF 8 in
  clock_idle 10 buf ;;
  (* attempt to go idle *)
  '(ok, buf) <- check_command SDCMD_GO_IDLE_STATE 0 buf 0 1 50 ;;
  if ok =? 0 then or_err SDE_NO_IDLE ;; ret false else
  (* Check SD Card Version *)
  '(ok, buf) <- check_command SDCMD_SEND_IF_COND 0x10A buf
                  (Z.lor CF_FULL_RESP CF_NOT_EXPECT) 0xFF 3 ;;
  if ok =? 0 then or_err SDE_IF_COND_ERR ;; ret false else
  let sd_ver := sd_version buf in
  if sd_ver =? 0 then or_err SDE_IF_COND_ERR ;; ret false else
  (* Enable CRC Checks *)
  '(ok, buf) <- check_command SDCMD_CRC_ON_OFF 1 buf 0 1 3 ;;
  if ok =? 0 then or_err SDE_CRC_ERR ;; ret false else
  (* Read OCR Register to determine if voltage is acceptable *)
  '(ok, buf) <- check_command SDCMD_READ_OCR 0 buf CF_FULL_RESP 1 20 ;;
  if ok =? 0 then or_err SDE_OCR_ERR ;; ret false else
  if negb (Z.land (rd buf 2) 0x30 =? 0x30) then
    or_err SDE_OCR_ERR ;; ret false
  else
  (* Finish init and come out of idle *)
  '(ok, buf) <- check_command SDCMD_SEND_OP_COND
                  (if sd_ver =? 1 then 0 else Z.shiftl 1 30)
                  buf CF_APP_CMD 0 250 ;;
  if ok =? 0 then or_err SDE_OP_COND_ERR ;; ret false else
  '(ok, buf) <-
     (if sd_ver =? 2 then
        (* read OCR again to determine capacity *)
        '(ok, buf) <- check_command SDCMD_READ_OCR 0 buf CF_FULL_RESP 0 5 ;;
        if ok =? 0 then or_err SDE_OCR_ERR ;; ret (0, buf)
        else
          (if negb (Z.land (rd buf 1) 0x40 =? 0)
           then or_flags SDF_HIGH_CAPACITY else ret tt) ;;
          ret (1, buf)
      else ret (1, buf)) ;;
  if ok =? 0 then ret false else
  '(ok, buf) <- check_command SDCMD_SET_BLOCKLEN SD_SECTOR_SIZE buf 0 0 3 ;;
  if ok =? 0 then or_err SDE_OTHER_ERR ;; ret false
  else ret true.

Definition sdcard_init : M Z :=
  ok <- sdcard_init_negotiate ;;
  if negb ok then ret 0
  else
    wp <- sdcard_check_write_protect ;;
    if wp =? 0 then
      or_flags SDF_WRITE_PROTECTED ;;
      ret 0
    else
      or_flags SDF_INITIALIZED ;;
      spi_set_rate SPI_XFER_RATE ;;
      ret 1.

Definition sdcard_deinit : M unit :=
  f <- get_flags ;;
  if negb (Z.land f SDF_DEINIT =? 0) then ret tt
  else
    or_flags SDF_DEINIT ;;
    let buf := repeat 0 8 in
    (* return to idle and disable crc checks *)
    '(_, buf) <- send_command SDCMD_GO_IDLE_STATE 0 buf 0 ;;
    _ <- send_command SDCMD_CRC_ON_OFF 0 buf 0 ;;
    ret tt.

End Driver.

(** ** A scripted card

    A card that plays back a fixed list of bytes, one for every byte
    clocked, whatever is sent to it, and idles at 0xFF afterwards. *)

Definition script_xfer (s : list Z) (_ : Z) : Z * list Z :=
  match s with
  | [] => (0xFF, [])
  | b :: t => (b, t)
  end.

Definition scripted : Hardware :=
  {| Card := list Z; card_xfer := script_xfer;
     ticks_per_us := 1; byte_ticks := 2 |}.

Definition idle (n : nat) : list Z := repeat 0xFF n.

(** What the card plays while a command frame goes out and its eight
    response bytes are read. *)
Definition resp (l : list Z) : list Z :=
  idle 6 ++ l ++ idle (8 - length l).

Definition crc_bytes (d : list Z) : list Z :=
  let c := calc_crc16 d (length d) in
  [Z.land (Z.shiftr c 8) 0xFF; Z.land c 0xFF].

(** A data block answered to a read command: response 0, start token,
    payload and its CRC16. *)
Definition data_block (d : list Z) : list Z :=
  idle 6 ++ [0; 0xFE] ++ d ++ crc_bytes d ++ [0xFF].

(** A card descriptor register with [b14] as its byte 14. *)
Definition csd (b14 : Z) : list Z :=
  [0x40; 0x0E; 0; 0x32; 0x5B; 0x59; 0; 0; 0x1D; 0x69; 0x7F; 0x80; 0x0A; 0x40;
   b14; 0].

(** A version 2 card going through the bring-up up to the block-length
    command; [ocr1] is the first byte of the voltage register it reports
    once out of idle: 0xC0 for a high-capacity card, 0x80 for a
    standard-capacity one. *)
Definition negotiate_script (ocr1 : Z) : list Z :=
  idle 80 ++ resp [1] ++ resp [1; 0; 0; 1; 10] ++ resp [1]
  ++ resp [1; 0; 0xFF; 0x80; 0]
  ++ idle 6 ++ resp [0] ++ resp [0; ocr1; 0xFF; 0x80; 0] ++ resp [0].

Definition init_script (ocr1 b14 : Z) : list Z :=
  negotiate_script ocr1 ++ data_block (csd b14).

(** What the card plays while a sector is written and accepted with the
    data-response token [token]. *)
Definition write_script (token : Z) : list Z :=
  resp [0] ++ idle 515 ++ [token] ++ idle 7.

(** The driver before its first call, facing a card that plays [s]. *)
Definition power_on (s : list Z) : @world scripted :=
  @mk_world scripted (mk_sd_spi 0 0 0) s 0 [].

(** The driver after [sdcard_init] on a card without write protection that
    reports [ocr1] and plays [rest] afterwards. *)
Definition ready (ocr1 : Z) (rest : list Z) : @world scripted :=
  snd (sdcard_init (power_on (init_script ocr1 0 ++ rest))).

(** A card that never answers: the line idles at 0xFF. *)
Definition silent : Hardware :=
  {| Card := unit; card_xfer := fun _ _ => (0xFF, tt);
     ticks_per_us := 1; byte_ticks := 2 |}.

Definition silent_power_on : @world silent :=
  @mk_world silent (mk_sd_spi 0 0 0) tt 0 [].

(** ** Driver operations as data *)

Inductive op : Type :=
| OpInit
| OpRead (buf : list Z) (sector : Z)
| OpWrite (buf : list Z) (sector : Z)
| OpDeinit.

Definition run_op {hw : Hardware} (o : op) (w : world) : world :=
  match o with
  | OpInit => snd (sdcard_init w)
  | OpRead buf sector => snd (sdcard_read_sector buf sector w)
  | OpWrite buf sector => snd (sdcard_write_sector buf sector w)
  | OpDeinit => snd (sdcard_deinit w)
  end.

Definition run_ops {hw : Hardware} (os : list op) (w : world) : world :=
  fold_left (fun w o => run_op o w) os w.

(** Counters over the hardware log. *)
Definition cs_asserts {hw : Hardware} (w : world) : nat :=
  length (filter (event_eqb_cs 0) (trace w)).

Definition delays {hw : Hardware} (w : world) : nat :=
  length (filter is_delay (trace w)).

Definition is_delay_of (us : Z) (e : event) : bool :=
  match e with
  | EvDelay d => d =? us
  | _ => false
  end.

(** The delays of exactly [us] microseconds in the log. *)
Definition delays_of {hw : Hardware} (us : Z) (w : world) : nat :=
  length (filter (is_delay_of us) (trace w)).

(** The 32-bit argument carried by a command frame. *)
Definition frame_arg (frame : list Z) : Z :=
  Z.lor (Z.shiftl (rd frame 1) 24)
    (Z.lor (Z.shiftl (rd frame 2) 16)
       (Z.lor (Z.shiftl (rd frame 3) 8) (rd frame 4))).

(** The command code carried by a command frame. *)
Definition frame_cmd (frame : list Z) : Z := Z.land (rd frame 0) 0x3F.

(** The hardware accesses made between two worlds, oldest first. *)
Definition new_events {hw : Hardware} (w w' : world) : list event :=
  rev (firstn (length (trace w') - length (trace w)) (trace w')).

(** The bytes of the first transfer among [evs]. *)
Fixpoint first_frame (evs : list event) : option (list Z) :=
  match evs with
  | [] => None
  | EvXfer _ mosi :: _ => Some mosi
  | _ :: t => first_frame t
  end.

(** The command code and the argument of the first frame sent between two
    worlds. *)
Definition addressed {hw : Hardware} (w w' : world) : option (Z * Z) :=
  match first_frame (new_events w w') with
  | Some f => Some (frame_cmd f, frame_arg f)
  | None => None
  end.

(** ** What the card sends

    Every receiving transfer of the driver clocks the filler byte 0xFF
    out, so the bytes a card in state [c] answers next are fixed by [c].
    The functions below describe those bytes and the scans the driver
    makes over them, without reference to the driver's loops. *)

Section Streams.

Context {hw : Hardware}.

(** The state of the card once the bytes [mosi] have been clocked into
    it. *)
Definition card_after (c : Card) (mosi : list Z) : Card :=
  snd (exchange c mosi).

(** The bytes the card shifts back over the next [n] filler bytes. *)
Definition idle_reply (c : Card) (n : nat) : list Z :=
  fst (exchange c (repeat 0xFF n)).

(** The number of leading bytes of [s] that are 0xFF. *)
Fixpoint idle_prefix (s : list Z) : nat :=
  match s with
  | [] => O
  | b :: t => if b =? 0xFF then S (idle_prefix t) else O
  end.

(** The bytes of [s] up to and including the first that is not 0xFF; all
    of [s] when every byte is 0xFF. *)
Definition up_to_non_idle (s : list Z) : list Z :=
  firstn (S (idle_prefix s)) s.

(** The first byte of [s] that is not 0xFF; 0xFF when there is none. *)
Definition first_non_idle (s : list Z) : Z := last (up_to_non_idle s) 0xFF.

(** The number of leading bytes of [s] that differ from [token]. *)
Fixpoint index_of (token : Z) (s : list Z) : nat :=
  match s with
  | [] => O
  | b :: t => if b =? token then O else S (index_of token t)
  end.

(** The bytes of [s] up to and including the first [token]; all of [s]
    when it holds none. *)
Definition up_to_token (token : Z) (s : list Z) : list Z :=
  firstn (S (index_of token s)) s.

(** The number of single-byte polls that start before a deadline of
    [timeout_us] microseconds, one poll taking [byte_ticks] ticks: the
    timeout divided by the byte time, rounded up. *)
Definition polls_allowed (timeout_us : Z) : nat :=
  Z.to_nat ((timer_from_us timeout_us + byte_ticks - 1) / byte_ticks).

(** The buffer and the world left by [k] command exchanges, each followed
    by the delay of one millisecond that separates two attempts. *)
Fixpoint after_failures (cmd arg fl : Z) (k : nat) (buf : list Z) (w : world)
  : list Z * world :=
  match k with
  | O => (buf, w)
  | S k' =>
      let '((_, buf1), w1) := send_command cmd arg buf fl w in
      after_failures cmd arg fl k' buf1 (snd (udelay 1000 w1))
  end.

(** The command exchange number [k], counted from 0, of a run in which
    the exchanges before it were each followed by the delay. *)
Definition attempt (cmd arg fl : Z) (k : nat) (buf : list Z) (w : world)
  : (Z * list Z) * world :=
  let '(b, x) := after_failures cmd arg fl k buf w in
  send_command cmd arg b fl x.

End Streams.

(** ** Predicates on worlds and runs *)

Section Predicates.

Context {hw : Hardware}.

(** A computation keeps the relation [R] between the worlds around it. *)
Definition respects {A : Type} (R : world -> world -> Prop) (m : M A) : Prop :=
  forall w, R w (snd (m w)).

(** A step that touches only the hardware: the device structure is left
    as it was and the log is extended. *)
Definition hw_only (w w' : world) : Prop :=
  sd_spi w' = sd_spi w /\ exists l, trace w' = l ++ trace w.

(** The log is only ever extended. *)
Definition trace_ext (w w' : world) : Prop :=
  exists l, trace w' = l ++ trace w.

(** Error bits are only ever added. *)
Definition err_grows (w w' : world) : Prop :=
  exists bits, err (sd_spi w') = Z.lor (err (sd_spi w)) bits.

(** The Initialized flag is left as it was. *)
Definition keeps_initialized (w w' : world) : Prop :=
  Z.land (flags (sd_spi w')) SDF_INITIALIZED
  = Z.land (flags (sd_spi w)) SDF_INITIALIZED.

(** The Initialized flag is set. *)
Definition initialized (w : world) : Prop :=
  Z.land (flags (sd_spi w)) SDF_INITIALIZED <> 0.

(** What a computation adds to the counters of the log: [a] assertions of
    chip-select and [d] delays, each of one millisecond. *)
Definition tallies {A : Type} (a d : nat) (m : M A) : Prop :=
  forall w,
    cs_asserts (snd (m w)) = (cs_asserts w + a)%nat
    /\ delays (snd (m w)) = (delays w + d)%nat
    /\ delays_of 1000 (snd (m w)) = (delays_of 1000 w + d)%nat.

(** The last hardware access of a computation. *)
Definition ends_with {A : Type} (e : event) (m : M A) : Prop :=
  forall w, hd_error (trace (snd (m w))) = Some e.

(** The log and the error set grow. *)
Definition evolves (w w' : world) : Prop :=
  trace_ext w w' /\ err_grows w w'.

(** The flags are a device field the block read never writes. *)
Definition same_flags (w w' : world) : Prop :=
  flags (sd_spi w') = flags (sd_spi w).

(** The event is a transfer on the bus. *)
Definition is_xfer (e : event) : bool :=
  match e with
  | EvXfer _ _ => true
  | _ => false
  end.

(** A step that only transfers bytes: the device structure is left as it
    was and the log gains transfers and nothing else. *)
Definition xfers_only (w w' : world) : Prop :=
  sd_spi w' = sd_spi w
  /\ exists l, Forall (fun e => is_xfer e = true) l /\ trace w' = l ++ trace w.

(** A computation that makes no hardware access. *)
Definition quiet {A : Type} (m : M A) : Prop :=
  forall w, trace (snd (m w)) = trace w.

(** A computation that transfers bytes and releases chip-select last. *)
Definition closes {A : Type} (m : M A) : Prop :=
  forall w, exists l,
    Forall (fun e => is_xfer e = true) l
    /\ trace (snd (m w)) = EvCS 1 :: l ++ trace w.

(** The level chip-select was last driven to is high, reading the log from
    its newest event; a log that never drove it counts as high. *)
Fixpoint cs_idle (tr : list event) : bool :=
  match tr with
  | [] => true
  | EvCS level :: _ => level =? 1
  | EvGpioSetup level :: _ => level =? 1
  | _ :: t => cs_idle t
  end.

(** Chip-select, if high before, is high after. *)
Definition cs_safe (w w' : world) : Prop :=
  cs_idle (trace w) = true -> cs_idle (trace w') = true.

(** The flags and the bus configuration are left as they were. *)
Definition keeps_setup (w w' : world) : Prop :=
  flags (sd_spi w') = flags (sd_spi w)
  /\ config (sd_spi w') = config (sd_spi w).

(** No flag is cleared. *)
Definition flags_grow (w w' : world) : Prop :=
  exists bits, flags (sd_spi w') = Z.lor (flags (sd_spi w)) bits.

End Predicates.

Create HintDb hw_db.
Create HintDb ev_db.
Create HintDb ki_db.
Create HintDb xf_db.
Create HintDb cs_db.
Create HintDb fl_db.

(** * Properties *)

Section Properties.

Context {hw : Hardware}.

(** ** Computations that keep a relation between the worlds around them *)

Section Respects.

Variable R : world -> world -> Prop.
Hypothesis R_refl : forall w, R w w.
Hypothesis R_trans : forall w1 w2 w3, R w1 w2 -> R w2 w3 -> R w1 w3.

Lemma respects_ret {A : Type} (a : A) : respects R (ret a).
Proof. intros w. apply R_refl. Qed.

Lemma respects_bind {A B : Type} (m : M A) (k : A -> M B) :
  respects R m -> (forall a, respects R (k a)) -> respects R (bind m k).
Proof.
  intros Hm Hk w. unfold bind.
  specialize (Hm w). destruct (m w) as [a w1]. simpl in Hm.
  eapply R_trans; [exact Hm | apply Hk].
Qed.

End Respects.

Lemma hw_only_refl w : hw_only w w.
Proof. split; [reflexivity | exists []; reflexivity]. Qed.

Lemma hw_only_trans w1 w2 w3 : hw_only w1 w2 -> hw_only w2 w3 -> hw_only w1 w3.
Proof.
  intros [E1 [l1 T1]] [E2 [l2 T2]]. split; [congruence |].
  exists (l2 ++ l1). rewrite T2, T1. apply app_assoc.
Qed.

Lemma trace_ext_refl w : trace_ext w w.
Proof. exists []; reflexivity. Qed.

Lemma trace_ext_trans w1 w2 w3 :
  trace_ext w1 w2 -> trace_ext w2 w3 -> trace_ext w1 w3.
Proof.
  intros [l1 T1] [l2 T2]. exists (l2 ++ l1). rewrite T2, T1. apply app_assoc.
Qed.

Lemma err_grows_refl w : err_grows w w.
Proof. exists 0. symmetry. apply Z.lor_0_r. Qed.

Lemma err_grows_trans w1 w2 w3 :
  err_grows w1 w2 -> err_grows w2 w3 -> err_grows w1 w3.
Proof.
  intros [b1 E1] [b2 E2]. exists (Z.lor b1 b2).
  rewrite E2, E1. symmetry. apply Z.lor_assoc.
Qed.

Lemma keeps_initialized_refl w : keeps_initialized w w.
Proof. reflexivity. Qed.

Lemma keeps_initialized_trans w1 w2 w3 :
  keeps_initialized w1 w2 -> keeps_initialized w2 w3 -> keeps_initialized w1 w3.
Proof. unfold keeps_initialized. congruence. Qed.

Lemma hw_only_trace_ext w w' : hw_only w w' -> trace_ext w w'.
Proof. intros [_ H]. exact H. Qed.

Lemma hw_only_err_grows w w' : hw_only w w' -> err_grows w w'.
Proof. intros [E _]. exists 0. rewrite E. symmetry. apply Z.lor_0_r. Qed.

Lemma hw_only_keeps_initialized w w' : hw_only w w' -> keeps_initialized w w'.
Proof. intros [E _]. unfold keeps_initialized. rewrite E. reflexivity. Qed.

Lemma respects_weaken (R1 R2 : world -> world -> Prop) {A : Type} (m : M A) :
  (forall w w', R1 w w' -> R2 w w') -> respects R1 m -> respects R2 m.
Proof. intros H Hm w. apply H, Hm. Qed.

(** Steps through a computation built from [bind], [ret] and tests. *)
Ltac respects_step refl trans :=
  lazymatch goal with
  | |- respects _ (bind _ _) =>
      apply (respects_bind _ trans); [ | intros ]
  | |- respects _ (ret _) => apply (respects_ret _ refl)
  | |- respects _ (if ?b then _ else _) => destruct b
  | |- respects _ (match ?x with _ => _ end) => destruct x
  | |- respects _ (let _ := _ in _) => cbv zeta
  end.

Ltac respects_hw :=
  repeat (first [ solve [eauto with hw_db]
                | respects_step hw_only_refl hw_only_trans ]).

(** *** The hardware primitives *)

Lemma log_hw_only e : respects hw_only (log e).
Proof. intros w. split; [reflexivity | exists [e]; reflexivity]. Qed.

Lemma tick_hw_only d : respects hw_only (tick d).
Proof. intros w. split; [reflexivity | exists []; reflexivity]. Qed.

Lemma spi_transfer_hw_only r len data : respects hw_only (spi_transfer r len data).
Proof.
  intros w. unfold spi_transfer.
  destruct (exchange (card w) (firstn len data)) as [miso c]. simpl.
  split; [reflexivity | exists [EvXfer r (firstn len data)]; reflexivity].
Qed.

Lemma timer_read_time_hw_only : respects hw_only timer_read_time.
Proof. intros w. apply hw_only_refl. Qed.

Lemma get_flags_hw_only : respects hw_only get_flags.
Proof. intros w. apply hw_only_refl. Qed.

Hint Resolve log_hw_only tick_hw_only spi_transfer_hw_only
  timer_read_time_hw_only get_flags_hw_only : hw_db.

Lemma spi_prepare_hw_only : respects hw_only spi_prepare.
Proof. unfold spi_prepare. respects_hw. Qed.

Lemma gpio_out_write_hw_only l : respects hw_only (gpio_out_write l).
Proof. unfold gpio_out_write. respects_hw. Qed.

Lemma gpio_out_setup_hw_only l : respects hw_only (gpio_out_setup l).
Proof. unfold gpio_out_setup. respects_hw. Qed.

Lemma udelay_hw_only us : respects hw_only (udelay us).
Proof. unfold udelay. respects_hw. Qed.

Hint Resolve spi_prepare_hw_only gpio_out_write_hw_only gpio_out_setup_hw_only
  udelay_hw_only : hw_db.

Lemma find_token_loop_hw_only fuel token endtime :
  respects hw_only (find_token_loop fuel token endtime).
Proof.
  induction fuel as [|fuel IH]; simpl; respects_hw.
Qed.

Hint Resolve find_token_loop_hw_only : hw_db.

Lemma find_token_hw_only token timeout_us :
  respects hw_only (find_token token timeout_us).
Proof. unfold find_token. respects_hw. Qed.

Lemma send_command_hw_only command arg buf cmd_flags :
  respects hw_only (send_command command arg buf cmd_flags).
Proof. unfold send_command. respects_hw. Qed.

Hint Resolve find_token_hw_only send_command_hw_only : hw_db.

Lemma check_command_hw_only cmd arg buf fl expect attempts :
  respects hw_only (check_command cmd arg buf fl expect attempts).
Proof.
  revert buf. induction attempts as [|n IH]; intros buf; simpl; respects_hw.
Qed.

Lemma poll_response_hw_only tries cmd_buf r :
  respects hw_only (poll_response tries cmd_buf r).
Proof.
  revert cmd_buf r. induction tries as [|n IH]; intros; simpl; respects_hw.
Qed.

Lemma clock_idle_hw_only n buf : respects hw_only (clock_idle n buf).
Proof. induction n as [|n IH]; simpl; respects_hw. Qed.

Hint Resolve check_command_hw_only poll_response_hw_only clock_idle_hw_only
  : hw_db.

(** ** Bit sets *)

Lemma lor_land_same a b : Z.lor (Z.land a b) b = b.
Proof.
  apply Z.bits_inj'. intros n _.
  rewrite Z.lor_spec, Z.land_spec.
  destruct (Z.testbit a n), (Z.testbit b n); reflexivity.
Qed.

Lemma land_lor_same a b : Z.land (Z.lor a b) b = b.
Proof. rewrite Z.land_lor_distr_l, Z.land_diag. apply lor_land_same. Qed.

Lemma land_lor_other a b c : Z.land b c = 0 -> Z.land (Z.lor a b) c = Z.land a c.
Proof. intros H. rewrite Z.land_lor_distr_l, H. apply Z.lor_0_r. Qed.

Lemma land_lor_keeps a b c : Z.land a c = c -> Z.land (Z.lor a b) c = c.
Proof.
  intros H. rewrite Z.land_lor_distr_l, H, Z.lor_comm. apply lor_land_same.
Qed.

(** ** The checksum of the go-idle frame *)

(** C7: the CRC7 (MSB first, polynomial 0x12, initial value 0, lowest bit
    forced to 1) of the five bytes 0x40, 0, 0, 0, 0 of the go-idle frame is
    0x95, and this is the sixth byte [populate_buffer] gives that frame;
    the lowest bit of every CRC7 is 1 and the CRC7 of no bytes is the
    initial value 0 with that bit set. *)
Theorem crc7_go_idle_frame :
  calc_crc7 [0x40; 0; 0; 0; 0] 5 = 0x95
  /\ populate_buffer SDCMD_GO_IDLE_STATE 0 (repeat 0 8)
     = [0x40; 0; 0; 0; 0; 0x95; 0; 0]
  /\ CRC7_POLY = 0x12
  /\ calc_crc7 [] 0 = 1
  /\ (forall data n, Z.land (calc_crc7 data n) 1 = 1).
Proof.
  repeat split; try reflexivity.
  intros data n. unfold calc_crc7. apply land_lor_same.
Qed.

(** ** The not-ready guard *)

Lemma find_token_loop_bool fuel token endtime w :
  fst (find_token_loop fuel token endtime w) = 0
  \/ fst (find_token_loop fuel token endtime w) = 1.
Proof.
  revert w. induction fuel as [|fuel IH]; intros w; simpl.
  - left. reflexivity.
  - unfold bind. simpl.
    destruct (timer_is_before (u32 (now w)) endtime); [| left; reflexivity].
    destruct (spi_transfer true 1 [255] w) as [b w1].
    destruct (rd b 0 =? token); [right; reflexivity | apply IH].
Qed.

Lemma find_token_bool token timeout_us w :
  fst (find_token token timeout_us w) = 0
  \/ fst (find_token token timeout_us w) = 1.
Proof.
  unfold find_token, bind, timer_read_time. cbv beta iota.
  apply find_token_loop_bool.
Qed.

Lemma read_verdict_bool r recd crc w :
  fst (read_verdict r recd crc w) = 0 \/ fst (read_verdict r recd crc w) = 1.
Proof.
  unfold read_verdict, bind.
  destruct (recd =? crc); simpl.
  - destruct (0 <? r); simpl; auto.
  - right + left; reflexivity.
Qed.

Lemma bind_run {A B : Type} (m : M A) (k : A -> M B) w :
  bind m k w = let (a, w') := m w in k a w'.
Proof. reflexivity. Qed.

(** Runs the computation in the goal one [bind] at a time, naming each
    intermediate world. *)
Ltac run_step :=
  match goal with
  | |- context [bind ?m ?k ?w] =>
      rewrite (bind_run m k w);
      let a := fresh "a" in
      let w1 := fresh "w" in
      let E := fresh "E" in
      destruct (m w) as [a w1] eqn:E
  | |- context [let (_, _) := ?x in _] => is_var x; destruct x
  | |- context [ret ?a ?w] => change (ret a w) with (a, w)
  end.

Lemma read_data_block_bool cmd arg buf length w :
  fst (fst (read_data_block cmd arg buf length w)) = 0
  \/ fst (fst (read_data_block cmd arg buf length w)) = 1.
Proof.
  unfold read_data_block. cbv zeta.
  repeat run_step.
  match goal with
  | E : read_verdict ?a ?b ?c ?d = _ |- _ =>
      pose proof (read_verdict_bool a b c d) as H; rewrite E in H
  end.
  exact H.
Qed.

Lemma write_data_bool buf cmd_buf crc w :
  fst (write_data buf cmd_buf crc w) = 0 \/ fst (write_data buf cmd_buf crc w) = 1.
Proof.
  unfold write_data. cbv zeta.
  repeat run_step.
  match goal with
  | |- context [if ?b then _ else _] => destruct b
  end; repeat run_step; simpl; auto.
Qed.

Lemma write_sector_bool buf sector w :
  initialized w ->
  fst (sdcard_write_sector buf sector w) = 0
  \/ fst (sdcard_write_sector buf sector w) = 1.
Proof.
  intros Hi. unfold sdcard_write_sector. cbv zeta.
  rewrite bind_run. unfold get_flags.
  destruct (Z.eqb_spec (Z.land (flags (sd_spi w)) SDF_INITIALIZED) 0) as [E|_];
    [contradiction |].
  repeat run_step.
  match goal with
  | |- context [if ?b then _ else _] => destruct b
  end.
  - repeat run_step. left. reflexivity.
  - apply write_data_bool.
Qed.

Lemma read_sector_bool buf sector w :
  initialized w ->
  fst (fst (sdcard_read_sector buf sector w)) = 0
  \/ fst (fst (sdcard_read_sector buf sector w)) = 1.
Proof.
  intros Hi. unfold sdcard_read_sector. cbv zeta.
  rewrite bind_run. unfold get_flags.
  destruct (Z.eqb_spec (Z.land (flags (sd_spi w)) SDF_INITIALIZED) 0) as [E|_];
    [contradiction |].
  apply read_data_block_bool.
Qed.

(** C4: while the Initialized flag is not set, [sdcard_read_sector] and
    [sdcard_write_sector] return 255 (the source's -1 as a [uint8_t]) and
    leave the world as it was: chip-select is not asserted, no byte is
    transferred, the error set is not modified.  The value differs from the
    failure value 0 and the success value 1, the only two values either
    function returns once the flag is set. *)
Theorem not_ready_guard (w : world) (buf : list Z) (sector : Z) :
  Z.land (flags (sd_spi w)) SDF_INITIALIZED = 0 ->
  sdcard_read_sector buf sector w = ((255, buf), w)
  /\ sdcard_write_sector buf sector w = (255, w)
  /\ 255 <> 0 /\ 255 <> 1
  /\ (forall w' buf' sector', initialized w' ->
        fst (fst (sdcard_read_sector buf' sector' w')) <> 255
        /\ fst (sdcard_write_sector buf' sector' w') <> 255).
Proof.
  intros H. split; [| split; [| split; [| split]]]; try discriminate.
  - unfold sdcard_read_sector. rewrite bind_run. unfold get_flags.
    rewrite H. reflexivity.
  - unfold sdcard_write_sector. rewrite bind_run. unfold get_flags.
    rewrite H. reflexivity.
  - intros w' buf' sector' Hi. split.
    + destruct (read_sector_bool buf' sector' w' Hi) as [E|E]; rewrite E;
        discriminate.
    + destruct (write_sector_bool buf' sector' w' Hi) as [E|E]; rewrite E;
        discriminate.
Qed.

(** ** The verdict of a block read *)

Lemma read_verdict_spec r recd crc w :
  0 <= r ->
  (fst (read_verdict r recd crc w) = 1 <-> r = 0 /\ recd = crc)
  /\ (recd <> crc ->
      fst (read_verdict r recd crc w) = 0
      /\ Z.land (err (sd_spi (snd (read_verdict r recd crc w)))) SDE_CRC_ERR
         = SDE_CRC_ERR).
Proof.
  intros Hr. unfold read_verdict, bind, or_err, ret.
  destruct (Z.eqb_spec recd crc) as [E|E]; simpl.
  - destruct (Z.ltb_spec 0 r) as [L|L]; simpl.
    + split; [split; [discriminate | lia] | contradiction].
    + split; [split; [intros _; split; [lia | exact E] | reflexivity]
             | contradiction].
  - split; [split; [discriminate | tauto] |].
    intros _. split; [reflexivity |].
    apply land_lor_keeps, land_lor_same.
Qed.

(** The result of [read_data_block] in terms of what its own steps
    returned: the response of the polling loop, the result of the scan for
    the start token, and the buffers of the two transfers that follow. *)
Lemma read_run_verdict (cmd arg : Z) (buf : list Z) (length : Z)
    (sector : Z) (w : world) :
  sdcard_read_sector buf sector w
  = (if Z.land (flags (sd_spi w)) SDF_INITIALIZED =? 0
     then ((255, buf), w)
     else read_data_block SDCMD_READ_SINGLE_BLOCK
            (sector_offset (flags (sd_spi w)) sector) buf
            SD_SECTOR_SIZE w)
  /\
  let '(cmd_buf1, w1) :=
    (spi_prepare ;; gpio_out_write 0 ;;
     spi_transfer false 6 (populate_buffer cmd arg (repeat 0 8))) w in
  let '((response, cmd_buf2), w2) := poll_response 16 cmd_buf1 0 w1 in
  let '(found, w3) := find_token 0xFE 50000 w2 in
  let '(data, w4) :=
    spi_transfer true (Z.to_nat (u16 length))
      (memset buf 0xFF (Z.to_nat length)) w3 in
  let '(trailer, w5) := spi_transfer true 2 (memset cmd_buf2 0xFF 8) w4 in
  let crc := calc_crc16 data (Z.to_nat (u16 length)) in
  let '((r, out), w') := read_data_block cmd arg buf length w in
  out = data
  /\ (r = 1 <-> response = 0 /\ found = 1 /\ recd_crc trailer = crc)
  /\ (r = 0 \/ r = 1)
  /\ (recd_crc trailer <> crc ->
      r = 0 /\ Z.land (err (sd_spi w')) SDE_CRC_ERR = SDE_CRC_ERR).
Proof.
  split.
  { unfold sdcard_read_sector, get_flags.
    rewrite bind_run. cbv zeta.
    destruct (Z.land (flags (sd_spi w)) SDF_INITIALIZED =? 0); reflexivity. }
  unfold read_data_block, spi_prepare, gpio_out_write, log, bind, ret.
  cbv beta iota zeta.
  repeat match goal with
         | |- context [spi_transfer ?a ?b ?c ?x] =>
             destruct (spi_transfer a b c x) as [? ?]
         | |- context [poll_response ?a ?b ?c ?x] =>
             destruct (poll_response a b c x) as [[? ?] ?]
         | |- context [find_token ?t ?us ?x] =>
             let H := fresh "Hfound" in
             pose proof (find_token_bool t us x) as H;
             destruct (find_token t us x) as [? ?]; simpl in H
         | |- context [read_verdict ?a ?b ?c ?d] =>
             pose proof (read_verdict_spec a b c d) as Hv;
             pose proof (read_verdict_bool a b c d) as Hb;
             destruct (read_verdict a b c d) as [? ?]; simpl in Hv, Hb
         end.
  assert (Hr : 0 <= (if z0 =? 0 then 2 else if z =? 0 then z else 1)).
  { destruct (z0 =? 0); [lia |]. destruct (Z.eqb_spec z 0); lia. }
  destruct (Hv Hr) as [Hiff Hcrc]. clear Hv.
  split; [reflexivity |]. split; [| split; [exact Hb | exact Hcrc]].
  rewrite Hiff. clear Hiff Hcrc.
  destruct Hfound as [-> | ->]; simpl.
  - split; [intros [? _]; discriminate | intros [_ [? _]]; discriminate].
  - destruct (Z.eqb_spec z 0) as [-> | Hz].
    + tauto.
    + split; [intros [? _]; discriminate | intros [? _]; contradiction].
Qed.

(** ** The verdict of a sector write *)

(** Destructs the hardware runs met in the goal, in the order the
    computation makes them, keeping what each leaves untouched. *)
Ltac run_hw1 :=
  match goal with
         | |- context [spi_transfer ?a ?b ?c ?x] =>
             let H := fresh "Hdev" in
             pose proof (proj1 (spi_transfer_hw_only a b c x)) as H;
             destruct (spi_transfer a b c x) as [? ?]; simpl in H
         | |- context [poll_response ?a ?b ?c ?x] =>
             let H := fresh "Hdev" in
             pose proof (proj1 (poll_response_hw_only a b c x)) as H;
             destruct (poll_response a b c x) as [[? ?] ?]; simpl in H
         | |- context [find_token ?t ?us ?x] =>
             let H := fresh "Hfound" in
             let H' := fresh "Hdev" in
             pose proof (find_token_bool t us x) as H;
             pose proof (proj1 (find_token_hw_only t us x)) as H';
             destruct (find_token t us x) as [? ?]; simpl in H, H'
         end.

Ltac run_hw := repeat run_hw1.

(** The result of a call of [sdcard_write_sector] that reaches the data
    exchange, in terms of what its own steps returned: the buffers of the
    two eight-byte reads and the result of the scan for the end of the busy
    state. *)
Lemma write_run_verdict (buf : list Z) (sector : Z) (w : world) :
  initialized w ->
  let offset := sector_offset (flags (sd_spi w)) sector in
  let crc := calc_crc16 buf (Z.to_nat SD_SECTOR_SIZE) in
  let '(cmd_buf, w1) :=
    (spi_prepare ;; gpio_out_write 0 ;;
     cmd_buf <- spi_transfer false 6
                  (populate_buffer SDCMD_WRITE_BLOCK offset (repeat 0 8)) ;;
     spi_transfer true 8 (memset cmd_buf 0xFF 8)) w in
  response_byte cmd_buf <> 0xFF ->
  let '(token_buf, w2) :=
    (cmd_buf <- spi_transfer false 1 (wr cmd_buf 0 0xFE) ;;
     _ <- spi_transfer false (Z.to_nat SD_SECTOR_SIZE) buf ;;
     cmd_buf <- spi_transfer false 2
                  (wr (wr cmd_buf 0 (Z.land (Z.shiftr crc 8) 0xFF))
                      1 (Z.land crc 0xFF)) ;;
     spi_transfer true 8 (memset cmd_buf 0xFF 8)) w1 in
  let token := response_byte token_buf in
  let '(released, w3) := find_token 0xFF 50000 w2 in
  let '(r, w') := sdcard_write_sector buf sector w in
  (r = 1 <-> Z.land token 0x1F = 5 /\ released = 1)
  /\ (r = 0 \/ r = 1)
  /\ (r = 0 -> Z.land (err (sd_spi w')) SDE_WRITE_ERR = SDE_WRITE_ERR)
  /\ (r = 1 -> err (sd_spi w') = err (sd_spi w)).
Proof.
  intros Hi. unfold initialized in Hi.
  unfold sdcard_write_sector, write_data, get_flags, spi_prepare,
    gpio_out_write, log, or_err, bind, ret.
  cbv beta iota zeta.
  destruct (Z.eqb_spec (Z.land (flags (sd_spi w)) SDF_INITIALIZED) 0) as [E|_];
    [contradiction |].
  do 2 run_hw1.
  intros Hreach.
  destruct (Z.eqb_spec (response_byte l0) 255) as [E|_]; [contradiction |].
  cbv beta.
  run_hw.
  destruct Hfound as [-> | ->];
    destruct (Z.eqb_spec (Z.land (response_byte l4) 31) 5) as [Et|Et];
    simpl.
  - repeat split; try discriminate; auto; intros; try apply land_lor_same.
    destruct H; discriminate.
  - repeat split; try discriminate; auto; intros; try apply land_lor_same.
    destruct H; discriminate.
  - repeat split; try discriminate; auto; intros; try congruence.
  - repeat split; try discriminate; auto; intros; try apply land_lor_same.
    destruct H; contradiction.
Qed.

(** ** The retry loop *)

Lemma tallies_ret {A : Type} (x : A) : tallies 0 0 (ret x).
Proof. intros w. simpl. rewrite !Nat.add_0_r. auto. Qed.

Lemma tallies_bind {A B : Type} (a1 d1 a2 d2 a d : nat) (m : M A)
    (k : A -> M B) :
  tallies a1 d1 m -> (forall x, tallies a2 d2 (k x)) ->
  a = (a1 + a2)%nat -> d = (d1 + d2)%nat ->
  tallies a d (bind m k).
Proof.
  intros Hm Hk -> -> w. unfold bind.
  destruct (Hm w) as (H1 & H2 & H3). destruct (m w) as [x w1]. simpl in *.
  destruct (Hk x w1) as (K1 & K2 & K3).
  rewrite K1, K2, K3, H1, H2, H3. repeat split; lia.
Qed.

Lemma tallies_log_quiet e :
  event_eqb_cs 0 e = false -> is_delay e = false -> tallies 0 0 (log e).
Proof.
  intros H1 H2 w. unfold cs_asserts, delays, delays_of. simpl.
  rewrite H1, H2. destruct e; try discriminate; simpl; rewrite !Nat.add_0_r; auto.
Qed.

Lemma tallies_cs_assert : tallies 1 0 (gpio_out_write 0).
Proof.
  intros w. unfold cs_asserts, delays, delays_of. simpl.
  rewrite !Nat.add_0_r, Nat.add_1_r. auto.
Qed.

Lemma tallies_cs_release : tallies 0 0 (gpio_out_write 1).
Proof. apply tallies_log_quiet; reflexivity. Qed.

Lemma tallies_spi_prepare : tallies 0 0 spi_prepare.
Proof. apply tallies_log_quiet; reflexivity. Qed.

Lemma tallies_spi_transfer r len data : tallies 0 0 (spi_transfer r len data).
Proof.
  intros w. unfold spi_transfer, cs_asserts, delays, delays_of.
  destruct (exchange (card w) (firstn len data)) as [miso c]. simpl.
  rewrite !Nat.add_0_r. auto.
Qed.

Lemma tallies_udelay_1ms : tallies 0 1 (udelay 1000).
Proof.
  intros w. unfold cs_asserts, delays, delays_of. simpl.
  rewrite !Nat.add_0_r, !Nat.add_1_r. auto.
Qed.

Ltac tally :=
  lazymatch goal with
  | |- tallies _ _ (bind _ _) =>
      eapply tallies_bind; [ tally | intros; tally | reflexivity | reflexivity ]
  | |- tallies _ _ (ret _) => apply tallies_ret
  | |- tallies _ _ (if ?b then _ else _) => destruct b; tally
  | |- tallies _ _ (match ?x with _ => _ end) => destruct x; tally
  | |- tallies _ _ (let _ := _ in _) => cbv zeta; tally
  | |- tallies _ _ spi_prepare => apply tallies_spi_prepare
  | |- tallies _ _ (gpio_out_write 0) => apply tallies_cs_assert
  | |- tallies _ _ (gpio_out_write 1) => apply tallies_cs_release
  | |- tallies _ _ (spi_transfer _ _ _) => apply tallies_spi_transfer
  | |- tallies _ _ (udelay 1000) => apply tallies_udelay_1ms
  end.

(** One command exchange asserts chip-select once and never delays. *)
Lemma send_command_tallies command arg buf cmd_flags :
  tallies 1 0 (send_command command arg buf cmd_flags).
Proof. unfold send_command. tally. Qed.

Lemma ends_with_bind {A B : Type} e (m : M A) (k : A -> M B) :
  (forall x, ends_with e (k x)) -> ends_with e (bind m k).
Proof. intros H w. unfold bind. destruct (m w) as [x w1]. apply H. Qed.

Lemma ends_with_log_ret {A : Type} e (x : A) :
  ends_with e (bind (log e) (fun _ => ret x)).
Proof. intros w. reflexivity. Qed.

Lemma send_command_ends command arg buf cmd_flags :
  ends_with (EvCS 1) (send_command command arg buf cmd_flags).
Proof.
  unfold send_command.
  repeat (apply ends_with_bind; intros).
  match goal with
  | |- ends_with _ (match ?p with _ => _ end) => destruct p
  end.
  apply ends_with_log_ret.
Qed.

Lemma check_command_step cmd arg buf fl expect n w :
  check_command cmd arg buf fl expect (S n) w
  = let '((r, buf1), w1) := send_command cmd arg buf fl w in
    if accepted fl expect r then ((1, buf1), w1)
    else
      check_command cmd arg buf1 fl expect n
        (snd (match n with
              | O => ret tt
              | S _ => udelay 1000
              end w1)).
Proof.
  simpl. unfold bind at 1.
  destruct (send_command cmd arg buf fl w) as [[r buf1] w1].
  destruct (accepted fl expect r); [reflexivity |].
  unfold bind. destruct n; reflexivity.
Qed.

Lemma check_command_exhausted cmd arg fl expect :
  (forall b x,
     accepted fl expect (fst (fst (send_command cmd arg b fl x))) = false) ->
  forall n buf w, (1 <= n)%nat ->
    let w' := snd (check_command cmd arg buf fl expect n w) in
    fst (fst (check_command cmd arg buf fl expect n w)) = 0
    /\ cs_asserts w' = (cs_asserts w + n)%nat
    /\ delays w' = (delays w + (n - 1))%nat
    /\ delays_of 1000 w' = (delays_of 1000 w + (n - 1))%nat
    /\ hd_error (trace w') = Some (EvCS 1).
Proof.
  intros Hnever n. induction n as [|n IH]; intros buf w Hn; [lia |].
  cbv zeta. rewrite check_command_step.
  pose proof (Hnever buf w) as Hacc.
  pose proof (send_command_tallies cmd arg buf fl w) as (T1 & T2 & T3).
  pose proof (send_command_ends cmd arg buf fl w) as Hend.
  destruct (send_command cmd arg buf fl w) as [[r buf1] w1].
  simpl in Hacc, T1, T2, T3, Hend. rewrite Hacc.
  destruct n as [|n].
  - simpl. rewrite T1, T2, T3. repeat split; try lia. exact Hend.
  - specialize (IH buf1 (snd (udelay 1000 w1)) ltac:(lia)).
    cbv zeta in IH. destruct IH as (I1 & I2 & I3 & I4 & I5).
    pose proof (tallies_udelay_1ms w1) as (U1 & U2 & U3).
    rewrite I1, I2, I3, I4, I5, U1, U2, U3, T1, T2, T3.
    repeat split; lia.
Qed.


(** ** What every driver operation keeps: the log and the error set grow *)

Lemma evolves_refl w : evolves w w.
Proof. split; [apply trace_ext_refl | apply err_grows_refl]. Qed.

Lemma evolves_trans w1 w2 w3 : evolves w1 w2 -> evolves w2 w3 -> evolves w1 w3.
Proof.
  intros [T1 E1] [T2 E2].
  split; [eapply trace_ext_trans | eapply err_grows_trans]; eassumption.
Qed.

Lemma hw_only_evolves {A : Type} (m : M A) :
  respects hw_only m -> respects evolves m.
Proof.
  apply respects_weaken. intros w w' H.
  split; [apply hw_only_trace_ext | apply hw_only_err_grows]; exact H.
Qed.

Lemma or_err_evolves e : respects evolves (or_err e).
Proof.
  intros w. split; [exists []; reflexivity | exists e; reflexivity].
Qed.

Lemma or_flags_evolves f : respects evolves (or_flags f).
Proof.
  intros w. split; [exists []; reflexivity |].
  exists 0. simpl. symmetry. apply Z.lor_0_r.
Qed.

Lemma set_config_evolves r : respects evolves (set_config r).
Proof.
  intros w. split; [exists []; reflexivity |].
  exists 0. simpl. symmetry. apply Z.lor_0_r.
Qed.

Hint Resolve or_err_evolves or_flags_evolves set_config_evolves : ev_db.

Ltac respects_ev :=
  repeat (first [ solve [eauto with ev_db]
                | solve [apply hw_only_evolves; eauto with hw_db]
                | respects_step evolves_refl evolves_trans ]).

Lemma write_data_evolves buf cmd_buf crc : respects evolves (write_data buf cmd_buf crc).
Proof. unfold write_data. respects_ev. Qed.

Hint Resolve write_data_evolves : ev_db.

Lemma sdcard_write_sector_evolves buf sector :
  respects evolves (sdcard_write_sector buf sector).
Proof. unfold sdcard_write_sector. respects_ev. Qed.

Lemma read_verdict_evolves r recd crc : respects evolves (read_verdict r recd crc).
Proof. unfold read_verdict. respects_ev. Qed.

Hint Resolve read_verdict_evolves : ev_db.

Lemma read_data_block_evolves cmd arg buf length :
  respects evolves (read_data_block cmd arg buf length).
Proof. unfold read_data_block. respects_ev. Qed.

Hint Resolve read_data_block_evolves : ev_db.

Lemma sdcard_read_sector_evolves buf sector :
  respects evolves (sdcard_read_sector buf sector).
Proof. unfold sdcard_read_sector. respects_ev. Qed.

Lemma sdcard_check_write_protect_evolves : respects evolves sdcard_check_write_protect.
Proof. unfold sdcard_check_write_protect. respects_ev. Qed.

Lemma spi_setup_evolves r : respects evolves (spi_setup r).
Proof. unfold spi_setup. respects_ev. Qed.

Lemma spi_set_rate_evolves r : respects evolves (spi_set_rate r).
Proof. unfold spi_set_rate. respects_ev. Qed.

Hint Resolve sdcard_check_write_protect_evolves spi_setup_evolves
  spi_set_rate_evolves : ev_db.

Lemma sdcard_init_negotiate_evolves : respects evolves sdcard_init_negotiate.
Proof. unfold sdcard_init_negotiate. respects_ev. Qed.

Hint Resolve sdcard_init_negotiate_evolves : ev_db.

Lemma sdcard_init_evolves : respects evolves sdcard_init.
Proof. unfold sdcard_init. respects_ev. Qed.

Lemma sdcard_deinit_hw_flags w :
  let w' := snd (sdcard_deinit w) in
  flags (sd_spi w') = Z.lor (flags (sd_spi w)) SDF_DEINIT
  /\ err (sd_spi w') = err (sd_spi w)
  /\ config (sd_spi w') = config (sd_spi w)
  /\ trace_ext w w'.
Proof.
  cbv zeta. unfold sdcard_deinit. rewrite bind_run. unfold get_flags.
  destruct (Z.eqb_spec (Z.land (flags (sd_spi w)) SDF_DEINIT) 0) as [E|E]; simpl.
  - rewrite bind_run. unfold or_flags.
    match goal with
    | |- context [bind ?m ?k ?x] =>
        assert (H : respects hw_only (bind m k)) by respects_hw;
        specialize (H x); destruct (bind m k x) as [u w1]
    end.
    simpl in *. destruct H as [Hs [l Hl]]. rewrite Hs. simpl.
    repeat split; try reflexivity. exists l. exact Hl.
  - repeat split; try reflexivity; [| apply trace_ext_refl].
    symmetry. apply Z.bits_inj'. intros n Hn.
    assert (Hb : Z.testbit (Z.land (flags (sd_spi w)) SDF_DEINIT) n
                 = Z.testbit SDF_DEINIT n).
    { revert E. unfold SDF_DEINIT.
      intros E. rewrite Z.land_spec.
      destruct (Z.eq_dec n 3) as [-> | Hn3].
      - destruct (Z.testbit (flags (sd_spi w)) 3) eqn:B; [reflexivity |].
        exfalso. apply E. apply Z.bits_inj'. intros m Hm.
        rewrite Z.land_spec, Z.bits_0.
        destruct (Z.eq_dec m 3) as [-> | Hm3]; [rewrite B; reflexivity |].
        replace (Z.testbit 8 m) with false; [apply andb_false_r |].
        symmetry. change 8 with (2 ^ 3). apply Z.pow2_bits_false. congruence.
      - replace (Z.testbit 8 n) with false; [apply andb_false_r |].
        symmetry. change 8 with (2 ^ 3). apply Z.pow2_bits_false. congruence. }
    rewrite Z.lor_spec. rewrite Z.land_spec in Hb.
    destruct (Z.testbit (flags (sd_spi w)) n), (Z.testbit SDF_DEINIT n);
      simpl in *; congruence.
Qed.

Lemma sdcard_deinit_evolves : respects evolves sdcard_deinit.
Proof.
  intros w. destruct (sdcard_deinit_hw_flags w) as (_ & He & _ & Ht).
  split; [exact Ht |]. exists 0. rewrite He. symmetry. apply Z.lor_0_r.
Qed.

Lemma run_op_evolves o w : evolves w (run_op o w).
Proof.
  destruct o; simpl.
  - apply sdcard_init_evolves.
  - apply sdcard_read_sector_evolves.
  - apply sdcard_write_sector_evolves.
  - apply sdcard_deinit_evolves.
Qed.

Lemma run_ops_evolves os w : evolves w (run_ops os w).
Proof.
  revert w. induction os as [|o os IH]; intros w; simpl.
  - apply evolves_refl.
  - eapply evolves_trans; [apply run_op_evolves | apply IH].
Qed.

(** ** The error set *)

(** C3, as amended: over every sequence of driver operations the error set
    only grows: the bits set before are set after, the new value being the
    old one with bits OR-ed in.  [sdcard_deinit] leaves the error set as
    it was; [sdcard_init], [sdcard_read_sector] and [sdcard_write_sector]
    are the operations that can add bits. *)
Theorem error_set_grows (os : list op) (w : world) :
  (exists bits,
     err (sd_spi (run_ops os w)) = Z.lor (err (sd_spi w)) bits)
  /\ Z.land (err (sd_spi (run_ops os w))) (err (sd_spi w)) = err (sd_spi w)
  /\ err (sd_spi (run_op OpDeinit w)) = err (sd_spi w).
Proof.
  destruct (run_ops_evolves os w) as [_ [bits Hb]].
  split; [exists bits; exact Hb |]. split.
  - rewrite Hb, Z.lor_comm. apply land_lor_same.
  - simpl. apply sdcard_deinit_hw_flags.
Qed.

(** ** The address of a sector *)

Lemma spi_transfer_trace r len data w :
  trace (snd (spi_transfer r len data w))
  = EvXfer r (firstn len data) :: trace w.
Proof.
  unfold spi_transfer.
  destruct (exchange (card w) (firstn len data)) as [miso c]. reflexivity.
Qed.

Lemma run_then {A B : Type} (m : M A) (k : A -> M B) w :
  (forall a, respects evolves (k a)) ->
  exists l, trace (snd (bind m k w)) = l ++ trace (snd (m w)).
Proof.
  intros H. unfold bind. destruct (m w) as [a w1]. simpl.
  destruct (H a w1) as [[l Hl] _]. exists l. exact Hl.
Qed.

Lemma addressed_of_trace w w' l r f :
  trace w' = l ++ EvXfer r f :: EvCS 0 :: EvPrepare :: trace w ->
  addressed w w' = Some (frame_cmd f, frame_arg f).
Proof.
  intros H. unfold addressed, new_events. rewrite H.
  replace (l ++ EvXfer r f :: EvCS 0 :: EvPrepare :: trace w)
    with ((l ++ [EvXfer r f; EvCS 0; EvPrepare]) ++ trace w)
    by (rewrite <- app_assoc; reflexivity).
  rewrite length_app, Nat.add_sub, firstn_app, Nat.sub_diag, firstn_all.
  simpl. rewrite app_nil_r, rev_app_distr. reflexivity.
Qed.

Lemma testbit_byte_at a k n :
  0 <= k -> 0 <= n ->
  Z.testbit (Z.shiftl (Z.land (Z.shiftr a k) 0xFF) k) n
  = Z.testbit a n && (k <=? n) && (n <? k + 8).
Proof.
  intros Hk Hn. rewrite Z.shiftl_spec by exact Hn.
  destruct (Z.leb_spec k n) as [L|L].
  - rewrite Z.land_spec, Z.shiftr_spec by lia.
    replace (n - k + k) with n by lia.
    change 0xFF with (Z.ones 8). rewrite Z.testbit_ones_nonneg by lia.
    destruct (Z.ltb_spec (n - k) 8), (Z.ltb_spec n (k + 8)); try lia;
      rewrite ?andb_true_r, ?andb_false_r; reflexivity.
  - rewrite Z.testbit_neg_r by lia. rewrite andb_false_r. reflexivity.
Qed.

Lemma populate_buffer_bytes command arg :
  populate_buffer command arg (repeat 0 8)
  = [u8 (Z.lor command 0x40);
     Z.land (Z.shiftr arg 24) 0xFF;
     Z.land (Z.shiftr arg 16) 0xFF;
     Z.land (Z.shiftr arg 8) 0xFF;
     Z.land arg 0xFF;
     calc_crc7 [u8 (Z.lor command 0x40);
                Z.land (Z.shiftr arg 24) 0xFF;
                Z.land (Z.shiftr arg 16) 0xFF;
                Z.land (Z.shiftr arg 8) 0xFF;
                Z.land arg 0xFF; 0; 0; 0] 5;
     0; 0].
Proof. reflexivity. Qed.

Lemma frame_arg_populate command arg :
  0 <= arg < 4294967296 ->
  frame_arg (firstn 6 (populate_buffer command arg (repeat 0 8))) = arg.
Proof.
  intros Ha. rewrite populate_buffer_bytes.
  unfold frame_arg, rd. cbn [firstn nth].
  apply Z.bits_inj'. intros n Hn.
  rewrite !Z.lor_spec.
  rewrite !testbit_byte_at by lia.
  rewrite Z.land_spec. change 255 with (Z.ones 8).
  rewrite Z.testbit_ones_nonneg by lia.
  destruct (Z.ltb_spec n 32) as [L|L].
  - destruct (Z.testbit arg n); simpl; [| reflexivity].
    destruct (Z.leb_spec 24 n), (Z.ltb_spec n (24 + 8)),
      (Z.leb_spec 16 n), (Z.ltb_spec n (16 + 8)),
      (Z.leb_spec 8 n), (Z.ltb_spec n (8 + 8)), (Z.ltb_spec n 8);
      simpl; try reflexivity; lia.
  - replace (Z.testbit arg n) with false; [reflexivity |].
    symmetry. rewrite <- (Z.mod_small arg (2 ^ 32)) by (simpl; lia).
    apply Z.mod_pow2_bits_high. lia.
Qed.

Lemma frame_cmd_populate command arg :
  0 <= command < 64 ->
  frame_cmd (firstn 6 (populate_buffer command arg (repeat 0 8))) = command.
Proof.
  intros Hc. rewrite populate_buffer_bytes.
  unfold frame_cmd, rd, u8. cbn [firstn nth].
  change 63 with (Z.ones 6). rewrite Z.land_ones by lia.
  change 256 with (2 ^ 8). change (2 ^ 6) with 64.
  apply Z.bits_inj'. intros n Hn.
  rewrite <- (Z.land_ones _ 6) by lia. rewrite Z.land_spec.
  rewrite <- (Z.land_ones _ 8) by lia. rewrite Z.land_spec, Z.lor_spec.
  rewrite !Z.testbit_ones_nonneg by lia.
  destruct (Z.ltb_spec n 6) as [L|L].
  - replace (Z.testbit 64 n) with false.
    + destruct (Z.ltb_spec n 8); [| lia].
      rewrite orb_false_r, !andb_true_r. reflexivity.
    + symmetry. change 64 with (2 ^ 6). apply Z.pow2_bits_false. lia.
  - rewrite andb_false_r.
    symmetry. rewrite <- (Z.mod_small command (2 ^ 6)) by (simpl; lia).
    apply Z.mod_pow2_bits_high. lia.
Qed.

Lemma write_sector_starts buf sector w :
  initialized w ->
  exists l,
    trace (snd (sdcard_write_sector buf sector w))
    = l ++ EvXfer false
             (firstn 6 (populate_buffer SDCMD_WRITE_BLOCK
                          (sector_offset (flags (sd_spi w)) sector)
                          (repeat 0 8)))
           :: EvCS 0 :: EvPrepare :: trace w.
Proof.
  intros Hi. unfold initialized in Hi. unfold sdcard_write_sector.
  rewrite bind_run. unfold get_flags.
  destruct (Z.eqb_spec (Z.land (flags (sd_spi w)) SDF_INITIALIZED) 0) as [E|_];
    [contradiction |].
  cbv zeta. rewrite bind_run. unfold spi_prepare at 1, log at 1.
  rewrite bind_run. unfold gpio_out_write at 1, log at 1.
  match goal with
  | |- context [bind ?m ?k ?x] =>
      destruct (run_then m k x) as [l Hl]; [intros; respects_ev |];
      exists l; rewrite Hl
  end.
  rewrite spi_transfer_trace. reflexivity.
Qed.

Lemma read_sector_starts buf sector w :
  initialized w ->
  exists l,
    trace (snd (sdcard_read_sector buf sector w))
    = l ++ EvXfer false
             (firstn 6 (populate_buffer SDCMD_READ_SINGLE_BLOCK
                          (sector_offset (flags (sd_spi w)) sector)
                          (repeat 0 8)))
           :: EvCS 0 :: EvPrepare :: trace w.
Proof.
  intros Hi. unfold initialized in Hi. unfold sdcard_read_sector.
  rewrite bind_run. unfold get_flags.
  destruct (Z.eqb_spec (Z.land (flags (sd_spi w)) SDF_INITIALIZED) 0) as [E|_];
    [contradiction |].
  cbv zeta. unfold read_data_block. cbv zeta.
  rewrite bind_run. unfold spi_prepare at 1, log at 1.
  rewrite bind_run. unfold gpio_out_write at 1, log at 1.
  match goal with
  | |- context [bind ?m ?k ?x] =>
      destruct (run_then m k x) as [l Hl]; [intros; respects_ev |];
      exists l; rewrite Hl
  end.
  rewrite spi_transfer_trace. reflexivity.
Qed.

Lemma sector_offset_range f sector :
  0 <= sector < 4294967296 -> 0 <= sector_offset f sector < 4294967296.
Proof.
  intros H. unfold sector_offset, u32.
  destruct (Z.land f SDF_HIGH_CAPACITY =? 0); [| exact H].
  apply Z.mod_pos_bound. lia.
Qed.

(** C2, as amended: once Initialized is set, the command frame that
    [sdcard_write_sector] and [sdcard_read_sector] send for a 32-bit
    sector index carries the same address: the index times 512 reduced
    modulo 2^32 when HighCapacity is unset, which is the index times 512
    for every index below 2^23, and the index itself when HighCapacity is
    set. *)
Theorem sector_address (buf : list Z) (sector : Z) (w : world) :
  initialized w ->
  0 <= sector < 4294967296 ->
  let address :=
    if Z.land (flags (sd_spi w)) SDF_HIGH_CAPACITY =? 0
    then (sector * 512) mod 4294967296
    else sector in
  addressed w (snd (sdcard_write_sector buf sector w))
  = Some (SDCMD_WRITE_BLOCK, address)
  /\ addressed w (snd (sdcard_read_sector buf sector w))
     = Some (SDCMD_READ_SINGLE_BLOCK, address)
  /\ (Z.land (flags (sd_spi w)) SDF_HIGH_CAPACITY = 0 ->
      sector < 8388608 -> address = sector * 512).
Proof.
  intros Hi Hs. cbv zeta.
  pose proof (sector_offset_range (flags (sd_spi w)) sector Hs) as Hr.
  split; [| split].
  - destruct (write_sector_starts buf sector w Hi) as [l Hl].
    rewrite (addressed_of_trace _ _ _ _ _ Hl).
    rewrite frame_arg_populate by exact Hr.
    rewrite frame_cmd_populate by (unfold SDCMD_WRITE_BLOCK; lia).
    reflexivity.
  - destruct (read_sector_starts buf sector w Hi) as [l Hl].
    rewrite (addressed_of_trace _ _ _ _ _ Hl).
    rewrite frame_arg_populate by exact Hr.
    rewrite frame_cmd_populate by (unfold SDCMD_READ_SINGLE_BLOCK; lia).
    reflexivity.
  - intros Hsc Hlt. rewrite Hsc. simpl. apply Z.mod_small. lia.
Qed.

(** ** Initialization and the write-protect check *)

Lemma hw_only_keeps {A : Type} (m : M A) :
  respects hw_only m -> respects keeps_initialized m.
Proof. apply respects_weaken. exact hw_only_keeps_initialized. Qed.

Lemma or_err_keeps e : respects keeps_initialized (or_err e).
Proof. intros w. reflexivity. Qed.

Lemma set_config_keeps r : respects keeps_initialized (set_config r).
Proof. intros w. reflexivity. Qed.

Lemma or_flags_keeps f :
  Z.land f SDF_INITIALIZED = 0 -> respects keeps_initialized (or_flags f).
Proof. intros H w. unfold keeps_initialized. simpl. apply land_lor_other, H. Qed.

Lemma or_high_capacity_keeps : respects keeps_initialized (or_flags SDF_HIGH_CAPACITY).
Proof. apply or_flags_keeps. reflexivity. Qed.

Lemma or_write_protected_keeps :
  respects keeps_initialized (or_flags SDF_WRITE_PROTECTED).
Proof. apply or_flags_keeps. reflexivity. Qed.

Hint Resolve or_err_keeps set_config_keeps or_high_capacity_keeps
  or_write_protected_keeps : ki_db.

Ltac respects_ki :=
  repeat (first [ solve [eauto with ki_db]
                | solve [apply hw_only_keeps; eauto with hw_db]
                | respects_step keeps_initialized_refl keeps_initialized_trans ]).

Lemma read_verdict_keeps r recd crc :
  respects keeps_initialized (read_verdict r recd crc).
Proof. unfold read_verdict. respects_ki. Qed.

Hint Resolve read_verdict_keeps : ki_db.

Lemma read_data_block_keeps cmd arg buf length :
  respects keeps_initialized (read_data_block cmd arg buf length).
Proof. unfold read_data_block. respects_ki. Qed.

Hint Resolve read_data_block_keeps : ki_db.

Lemma sdcard_check_write_protect_keeps :
  respects keeps_initialized sdcard_check_write_protect.
Proof. unfold sdcard_check_write_protect. respects_ki. Qed.

Lemma spi_setup_keeps r : respects keeps_initialized (spi_setup r).
Proof. unfold spi_setup. respects_ki. Qed.

Hint Resolve sdcard_check_write_protect_keeps spi_setup_keeps : ki_db.

Lemma sdcard_init_negotiate_keeps : respects keeps_initialized sdcard_init_negotiate.
Proof. unfold sdcard_init_negotiate. respects_ki. Qed.

Lemma same_flags_refl w : same_flags w w.
Proof. reflexivity. Qed.

Lemma same_flags_trans w1 w2 w3 :
  same_flags w1 w2 -> same_flags w2 w3 -> same_flags w1 w3.
Proof. unfold same_flags. congruence. Qed.

Lemma hw_only_same_flags {A : Type} (m : M A) :
  respects hw_only m -> respects same_flags m.
Proof.
  apply respects_weaken. intros w w' [E _]. unfold same_flags.
  rewrite E. reflexivity.
Qed.

Lemma or_err_same_flags e : respects same_flags (or_err e).
Proof. intros w. reflexivity. Qed.

Ltac respects_sf :=
  repeat (first [ solve [apply or_err_same_flags]
                | solve [apply hw_only_same_flags; eauto with hw_db]
                | respects_step same_flags_refl same_flags_trans ]).

Lemma read_data_block_same_flags cmd arg buf length :
  respects same_flags (read_data_block cmd arg buf length).
Proof. unfold read_data_block, read_verdict. respects_sf. Qed.

Lemma sdcard_check_write_protect_same_flags :
  respects same_flags sdcard_check_write_protect.
Proof.
  unfold sdcard_check_write_protect.
  apply (respects_bind _ same_flags_trans);
    [apply read_data_block_same_flags | intros [r b]].
  respects_sf.
Qed.

(** [sdcard_init] once the bring-up has reached the write-protect check. *)
Lemma sdcard_init_after_negotiate w w1 :
  sdcard_init_negotiate w = (true, w1) ->
  sdcard_init w
  = let (wp, w2) := sdcard_check_write_protect w1 in
    if wp =? 0 then (0, snd (or_flags SDF_WRITE_PROTECTED w2))
    else (1, snd (spi_set_rate SPI_XFER_RATE
                    (snd (or_flags SDF_INITIALIZED w2)))).
Proof.
  intros H. unfold sdcard_init. rewrite bind_run, H. cbv beta iota.
  change (negb true) with false. cbv iota.
  rewrite bind_run. destruct (sdcard_check_write_protect w1) as [wp w2].
  destruct (wp =? 0); reflexivity.
Qed.

Lemma sdcard_init_before_check w w1 :
  sdcard_init_negotiate w = (false, w1) -> sdcard_init w = (0, w1).
Proof.
  intros H. unfold sdcard_init. rewrite bind_run, H. reflexivity.
Qed.

(** The write-protect check answers 0 both for a failed register read and
    for protect bits that are set. *)
Lemma sdcard_check_write_protect_spec w :
  let '((r, csd_buf), w2) :=
    read_data_block SDCMD_SEND_CSD 0 (repeat 0 16) 16 w in
  sdcard_check_write_protect w
  = (if r =? 0 then 0
     else if negb (Z.land (rd csd_buf 14) 0x30 =? 0) then 0 else 1, w2).
Proof.
  unfold sdcard_check_write_protect. rewrite bind_run.
  destruct (read_data_block SDCMD_SEND_CSD 0 (repeat 0 16) 16 w)
    as [[r csd_buf] w2].
  destruct (r =? 0); [reflexivity |].
  destruct (negb (Z.land (rd csd_buf 14) 48 =? 0)); reflexivity.
Qed.

Lemma sdcard_check_write_protect_bool w :
  fst (sdcard_check_write_protect w) = 0 \/ fst (sdcard_check_write_protect w) = 1.
Proof.
  pose proof (sdcard_check_write_protect_spec w) as H.
  destruct (read_data_block SDCMD_SEND_CSD 0 (repeat 0 16) 16 w)
    as [[r csd_buf] w2].
  rewrite H. simpl.
  destruct (r =? 0); [left; reflexivity |].
  destruct (negb (Z.land (rd csd_buf 14) 48 =? 0)); auto.
Qed.

(** What a bring-up that reached the write-protect check and failed it
    leaves behind. *)
Lemma sdcard_init_check_failed w w1 :
  sdcard_init_negotiate w = (true, w1) ->
  fst (sdcard_check_write_protect w1) = 0 ->
  fst (sdcard_init w) = 0
  /\ flags (sd_spi (snd (sdcard_init w)))
     = Z.lor (flags (sd_spi w1)) SDF_WRITE_PROTECTED
  /\ Z.land (flags (sd_spi (snd (sdcard_init w)))) SDF_WRITE_PROTECTED
     = SDF_WRITE_PROTECTED
  /\ keeps_initialized w (snd (sdcard_init w)).
Proof.
  intros Hn Hc. rewrite (sdcard_init_after_negotiate w w1 Hn).
  pose proof (sdcard_check_write_protect_same_flags w1) as Hf.
  pose proof (sdcard_check_write_protect_keeps w1) as Hk.
  pose proof (sdcard_init_negotiate_keeps w) as Hk0.
  rewrite Hn in Hk0. simpl in Hk0.
  destruct (sdcard_check_write_protect w1) as [wp w2].
  simpl in Hc, Hf, Hk. subst wp. simpl.
  unfold same_flags in Hf. rewrite Hf.
  repeat split.
  - apply land_lor_same.
  - unfold keeps_initialized in *. simpl.
    rewrite land_lor_other by reflexivity. exact Hk0.
Qed.


(** C9: when the bring-up succeeds up to and including the block-length
    command and the 16-byte register read of the write-protect check then
    fails, [sdcard_init] returns 0 and sets WriteProtected; the flags it
    leaves are those a card whose protect bits are set leaves, so the flag
    does not tell the two apart. *)
Theorem init_csd_read_failure (w w1 : world) :
  sdcard_init_negotiate w = (true, w1) ->
  fst (fst (read_data_block SDCMD_SEND_CSD 0 (repeat 0 16) 16 w1)) = 0 ->
  fst (sdcard_init w) = 0
  /\ flags (sd_spi (snd (sdcard_init w)))
     = Z.lor (flags (sd_spi w1)) SDF_WRITE_PROTECTED
  /\ Z.land (flags (sd_spi (snd (sdcard_init w)))) SDF_WRITE_PROTECTED
     = SDF_WRITE_PROTECTED
  /\ (forall (v v1 : world),
        sdcard_init_negotiate v = (true, v1) ->
        fst (fst (read_data_block SDCMD_SEND_CSD 0 (repeat 0 16) 16 v1)) = 1 ->
        Z.land (rd (snd (fst (read_data_block SDCMD_SEND_CSD 0
                                (repeat 0 16) 16 v1))) 14) 0x30 <> 0 ->
        flags (sd_spi v1) = flags (sd_spi w1) ->
        fst (sdcard_init v) = fst (sdcard_init w)
        /\ flags (sd_spi (snd (sdcard_init v)))
           = flags (sd_spi (snd (sdcard_init w)))).
Proof.
  intros Hn Hr.
  assert (Hc : fst (sdcard_check_write_protect w1) = 0).
  { pose proof (sdcard_check_write_protect_spec w1) as H.
    destruct (read_data_block SDCMD_SEND_CSD 0 (repeat 0 16) 16 w1)
      as [[r csd_buf] w2].
    simpl in Hr. subst r. rewrite H. reflexivity. }
  destruct (sdcard_init_check_failed w w1 Hn Hc) as (R & F & P & _).
  repeat split; try assumption.
  - assert (Hc' : fst (sdcard_check_write_protect v1) = 0).
    { pose proof (sdcard_check_write_protect_spec v1) as H'.
      destruct (read_data_block SDCMD_SEND_CSD 0 (repeat 0 16) 16 v1)
        as [[r csd_buf] v2].
      simpl in *. subst r. rewrite H'. simpl.
      destruct (Z.eqb_spec (Z.land (rd csd_buf 14) 48) 0); [contradiction |].
      reflexivity. }
    destruct (sdcard_init_check_failed v v1 H Hc') as (R' & _). congruence.
  - assert (Hc' : fst (sdcard_check_write_protect v1) = 0).
    { pose proof (sdcard_check_write_protect_spec v1) as H'.
      destruct (read_data_block SDCMD_SEND_CSD 0 (repeat 0 16) 16 v1)
        as [[r csd_buf] v2].
      simpl in *. subst r. rewrite H'. simpl.
      destruct (Z.eqb_spec (Z.land (rd csd_buf 14) 48) 0); [contradiction |].
      reflexivity. }
    destruct (sdcard_init_check_failed v v1 H Hc') as (_ & F' & _).
    congruence.
Qed.

(** ** Deinitialization *)

Lemma deinit_keeps_bit w b :
  Z.land SDF_DEINIT b = 0 ->
  Z.land (flags (sd_spi (snd (sdcard_deinit w)))) b
  = Z.land (flags (sd_spi w)) b.
Proof.
  intros H. destruct (sdcard_deinit_hw_flags w) as (F & _).
  rewrite F. apply land_lor_other, H.
Qed.

Lemma sdcard_init_success_initialized w w1 :
  sdcard_init w = (1, w1) -> initialized w1.
Proof.
  intros H.
  destruct (sdcard_init_negotiate w) as [ok w0] eqn:Hn. destruct ok.
  - rewrite (sdcard_init_after_negotiate w w0 Hn) in H.
    destruct (sdcard_check_write_protect w0) as [wp w2].
    destruct (wp =? 0); [discriminate |].
    injection H as <-.
    unfold initialized, spi_set_rate, set_config, or_flags, log, bind.
    cbn [snd fst sd_spi flags]. rewrite land_lor_same. discriminate.
  - rewrite (sdcard_init_before_check w w0 Hn) in H. discriminate.
Qed.

(** C10: [sdcard_deinit] changes nothing of the device structure but the
    Deinitialized flag: the flags become the old flags with Deinitialized
    OR-ed in, so Initialized, HighCapacity and WriteProtected stay as they
    were, and the error set and the bus configuration are untouched.
    Hence after a successful [sdcard_init] followed by [sdcard_deinit] the
    sector functions pass the not-ready guard: they return 0 or 1, never
    255, and they assert chip-select and send their command frame. *)
Theorem deinit_frame :
  (forall w : world,
     let w' := snd (sdcard_deinit w) in
     flags (sd_spi w') = Z.lor (flags (sd_spi w)) SDF_DEINIT
     /\ err (sd_spi w') = err (sd_spi w)
     /\ config (sd_spi w') = config (sd_spi w)
     /\ Z.land (flags (sd_spi w')) SDF_INITIALIZED
        = Z.land (flags (sd_spi w)) SDF_INITIALIZED
     /\ Z.land (flags (sd_spi w')) SDF_HIGH_CAPACITY
        = Z.land (flags (sd_spi w)) SDF_HIGH_CAPACITY
     /\ Z.land (flags (sd_spi w')) SDF_WRITE_PROTECTED
        = Z.land (flags (sd_spi w)) SDF_WRITE_PROTECTED)
  /\ (forall (w w1 : world) (buf : list Z) (sector : Z),
        sdcard_init w = (1, w1) ->
        let w2 := snd (sdcard_deinit w1) in
        fst (fst (sdcard_read_sector buf sector w2)) <> 255
        /\ fst (sdcard_write_sector buf sector w2) <> 255
        /\ (exists l,
              trace (snd (sdcard_read_sector buf sector w2))
              = l ++ EvXfer false
                       (firstn 6 (populate_buffer SDCMD_READ_SINGLE_BLOCK
                                    (sector_offset (flags (sd_spi w2)) sector)
                                    (repeat 0 8)))
                     :: EvCS 0 :: EvPrepare :: trace w2)
        /\ (exists l,
              trace (snd (sdcard_write_sector buf sector w2))
              = l ++ EvXfer false
                       (firstn 6 (populate_buffer SDCMD_WRITE_BLOCK
                                    (sector_offset (flags (sd_spi w2)) sector)
                                    (repeat 0 8)))
                     :: EvCS 0 :: EvPrepare :: trace w2)).
Proof.
  split.
  - intros w. cbv zeta.
    destruct (sdcard_deinit_hw_flags w) as (F & E & C & _).
    repeat split; try assumption; apply deinit_keeps_bit; reflexivity.
  - intros w w1 buf sector Hinit. cbv zeta.
    assert (Hi : initialized (snd (sdcard_deinit w1))).
    { unfold initialized. rewrite deinit_keeps_bit by reflexivity.
      apply (sdcard_init_success_initialized w w1 Hinit). }
    split; [| split; [| split]].
    + destruct (read_sector_bool buf sector _ Hi) as [E|E]; rewrite E;
        discriminate.
    + destruct (write_sector_bool buf sector _ Hi) as [E|E]; rewrite E;
        discriminate.
    + apply read_sector_starts, Hi.
    + apply write_sector_starts, Hi.
Qed.

(** ** The deadline ends the token scan

    [find_token_loop] is given one turn more than the ticks of the
    timeout.  Each turn takes [byte_ticks] ticks, so with a transfer time
    between one tick and 2^31 ticks the deadline is met before the turns
    run out, wrap of the 32-bit counter included: more turns change
    nothing. *)

Lemma u32_sub_elapsed now0 e T :
  u32 (u32 (now0 + e) - u32 (u32 now0 + T)) = u32 (e - T).
Proof.
  unfold u32. rewrite Zplus_mod_idemp_l, <- Zminus_mod.
  f_equal. lia.
Qed.

Lemma timer_is_before_elapsed now0 e T :
  0 <= e - T < 2147483648 ->
  timer_is_before (u32 (now0 + e)) (u32 (u32 now0 + T)) = false.
Proof.
  intros H. unfold timer_is_before, s32.
  replace (u32 (u32 (now0 + e) - u32 (u32 now0 + T))) with (e - T).
  - destruct (Z.ltb_spec (e - T) 2147483648); [| lia].
    apply Z.ltb_ge. lia.
  - rewrite u32_sub_elapsed. unfold u32. symmetry. apply Z.mod_small. lia.
Qed.

Lemma spi_transfer_one_now r b w :
  now (snd (spi_transfer r 1 [b] w)) = now w + byte_ticks.
Proof.
  unfold spi_transfer. simpl firstn.
  destruct (exchange (card w) [b]) as [miso c]. simpl. lia.
Qed.

Lemma find_token_loop_fuel token now0 T :
  0 < byte_ticks <= 2147483648 ->
  forall (f1 f2 : nat) (w : world),
    0 <= now w - now0 ->
    now w - now0 - T < 2147483648 ->
    (Z.to_nat (T - (now w - now0)) < f1)%nat ->
    (Z.to_nat (T - (now w - now0)) < f2)%nat ->
    find_token_loop f1 token (u32 (u32 now0 + T)) w
    = find_token_loop f2 token (u32 (u32 now0 + T)) w.
Proof.
  intros Hd f1. induction f1 as [|f1 IH]; intros f2 w He Hw H1 H2; [lia |].
  destruct f2 as [|f2]; [lia |].
  simpl. rewrite !bind_run. unfold timer_read_time.
  destruct (timer_is_before (u32 (now w)) (u32 (u32 now0 + T))) eqn:Hb;
    [| reflexivity].
  assert (Hlt : now w - now0 < T).
  { destruct (Z.lt_ge_cases (now w - now0) T) as [L|G]; [exact L |].
    pose proof (timer_is_before_elapsed now0 (now w - now0) T
                  ltac:(lia)) as Hf.
    replace (now0 + (now w - now0)) with (now w) in Hf by lia.
    congruence. }
  rewrite !bind_run.
  pose proof (spi_transfer_one_now true 255 w) as Hn.
  destruct (spi_transfer true 1 [255] w) as [b w1]. simpl in Hn.
  destruct (rd b 0 =? token); [reflexivity |].
  apply IH; rewrite Hn; lia.
Qed.

Lemma find_token_fuel_adequate token timeout_us w (extra : nat) :
  0 < byte_ticks <= 2147483648 ->
  find_token token timeout_us w
  = find_token_loop (S (Z.to_nat (timer_from_us timeout_us)) + extra) token
      (u32 (u32 (now w) + timer_from_us timeout_us)) w.
Proof.
  intros Hd. unfold find_token. rewrite bind_run. unfold timer_read_time.
  assert (HT : 0 <= timer_from_us timeout_us < 4294967296)
    by (unfold timer_from_us, u32; apply Z.mod_pos_bound; lia).
  apply find_token_loop_fuel; try exact Hd;
    rewrite ?Z.sub_diag, ?Z.sub_0_r; lia.
Qed.

(** * Further properties of the code *)

(** ** The checksums *)

Lemma crc16_shift_range c : 0 <= crc16_shift c < 65536.
Proof.
  unfold crc16_shift, u16.
  destruct (Z.land c 32768 =? 0); apply Z.mod_pos_bound; lia.
Qed.

Lemma crc16_byte_range c b : 0 <= crc16_byte c b < 65536.
Proof. unfold crc16_byte. simpl Nat.iter. apply crc16_shift_range. Qed.

Lemma fold_crc16_range l acc :
  0 <= acc < 65536 -> 0 <= fold_left crc16_byte l acc < 65536.
Proof.
  revert acc. induction l as [|b l IH]; intros acc H; simpl; [exact H |].
  apply IH, crc16_byte_range.
Qed.

Lemma calc_crc16_range data n : 0 <= calc_crc16 data n < 65536.
Proof. unfold calc_crc16. apply fold_crc16_range. lia. Qed.

Lemma crc7_shift_range c : 0 <= crc7_shift c < 256.
Proof.
  unfold crc7_shift, u8.
  destruct (Z.land c 128 =? 0); apply Z.mod_pos_bound; lia.
Qed.

Lemma fold_crc7_range l acc :
  0 <= acc < 256 -> 0 <= fold_left crc7_byte l acc < 256.
Proof.
  revert acc. induction l as [|b l IH]; intros acc H; simpl; [exact H |].
  apply IH. unfold crc7_byte. simpl Nat.iter. apply crc7_shift_range.
Qed.

Lemma lor_1_byte a : 0 <= a < 256 -> 0 <= Z.lor a 1 < 256.
Proof.
  intros H. split; [apply Z.lor_nonneg; lia |].
  destruct (Z.eq_dec a 0) as [-> | Ha]; [reflexivity |].
  change 256 with (2 ^ 8). apply Z.log2_lt_pow2.
  - assert (0 <= Z.lor a 1) by (apply Z.lor_nonneg; lia).
    assert (Z.lor a 1 <> 0) by (rewrite Z.lor_eq_0_iff; lia). lia.
  - rewrite Z.log2_lor by lia.
    apply Z.max_lub_lt; [apply Z.log2_lt_pow2; lia | reflexivity].
Qed.

(** X1: whatever the input, [calc_crc7] returns a byte whose lowest bit is
    set and [calc_crc16] returns a 16-bit value: the first fits the sixth
    byte of a command frame, the second the two bytes of a trailer. *)
Theorem crc_ranges (data : list Z) (n : nat) :
  0 <= calc_crc7 data n < 256
  /\ Z.odd (calc_crc7 data n) = true
  /\ 0 <= calc_crc16 data n < 65536.
Proof.
  split; [| split].
  - unfold calc_crc7. apply lor_1_byte, fold_crc7_range. lia.
  - unfold calc_crc7. rewrite <- Z.bit0_odd, Z.lor_spec.
    apply orb_true_r.
  - apply calc_crc16_range.
Qed.

Lemma land_top_bit_small y : 0 <= y < 32768 -> Z.land y 32768 = 0.
Proof.
  intros H. apply Z.bits_inj'. intros n Hn.
  rewrite Z.land_spec, Z.bits_0. change 32768 with (2 ^ 15).
  rewrite Z.pow2_bits_eqb by lia.
  destruct (Z.eqb_spec 15 n) as [<- | Hne]; [| apply andb_false_r].
  rewrite andb_true_r.
  rewrite <- (Z.mod_small y (2 ^ 15)) by (simpl; lia).
  apply Z.mod_pow2_bits_high. lia.
Qed.

Lemma crc16_shift_small y : 0 <= y < 32768 -> crc16_shift y = 2 * y.
Proof.
  intros H. unfold crc16_shift. rewrite land_top_bit_small by exact H.
  rewrite Z.eqb_refl. unfold u16. rewrite Z.shiftl_mul_pow2 by lia.
  rewrite Z.mod_small; lia.
Qed.

Lemma crc16_shift8_byte x :
  0 <= x < 256 -> Nat.iter 8 crc16_shift x = 256 * x.
Proof.
  intros H. simpl Nat.iter.
  rewrite (crc16_shift_small x) by lia.
  rewrite (crc16_shift_small (2 * x)) by lia.
  rewrite (crc16_shift_small (2 * (2 * x))) by lia.
  rewrite (crc16_shift_small (2 * (2 * (2 * x)))) by lia.
  rewrite (crc16_shift_small (2 * (2 * (2 * (2 * x))))) by lia.
  rewrite (crc16_shift_small (2 * (2 * (2 * (2 * (2 * x)))))) by lia.
  rewrite (crc16_shift_small (2 * (2 * (2 * (2 * (2 * (2 * x))))))) by lia.
  rewrite (crc16_shift_small (2 * (2 * (2 * (2 * (2 * (2 * (2 * x)))))))) by lia.
  lia.
Qed.

Lemma lxor_high_byte c :
  0 <= c < 65536 ->
  Z.lxor c (Z.shiftl (Z.land (Z.shiftr c 8) 0xFF) 8) = c mod 256.
Proof.
  intros H. apply Z.bits_inj'. intros n Hn.
  rewrite Z.lxor_spec, testbit_byte_at by lia.
  change 256 with (2 ^ 8). rewrite Z.testbit_mod_pow2 by lia.
  destruct (Z.ltb_spec n 16) as [L|L].
  - destruct (Z.leb_spec 8 n), (Z.ltb_spec n (8 + 8)), (Z.ltb_spec n 8);
      try lia; destruct (Z.testbit c n); reflexivity.
  - replace (Z.testbit c n) with false.
    + destruct (Z.ltb_spec n 8); [lia | reflexivity].
    + symmetry. rewrite <- (Z.mod_small c (2 ^ 16)) by (simpl; lia).
      apply Z.mod_pow2_bits_high. lia.
Qed.

Lemma crc16_over_own_trailer c :
  0 <= c < 65536 ->
  crc16_byte (crc16_byte c (Z.land (Z.shiftr c 8) 0xFF)) (Z.land c 0xFF) = 0.
Proof.
  intros H.
  assert (Hlo : Z.land c 255 = c mod 256)
    by (change 255 with (Z.ones 8); apply Z.land_ones; lia).
  assert (Hr : 0 <= c mod 256 < 256) by (apply Z.mod_pos_bound; lia).
  unfold crc16_byte at 2. rewrite lxor_high_byte by exact H.
  unfold u16 at 1. rewrite (Z.mod_small (c mod 256)) by lia.
  rewrite crc16_shift8_byte by exact Hr.
  unfold crc16_byte. rewrite Hlo, Z.shiftl_mul_pow2 by lia.
  change (2 ^ 8) with 256. rewrite (Z.mul_comm (c mod 256) 256).
  rewrite Z.lxor_nilpotent. reflexivity.
Qed.

(** X2: the CRC16 of a payload followed by its own two-byte big-endian
    CRC16 is 0: a card that runs the same checksum over what
    [sdcard_write_sector] sends (payload, then trailer) ends on 0. *)
Theorem crc16_residue (d : list Z) :
  calc_crc16 (d ++ crc_bytes d) (length d + 2) = 0.
Proof.
  unfold crc_bytes. cbv zeta.
  set (c := calc_crc16 d (length d)).
  assert (Hc : fold_left crc16_byte d 0 = c)
    by (subst c; unfold calc_crc16; rewrite firstn_all; reflexivity).
  unfold calc_crc16.
  replace (length d + 2)%nat
    with (length (d ++ [Z.land (Z.shiftr c 8) 255; Z.land c 255]))
    by (rewrite length_app; reflexivity).
  rewrite firstn_all, fold_left_app. simpl fold_left. rewrite Hc.
  apply crc16_over_own_trailer. subst c. apply calc_crc16_range.
Qed.

Lemma be16_roundtrip c :
  0 <= c < 65536 ->
  u16 (Z.lor (Z.shiftl (Z.land (Z.shiftr c 8) 0xFF) 8) (Z.land c 0xFF)) = c.
Proof.
  intros H. unfold u16.
  assert (E : Z.lor (Z.shiftl (Z.land (Z.shiftr c 8) 255) 8) (Z.land c 255) = c).
  { apply Z.bits_inj'. intros n Hn.
    rewrite Z.lor_spec, testbit_byte_at by lia.
    rewrite Z.land_spec. change 255 with (Z.ones 8).
    rewrite Z.testbit_ones_nonneg by lia.
    destruct (Z.ltb_spec n 16) as [L|L].
    - destruct (Z.leb_spec 8 n), (Z.ltb_spec n (8 + 8)), (Z.ltb_spec n 8);
        try lia; destruct (Z.testbit c n); reflexivity.
    - replace (Z.testbit c n) with false; [reflexivity |].
      symmetry. rewrite <- (Z.mod_small c (2 ^ 16)) by (simpl; lia).
      apply Z.mod_pow2_bits_high. lia. }
  rewrite E. apply Z.mod_small. lia.
Qed.

(** X3: the trailer [sdcard_write_sector] puts in [cmd_buf] for a payload
    (high byte of the CRC16, then low byte) is read back by
    [read_data_block]'s [recd_crc] as that same CRC16, so the read path's
    comparison accepts it and, with a zero response code, the verdict is
    success with the error set untouched. *)
Theorem crc16_trailer_roundtrip (d cmd_buf : list Z) (n : nat) (w : world) :
  (2 <= length cmd_buf)%nat ->
  let crc := calc_crc16 d n in
  let sent := wr (wr cmd_buf 0 (Z.land (Z.shiftr crc 8) 0xFF))
                1 (Z.land crc 0xFF) in
  recd_crc sent = crc
  /\ read_verdict 0 (recd_crc sent) crc w = (1, w).
Proof.
  intros Hl. cbv zeta.
  assert (E : recd_crc (wr (wr cmd_buf 0
                              (Z.land (Z.shiftr (calc_crc16 d n) 8) 255))
                          1 (Z.land (calc_crc16 d n) 255))
              = calc_crc16 d n).
  { destruct cmd_buf as [|b0 [|b1 t]]; simpl in Hl; try lia.
    unfold recd_crc, rd. cbn [wr nth].
    apply be16_roundtrip, calc_crc16_range. }
  split; [exact E |].
  rewrite E. unfold read_verdict, bind, ret. rewrite Z.eqb_refl. reflexivity.
Qed.

(** ** The command frame *)

Lemma populate_buffer_shape command arg b0 b1 b2 b3 b4 b5 t :
  populate_buffer command arg (b0 :: b1 :: b2 :: b3 :: b4 :: b5 :: t)
  = firstn 6 (populate_buffer command arg (repeat 0 8)) ++ t.
Proof.
  unfold populate_buffer. cbn [wr repeat firstn app].
  unfold calc_crc7. cbn [firstn]. reflexivity.
Qed.

Lemma start_bits command :
  0 <= command < 64 -> Z.land (u8 (Z.lor command 0x40)) 0xC0 = 0x40.
Proof.
  intros H. unfold u8. apply Z.bits_inj'. intros n Hn.
  rewrite Z.land_spec. change 256 with (2 ^ 8).
  rewrite Z.testbit_mod_pow2, Z.lor_spec by lia.
  change 192 with (Z.lor (2 ^ 6) (2 ^ 7)). change 64 with (2 ^ 6).
  rewrite Z.lor_spec, !Z.pow2_bits_eqb by lia.
  destruct (Z.eqb_spec 6 n) as [<- | N6].
  - rewrite orb_true_r. reflexivity.
  - destruct (Z.eqb_spec 7 n) as [<- | N7].
    + replace (Z.testbit command 7) with false; [reflexivity |].
      symmetry. rewrite <- (Z.mod_small command (2 ^ 6)) by (simpl; lia).
      apply Z.mod_pow2_bits_high. lia.
    + cbn [orb]. apply andb_false_r.
Qed.

Lemma land_255_range x : 0 <= Z.land x 0xFF < 256.
Proof.
  change 255 with (Z.ones 8). rewrite Z.land_ones by lia.
  apply Z.mod_pos_bound. reflexivity.
Qed.

Lemma calc_crc7_range data n : 0 <= calc_crc7 data n < 256.
Proof. unfold calc_crc7. apply lor_1_byte, fold_crc7_range. lia. Qed.

(** X4: on a buffer of at least six bytes [populate_buffer] writes a
    well-formed command frame and nothing else: the length is kept and the
    bytes from the seventh on are untouched; for a command code below 64
    and a 32-bit argument the first byte carries the start bits 01 above
    the code, the next four the argument, most significant byte first,
    so that the code and the argument are read back from the frame; the
    sixth byte is the CRC7 of the first five, with the stop bit set; all
    six are bytes. *)
Theorem command_frame_layout (command arg : Z) (buf : list Z) :
  (6 <= length buf)%nat ->
  0 <= command < 64 ->
  0 <= arg < 4294967296 ->
  let frame := populate_buffer command arg buf in
  length frame = length buf
  /\ skipn 6 frame = skipn 6 buf
  /\ Z.land (rd frame 0) 0xC0 = 0x40
  /\ frame_cmd frame = command
  /\ frame_arg frame = arg
  /\ rd frame 5 = calc_crc7 frame 5
  /\ Z.odd (rd frame 5) = true
  /\ Forall (fun b => 0 <= b < 256) (firstn 6 frame).
Proof.
  intros Hl Hc Ha. cbv zeta.
  destruct buf as [|b0 [|b1 [|b2 [|b3 [|b4 [|b5 t]]]]]]; simpl in Hl; try lia.
  rewrite populate_buffer_shape.
  pose proof (frame_arg_populate command arg Ha) as HA.
  pose proof (frame_cmd_populate command arg Hc) as HC.
  rewrite populate_buffer_bytes in *. cbn [firstn app] in *.
  split; [reflexivity |]. split; [reflexivity |].
  split; [apply start_bits, Hc |].
  split; [exact HC |]. split; [exact HA |].
  split; [unfold rd, calc_crc7; cbn [nth firstn]; reflexivity |].
  split.
  - unfold rd. cbn [nth]. unfold calc_crc7.
    rewrite <- Z.bit0_odd, Z.lor_spec. apply orb_true_r.
  - repeat constructor; try apply land_255_range;
      try apply calc_crc7_range;
      unfold u8; apply Z.mod_pos_bound; reflexivity.
Qed.

(** ** The command exchange *)

Lemma exchange_length c l : length (fst (exchange c l)) = length l.
Proof.
  revert c. induction l as [|b l IH]; intros c; simpl; [reflexivity |].
  destruct (card_xfer c b) as [r c1]. specialize (IH c1).
  destruct (exchange c1 l) as [rs c2]. simpl in *. congruence.
Qed.

Lemma spi_transfer_receive len data w :
  exists miso,
    fst (spi_transfer true len data w) = miso ++ skipn len data
    /\ length miso = Nat.min len (length data).
Proof.
  unfold spi_transfer.
  pose proof (exchange_length (card w) (firstn len data)) as H.
  destruct (exchange (card w) (firstn len data)) as [miso c].
  exists miso. simpl in *. rewrite H, length_firstn. auto.
Qed.

Lemma first_response_some l k i r :
  first_response l k = Some (i, r) ->
  (k <= i < k + length l)%nat /\ nth (i - k) l 0 = r /\ r <> 0xFF.
Proof.
  revert k. induction l as [|b l IH]; intros k H; simpl in H; [discriminate |].
  destruct (Z.eqb_spec b 255) as [E|E].
  - destruct (IH (S k) H) as (R & N & D). simpl.
    split; [lia |]. split; [| exact D].
    replace (i - k)%nat with (S (i - S k)) by lia. exact N.
  - injection H as <- <-. rewrite Nat.sub_diag. simpl.
    split; [lia |]. split; [reflexivity | exact E].
Qed.

Lemma first_response_none l k :
  first_response l k = None -> Forall (fun b => b = 0xFF) l.
Proof.
  revert k. induction l as [|b l IH]; intros k H; simpl in H; [constructor |].
  destruct (Z.eqb_spec b 255) as [E|E]; [| discriminate].
  constructor; [exact E | eapply IH, H].
Qed.

Lemma nth_firstn_lt (l : list Z) (n i : nat) :
  (i < n)%nat -> nth i (firstn n l) 0 = nth i l 0.
Proof.
  intros H. rewrite nth_firstn.
  destruct (Nat.ltb_spec i n); [reflexivity | lia].
Qed.

Lemma spi_transfer_send len data w :
  fst (spi_transfer false len data w) = data.
Proof.
  unfold spi_transfer.
  destruct (exchange (card w) (firstn len data)) as [miso c]. reflexivity.
Qed.

Lemma memset_length b v n : length (memset b v n) = (n + (length b - n))%nat.
Proof. unfold memset. rewrite length_app, repeat_length, length_skipn. lia. Qed.

Lemma populate_buffer_length command arg buf :
  length (populate_buffer command arg buf) = length buf.
Proof.
  assert (W : forall l i v, length (wr l i v) = length l).
  { induction l as [|x l IH]; intros [|i] v; simpl; auto. }
  unfold populate_buffer. rewrite !W. reflexivity.
Qed.

Ltac xfer_step :=
  match goal with
  | |- context [spi_transfer false ?n ?d ?x] =>
      let H := fresh "Hsent" in
      pose proof (spi_transfer_send n d x) as H;
      destruct (spi_transfer false n d x) as [? ?];
      simpl fst in H; subst
  | |- context [spi_transfer true ?n ?d ?x] =>
      let miso := fresh "miso" in
      let E := fresh "Erecv" in
      let L := fresh "Lrecv" in
      destruct (spi_transfer_receive n d x) as (miso & E & L);
      destruct (spi_transfer true n d x) as [? ?];
      simpl fst in E; subst
  end.

(** The response scan of [send_command] on the eight bytes just read:
    what it leaves in the buffer and returns as the status byte. *)
Lemma send_command_realign (buf : list Z) (cmd_flags : Z) (w : world) :
  (8 <= length buf)%nat ->
  let res :=
    match first_response (firstn 8 buf) 0 with
    | None => ret (0xFF, buf)
    | Some (i, r) =>
        match i with
        | O => ret (r, buf)
        | S _ =>
            let recd := (8 - i)%nat in
            let buf := firstn recd (skipn i buf) ++ skipn recd buf in
            if Z.land cmd_flags CF_FULL_RESP =? 0 then ret (r, buf)
            else
              let rem := (8 - recd)%nat in
              let tail := memset (skipn recd buf) 0xFF rem in
              tail <- spi_transfer true rem tail ;;
              ret (r, firstn recd buf ++ tail)
        end
    end w in
  rd (snd (fst res)) 0 = fst (fst res)
  /\ (fst (fst res) = 0xFF ->
      Forall (fun b => b = 0xFF) (firstn 8 (snd (fst res))))
  /\ length (snd (fst res)) = length buf.
Proof.
  intros Hl. cbv zeta.
  destruct (first_response (firstn 8 buf) 0) as [[i r]|] eqn:Hf.
  - destruct (first_response_some _ _ _ _ Hf) as (Hi & Hn & Hr).
    rewrite length_firstn in Hi. rewrite Nat.sub_0_r in Hn.
    assert (Hn' : nth i buf 0 = r).
    { rewrite <- Hn. symmetry. apply nth_firstn_lt. lia. }
    destruct i as [|i].
    + cbn [fst snd ret]. split; [exact Hn' |].
      split; [contradiction | reflexivity].
    + assert (Hpre : nth 0 (firstn (8 - S i) (skipn (S i) buf)) 0 = r).
      { rewrite nth_firstn_lt by lia. rewrite nth_skipn.
        rewrite Nat.add_0_r. exact Hn'. }
      assert (Lpre : length (firstn (8 - S i) (skipn (S i) buf))
                     = (8 - S i)%nat).
      { rewrite length_firstn, length_skipn. lia. }
      destruct (Z.land cmd_flags CF_FULL_RESP =? 0).
      * cbn [fst snd ret]. unfold rd.
        split; [rewrite app_nth1 by lia; exact Hpre |].
        split; [contradiction |].
        rewrite length_app, Lpre, length_skipn. lia.
      * rewrite bind_run.
        match goal with
        | |- context [spi_transfer true ?n ?d ?x] =>
            destruct (spi_transfer_receive n d x) as (miso & E & L);
            destruct (spi_transfer true n d x) as [tl wx]
        end.
        cbn [fst] in E. subst tl. cbn [fst snd ret]. unfold rd.
        rewrite firstn_app, Lpre, Nat.sub_diag, firstn_O, app_nil_r.
        rewrite firstn_all2 by lia.
        split; [rewrite app_nth1 by lia; exact Hpre |].
        split; [contradiction |].
        repeat (progress (rewrite ?length_app, ?length_skipn, ?memset_length,
                            ?Lpre)).
        repeat (progress (rewrite ?length_app, ?length_skipn, ?memset_length,
                            ?Lpre in L)).
        lia.
  - apply first_response_none in Hf. cbn [fst snd ret].
    split; [| split; [intros _; exact Hf | reflexivity]].
    unfold rd. destruct buf as [|b t]; [simpl in Hl; lia |].
    simpl in Hf. inversion Hf. assumption.
Qed.

Lemma send_command_run_response (command arg : Z) (buf : list Z)
    (cmd_flags : Z) (w : world) :
  exists r buf' w',
    send_command command arg buf cmd_flags w = ((r, buf'), w')
    /\ rd buf' 0 = r
    /\ (r = 0xFF -> Forall (fun b => b = 0xFF) (firstn 8 buf'))
    /\ length buf' = (8 + (length buf - 8))%nat.
Proof.
  unfold send_command. cbv zeta.
  rewrite bind_run. unfold spi_prepare at 1, log at 1.
  rewrite bind_run. unfold gpio_out_write at 1, log at 1.
  rewrite bind_run.
  match goal with
  | |- context [let (_, _) := ?m ?x in _] =>
      assert (Lb : length (fst (m x)) = length (memset buf 0 8));
      [| destruct (m x) as [b1 w1] ]
  end.
  { destruct (Z.land cmd_flags CF_APP_CMD =? 0); [reflexivity |].
    rewrite spi_transfer_send.
    assert (W : forall l i v, length (wr l i v) = length l).
    { induction l as [|x l IH]; intros [|i] v; simpl; auto. }
    rewrite !W. reflexivity. }
  simpl fst in Lb. rewrite memset_length in Lb.
  rewrite bind_run.
  pose proof (spi_transfer_send 6 (populate_buffer command arg b1) w1) as Hs.
  destruct (spi_transfer false 6 (populate_buffer command arg b1) w1)
    as [b2 w2].
  simpl fst in Hs. subst b2.
  rewrite bind_run.
  match goal with
  | |- context [spi_transfer true ?n ?d ?x] =>
      destruct (spi_transfer_receive n d x) as (miso & E & L);
      destruct (spi_transfer true n d x) as [b3 w3]
  end.
  simpl fst in E. rewrite memset_length, populate_buffer_length in L.
  assert (L3 : length b3 = (8 + (length buf - 8))%nat).
  { subst b3. rewrite length_app, L, length_skipn, memset_length,
      populate_buffer_length. lia. }
  clear E.
  rewrite bind_run.
  pose proof (send_command_realign b3 cmd_flags w3 ltac:(lia)) as H.
  cbv zeta in H.
  match type of H with
  | context [fst (fst ?t)] => destruct t as [[r b4] w4]
  end.
  simpl fst in H. simpl snd in H. destruct H as (H1 & H2 & H3).
  rewrite bind_run. unfold gpio_out_write, log, ret. cbv beta iota.
  eexists. eexists. eexists. split; [reflexivity |].
  split; [exact H1 |]. split; [exact H2 |].
  rewrite H3, L3. reflexivity.
Qed.


(** ** Chip-select brackets every transaction *)

Lemma xfers_only_refl w : xfers_only w w.
Proof. split; [reflexivity | exists []; split; [constructor | reflexivity]]. Qed.

Lemma xfers_only_trans w1 w2 w3 :
  xfers_only w1 w2 -> xfers_only w2 w3 -> xfers_only w1 w3.
Proof.
  intros [E1 (l1 & F1 & T1)] [E2 (l2 & F2 & T2)]. split; [congruence |].
  exists (l2 ++ l1). split; [apply Forall_app; auto |].
  rewrite T2, T1. apply app_assoc.
Qed.

Lemma spi_transfer_xfers_only r len data :
  respects xfers_only (spi_transfer r len data).
Proof.
  intros w. unfold spi_transfer.
  destruct (exchange (card w) (firstn len data)) as [miso c]. simpl.
  split; [reflexivity |].
  exists [EvXfer r (firstn len data)].
  split; [repeat constructor | reflexivity].
Qed.

Lemma timer_read_time_xfers_only : respects xfers_only timer_read_time.
Proof. intros w. apply xfers_only_refl. Qed.

Hint Resolve spi_transfer_xfers_only timer_read_time_xfers_only : xf_db.

Ltac respects_xf :=
  repeat (first [ solve [eauto with xf_db]
                | respects_step xfers_only_refl xfers_only_trans ]).

Lemma find_token_loop_xfers_only fuel token endtime :
  respects xfers_only (find_token_loop fuel token endtime).
Proof. induction fuel as [|fuel IH]; simpl; respects_xf. Qed.

Hint Resolve find_token_loop_xfers_only : xf_db.

Lemma find_token_xfers_only token timeout_us :
  respects xfers_only (find_token token timeout_us).
Proof. unfold find_token. respects_xf. Qed.

Lemma poll_response_xfers_only tries cmd_buf r :
  respects xfers_only (poll_response tries cmd_buf r).
Proof.
  revert cmd_buf r. induction tries as [|n IH]; intros; simpl; respects_xf.
Qed.

Hint Resolve find_token_xfers_only poll_response_xfers_only : xf_db.

Lemma quiet_ret {A : Type} (a : A) : quiet (ret a).
Proof. intros w. reflexivity. Qed.

Lemma quiet_or_err e : quiet (or_err e).
Proof. intros w. reflexivity. Qed.

Lemma quiet_bind {A B : Type} (m : M A) (k : A -> M B) :
  quiet m -> (forall a, quiet (k a)) -> quiet (bind m k).
Proof.
  intros Hm Hk w. unfold bind. specialize (Hm w).
  destruct (m w) as [a w1]. simpl in Hm. rewrite Hk. exact Hm.
Qed.

Ltac quiet_tac :=
  repeat lazymatch goal with
         | |- quiet (bind _ _) => apply quiet_bind; [ | intros ]
         | |- quiet (ret _) => apply quiet_ret
         | |- quiet (or_err _) => apply quiet_or_err
         | |- quiet (if ?b then _ else _) => destruct b
         | |- quiet (let _ := _ in _) => cbv zeta
         end.

Lemma quiet_read_verdict r recd crc : quiet (read_verdict r recd crc).
Proof. unfold read_verdict. quiet_tac. Qed.

Lemma closes_bind {A B : Type} (m : M A) (k : A -> M B) :
  respects xfers_only m -> (forall a, closes (k a)) -> closes (bind m k).
Proof.
  intros Hm Hk w. unfold bind.
  destruct (Hm w) as [_ (l1 & F1 & T1)]. destruct (m w) as [a w1].
  simpl in T1. destruct (Hk a w1) as (l2 & F2 & T2).
  exists (l2 ++ l1). split; [apply Forall_app; auto |].
  rewrite T2, T1, app_assoc. reflexivity.
Qed.

Lemma closes_release {A : Type} (k : M A) :
  quiet k -> closes (bind (gpio_out_write 1) (fun _ => k)).
Proof.
  intros Hk w. exists []. split; [constructor |].
  unfold bind, gpio_out_write, log. rewrite Hk. reflexivity.
Qed.

Ltac closes_tac :=
  repeat lazymatch goal with
         | |- closes (bind (gpio_out_write 1) _) =>
             apply closes_release; quiet_tac; try apply quiet_read_verdict
         | |- closes (bind _ _) =>
             apply closes_bind; [ respects_xf | intros ]
         | |- closes (if ?b then _ else _) => destruct b
         | |- closes (match ?x with _ => _ end) => destruct x
         | |- closes (let _ := _ in _) => cbv zeta
         end.

(** A transaction: the bus is prepared, chip-select asserted, bytes
    transferred, chip-select released. *)
Lemma transaction_of_closes {A : Type} (k : M A) :
  closes k ->
  forall w, exists l,
    Forall (fun e => is_xfer e = true) l
    /\ trace (snd ((spi_prepare ;; gpio_out_write 0 ;; k) w))
       = EvCS 1 :: l ++ EvCS 0 :: EvPrepare :: trace w.
Proof.
  intros Hk w. unfold bind at 1 2, spi_prepare, gpio_out_write, log.
  cbv beta iota.
  match goal with
  | |- context [k ?x] => destruct (Hk x) as (l & F & T)
  end.
  exists l. split; [exact F | exact T].
Qed.

(** X6: every [send_command] is one bracketed transaction that leaves the
    device structure alone: the log gains, in this order, the bus
    preparation, the assertion of chip-select, transfers and nothing but
    transfers, and the release of chip-select. *)
Theorem send_command_transaction (command arg : Z) (buf : list Z)
    (cmd_flags : Z) (w : world) :
  let w' := snd (send_command command arg buf cmd_flags w) in
  sd_spi w' = sd_spi w
  /\ exists l,
       Forall (fun e => is_xfer e = true) l
       /\ trace w' = EvCS 1 :: l ++ EvCS 0 :: EvPrepare :: trace w.
Proof.
  cbv zeta. split; [apply send_command_hw_only |].
  unfold send_command. apply transaction_of_closes. closes_tac.
Qed.

Lemma keeps_setup_refl w : keeps_setup w w.
Proof. split; reflexivity. Qed.

Lemma keeps_setup_trans w1 w2 w3 :
  keeps_setup w1 w2 -> keeps_setup w2 w3 -> keeps_setup w1 w3.
Proof. intros [F1 C1] [F2 C2]. split; congruence. Qed.

Lemma hw_only_keeps_setup {A : Type} (m : M A) :
  respects hw_only m -> respects keeps_setup m.
Proof.
  apply respects_weaken. intros x y [E _]. split; rewrite E; reflexivity.
Qed.

Lemma or_err_keeps_setup e : respects keeps_setup (or_err e).
Proof. intros w. split; reflexivity. Qed.

Ltac respects_ks :=
  repeat (first [ solve [apply or_err_keeps_setup]
                | solve [apply hw_only_keeps_setup; eauto with hw_db]
                | respects_step keeps_setup_refl keeps_setup_trans ]).

Lemma read_data_block_keeps_setup cmd arg buf length :
  respects keeps_setup (read_data_block cmd arg buf length).
Proof. unfold read_data_block, read_verdict. respects_ks. Qed.

Lemma sdcard_write_sector_keeps_setup buf sector :
  respects keeps_setup (sdcard_write_sector buf sector).
Proof. unfold sdcard_write_sector, write_data. respects_ks. Qed.

(** X7: every [read_data_block] is one bracketed transaction, whatever the
    card answers: chip-select is asserted once and released on the way
    out, with only transfers in between; the flags and the bus
    configuration are left as they were. *)
Theorem read_data_block_transaction (cmd arg : Z) (buf : list Z) (length : Z)
    (w : world) :
  let w' := snd (read_data_block cmd arg buf length w) in
  flags (sd_spi w') = flags (sd_spi w)
  /\ config (sd_spi w') = config (sd_spi w)
  /\ exists l,
       Forall (fun e => is_xfer e = true) l
       /\ trace w' = EvCS 1 :: l ++ EvCS 0 :: EvPrepare :: trace w.
Proof.
  cbv zeta.
  destruct (read_data_block_keeps_setup cmd arg buf length w) as [F C].
  split; [exact F |]. split; [exact C |].
  unfold read_data_block. apply transaction_of_closes. closes_tac.
Qed.

Lemma sdcard_write_sector_brackets buf sector w :
  initialized w ->
  exists l,
    Forall (fun e => is_xfer e = true) l
    /\ trace (snd (sdcard_write_sector buf sector w))
       = EvCS 1 :: l ++ EvCS 0 :: EvPrepare :: trace w.
Proof.
  intros Hi. unfold initialized in Hi. unfold sdcard_write_sector.
  rewrite bind_run. unfold get_flags.
  destruct (Z.eqb_spec (Z.land (flags (sd_spi w)) SDF_INITIALIZED) 0) as [E|_];
    [contradiction |].
  cbv zeta. apply transaction_of_closes. unfold write_data. closes_tac.
Qed.

(** X8: once Initialized is set, every [sdcard_write_sector] is one
    bracketed transaction on each of its exits (no response to the
    command, rejected data, busy timeout, success): chip-select is asserted
    once and released last, with only transfers in between; the flags and
    the bus configuration are left as they were. *)
Theorem write_sector_transaction (buf : list Z) (sector : Z) (w : world) :
  initialized w ->
  let w' := snd (sdcard_write_sector buf sector w) in
  flags (sd_spi w') = flags (sd_spi w)
  /\ config (sd_spi w') = config (sd_spi w)
  /\ exists l,
       Forall (fun e => is_xfer e = true) l
       /\ trace w' = EvCS 1 :: l ++ EvCS 0 :: EvPrepare :: trace w.
Proof.
  intros Hi. cbv zeta.
  destruct (sdcard_write_sector_keeps_setup buf sector w) as [F C].
  split; [exact F |]. split; [exact C |].
  apply sdcard_write_sector_brackets, Hi.
Qed.

(** ** Chip-select is never left asserted *)

Lemma cs_safe_refl w : cs_safe w w.
Proof. intros H. exact H. Qed.

Lemma cs_safe_trans w1 w2 w3 : cs_safe w1 w2 -> cs_safe w2 w3 -> cs_safe w1 w3.
Proof. unfold cs_safe. auto. Qed.

Lemma cs_safe_same_trace {A : Type} (m : M A) :
  quiet m -> respects cs_safe m.
Proof. intros H w Hc. rewrite H. exact Hc. Qed.

Lemma cs_safe_released {A : Type} (m : M A) :
  (forall w, exists l, trace (snd (m w)) = EvCS 1 :: l) ->
  respects cs_safe m.
Proof. intros H w _. destruct (H w) as [l ->]. reflexivity. Qed.

Lemma spi_transfer_cs_safe r len data : respects cs_safe (spi_transfer r len data).
Proof. intros w Hc. rewrite spi_transfer_trace. exact Hc. Qed.

Lemma udelay_cs_safe us : respects cs_safe (udelay us).
Proof. intros w Hc. exact Hc. Qed.

Lemma spi_prepare_cs_safe : respects cs_safe spi_prepare.
Proof. intros w Hc. exact Hc. Qed.

Lemma spi_setup_cs_safe r : respects cs_safe (spi_setup r).
Proof. intros w Hc. exact Hc. Qed.

Lemma spi_set_rate_cs_safe r : respects cs_safe (spi_set_rate r).
Proof. intros w Hc. exact Hc. Qed.

Lemma gpio_out_setup_cs_safe : respects cs_safe (gpio_out_setup 1).
Proof. intros w Hc. reflexivity. Qed.

Lemma or_err_cs_safe e : respects cs_safe (or_err e).
Proof. intros w Hc. exact Hc. Qed.

Lemma or_flags_cs_safe f : respects cs_safe (or_flags f).
Proof. intros w Hc. exact Hc. Qed.

Lemma get_flags_cs_safe : respects cs_safe get_flags.
Proof. intros w Hc. exact Hc. Qed.

Lemma send_command_cs_safe command arg buf cmd_flags :
  respects cs_safe (send_command command arg buf cmd_flags).
Proof.
  apply cs_safe_released. intros w.
  unfold send_command.
  match goal with
  | |- context [bind spi_prepare (fun _ => bind (gpio_out_write 0) (fun _ => ?k))] =>
      assert (Hk : closes k) by closes_tac;
      destruct (transaction_of_closes k Hk w) as (l & _ & T)
  end.
  eexists. exact T.
Qed.

Lemma read_data_block_cs_safe cmd arg buf length :
  respects cs_safe (read_data_block cmd arg buf length).
Proof.
  apply cs_safe_released. intros w.
  unfold read_data_block. cbv zeta.
  match goal with
  | |- context [bind spi_prepare (fun _ => bind (gpio_out_write 0) (fun _ => ?k))] =>
      assert (Hk : closes k) by closes_tac;
      destruct (transaction_of_closes k Hk w) as (l & _ & T)
  end.
  eexists. exact T.
Qed.

Lemma sdcard_write_sector_cs_safe buf sector :
  respects cs_safe (sdcard_write_sector buf sector).
Proof.
  intros w Hc.
  destruct (Z.eq_dec (Z.land (flags (sd_spi w)) SDF_INITIALIZED) 0) as [E|E].
  - unfold sdcard_write_sector. rewrite bind_run. unfold get_flags.
    rewrite E. exact Hc.
  - destruct (sdcard_write_sector_brackets buf sector w E) as (l & _ & T).
    rewrite T. reflexivity.
Qed.

Hint Resolve spi_transfer_cs_safe udelay_cs_safe spi_prepare_cs_safe
  spi_setup_cs_safe spi_set_rate_cs_safe gpio_out_setup_cs_safe or_err_cs_safe
  or_flags_cs_safe get_flags_cs_safe send_command_cs_safe
  read_data_block_cs_safe sdcard_write_sector_cs_safe : cs_db.

Ltac respects_cs :=
  repeat (first [ solve [eauto with cs_db]
                | respects_step cs_safe_refl cs_safe_trans ]).

Lemma check_command_cs_safe cmd arg buf fl expect attempts :
  respects cs_safe (check_command cmd arg buf fl expect attempts).
Proof.
  revert buf. induction attempts as [|n IH]; intros buf; simpl; respects_cs.
Qed.

Lemma clock_idle_cs_safe n buf : respects cs_safe (clock_idle n buf).
Proof. induction n as [|n IH]; simpl; respects_cs. Qed.

Hint Resolve check_command_cs_safe clock_idle_cs_safe : cs_db.

Lemma sdcard_init_cs_safe : respects cs_safe sdcard_init.
Proof.
  unfold sdcard_init, sdcard_init_negotiate, sdcard_check_write_protect.
  respects_cs.
Qed.

Lemma sdcard_read_sector_cs_safe buf sector :
  respects cs_safe (sdcard_read_sector buf sector).
Proof. unfold sdcard_read_sector. respects_cs. Qed.

Lemma sdcard_deinit_cs_safe : respects cs_safe sdcard_deinit.
Proof. unfold sdcard_deinit. respects_cs. Qed.

(** X9: chip-select is never left asserted: if the line was high before a
    sequence of driver operations (or never driven), it is high after it,
    whatever the card answered and wherever an operation gave up; and
    after [sdcard_init] it is high in any case, since the line is set up
    high before anything else. *)
Theorem chip_select_released (os : list op) (w : world) :
  (cs_idle (trace w) = true -> cs_idle (trace (run_ops os w)) = true)
  /\ cs_idle (trace (run_ops (OpInit :: os) w)) = true.
Proof.
  assert (Hops : forall l x, cs_safe x (run_ops l x)).
  { induction l as [|o l IH]; intros x; simpl; [apply cs_safe_refl |].
    eapply cs_safe_trans; [| apply IH].
    destruct o; simpl;
      [ apply sdcard_init_cs_safe | apply sdcard_read_sector_cs_safe
      | apply sdcard_write_sector_cs_safe | apply sdcard_deinit_cs_safe ]. }
  split; [apply Hops |].
  simpl. apply Hops.
  unfold sdcard_init, sdcard_init_negotiate.
  rewrite !bind_run. unfold gpio_out_setup at 1, log at 1.
  match goal with
  | |- context [bind ?m ?k ?x] =>
      assert (H : respects cs_safe (bind m k)) by respects_cs;
      specialize (H x); destruct (bind m k x) as [ok w1]
  end.
  simpl in H.
  match goal with
  | |- context [(if negb ok then ?a else ?b) ?x] =>
      assert (H2 : respects cs_safe (if negb ok then a else b))
        by (unfold sdcard_check_write_protect; respects_cs);
      specialize (H2 x)
  end.
  apply H2, H. reflexivity.
Qed.

(** ** The retry loop, whatever the card answers *)

(** X10: for every card and every [attempts >= 1], [check_command] makes
    some number [k] of exchanges with [1 <= k <= attempts] and exactly
    [k - 1] delays, each of 1000 microseconds; it returns 0 or 1, 0 only
    after all [attempts] exchanges, and 1 only with an accepted status
    byte as the first byte of the buffer it returns.  The device structure
    is left as it was. *)
Theorem check_command_bound (cmd arg fl expect : Z) (attempts : nat)
    (buf : list Z) (w : world) :
  (1 <= attempts)%nat ->
  let res := check_command cmd arg buf fl expect attempts w in
  exists k : nat,
    (1 <= k <= attempts)%nat
    /\ cs_asserts (snd res) = (cs_asserts w + k)%nat
    /\ delays (snd res) = (delays w + (k - 1))%nat
    /\ delays_of 1000 (snd res) = (delays_of 1000 w + (k - 1))%nat
    /\ (fst (fst res) = 0 \/ fst (fst res) = 1)
    /\ (fst (fst res) = 0 -> k = attempts)
    /\ (fst (fst res) = 1 ->
        accepted fl expect (rd (snd (fst res)) 0) = true)
    /\ sd_spi (snd res) = sd_spi w.
Proof.
  revert buf w. induction attempts as [|n IH]; intros buf w Hn; [lia |].
  cbv zeta. rewrite check_command_step.
  pose proof (send_command_tallies cmd arg buf fl w) as (T1 & T2 & T3).
  pose proof (proj1 (send_command_hw_only cmd arg buf fl w)) as Hs.
  destruct (send_command_run_response cmd arg buf fl w)
    as (r & buf1 & w1 & E & Hr & _).
  rewrite E in *. cbn [fst snd] in T1, T2, T3, Hs.
  destruct (accepted fl expect r) eqn:Hacc.
  - exists 1%nat. cbn [fst snd]. rewrite T1, T2, T3, Hr.
    repeat split; auto; try lia; try discriminate.
  - destruct n as [|n].
    + exists 1%nat. simpl. rewrite T1, T2, T3.
      repeat split; auto; try lia; try discriminate.
    + specialize (IH buf1 (snd (udelay 1000 w1)) ltac:(lia)).
      cbv zeta in IH. destruct IH as (k & Hk & I1 & I2 & I3 & I4 & I5 & I6 & I7).
      pose proof (tallies_udelay_1ms w1) as (U1 & U2 & U3).
      exists (S k). rewrite I1, I2, I3, I7, U1, U2, U3, T1, T2, T3.
      repeat split; auto; try lia.
Qed.

(** ** The token scan and its deadline *)

Lemma timer_is_before_pending now0 e T :
  0 <= e < T -> T <= 2147483648 ->
  timer_is_before (u32 (now0 + e)) (u32 (u32 now0 + T)) = true.
Proof.
  intros He HT. unfold timer_is_before, s32.
  rewrite u32_sub_elapsed.
  assert (E : u32 (e - T) = e - T + 4294967296).
  { unfold u32. symmetry. apply Z.mod_unique_pos with (q := -1); lia. }
  rewrite E.
  destruct (Z.ltb_spec (e - T + 4294967296) 2147483648); [lia |].
  apply Z.ltb_lt. lia.
Qed.

Lemma find_token_loop_deadline token now0 T :
  0 < byte_ticks <= 2147483648 ->
  forall (fuel : nat) (w : world),
    0 <= now w - now0 < T + byte_ticks ->
    (Z.to_nat (T - (now w - now0)) < fuel)%nat ->
    let res := find_token_loop fuel token (u32 (u32 now0 + T)) w in
    now w <= now (snd res)
    /\ now (snd res) - now0 < T + byte_ticks
    /\ (fst res = 0 -> T <= 2147483648 -> T <= now (snd res) - now0)
    /\ (fst res = 1 ->
        exists w0,
          snd res = snd (spi_transfer true 1 [0xFF] w0)
          /\ rd (fst (spi_transfer true 1 [0xFF] w0)) 0 = token).
Proof.
  intros Hd fuel. induction fuel as [|fuel IH]; intros w He Hf; [lia |].
  cbv zeta. simpl. rewrite bind_run. unfold timer_read_time.
  destruct (timer_is_before (u32 (now w)) (u32 (u32 now0 + T))) eqn:Hb.
  - assert (Hlt : now w - now0 < T).
    { destruct (Z.lt_ge_cases (now w - now0) T) as [L|G]; [exact L |].
      pose proof (timer_is_before_elapsed now0 (now w - now0) T
                    ltac:(lia)) as Hx.
      replace (now0 + (now w - now0)) with (now w) in Hx by lia.
      congruence. }
    rewrite bind_run.
    pose proof (spi_transfer_one_now true 255 w) as Hn.
    destruct (spi_transfer true 1 [255] w) as [b w1] eqn:Ex.
    cbn [snd] in Hn.
    destruct (Z.eqb_spec (rd b 0) token) as [Et|Et].
    + cbn [fst snd ret]. rewrite Hn.
      split; [lia |]. split; [lia |]. split; [discriminate |].
      intros _. exists w. rewrite Ex. split; [reflexivity | exact Et].
    + specialize (IH w1). rewrite Hn in IH.
      specialize (IH ltac:(lia) ltac:(lia)). cbv zeta in IH.
      destruct IH as (I1 & I2 & I3 & I4).
      split; [lia |]. split; [exact I2 |]. split; [exact I3 | exact I4].
  - cbn [fst snd ret].
    split; [lia |]. split; [lia |]. split; [| discriminate].
    intros _ HT.
    destruct (Z.lt_ge_cases (now w - now0) T) as [L|G]; [| lia].
    pose proof (timer_is_before_pending now0 (now w - now0) T
                  ltac:(lia) HT) as Hx.
    replace (now0 + (now w - now0)) with (now w) in Hx by lia.
    congruence.
Qed.

(** X11: with a byte time between one tick and 2^31 ticks, [find_token]
    ends within its timeout plus one byte time; it returns 0 or 1 and
    leaves the device structure alone; when it returns 0 and the timeout is
    at most 2^31 ticks, the whole timeout has elapsed; when it returns 1,
    the byte its last transfer read is the token. *)
Theorem find_token_deadline (token timeout_us : Z) (w : world) :
  0 < byte_ticks <= 2147483648 ->
  let T := timer_from_us timeout_us in
  let res := find_token token timeout_us w in
  (fst res = 0 \/ fst res = 1)
  /\ sd_spi (snd res) = sd_spi w
  /\ now w <= now (snd res) < now w + T + byte_ticks
  /\ (fst res = 0 -> T <= 2147483648 -> now w + T <= now (snd res))
  /\ (fst res = 1 ->
      exists w0,
        snd res = snd (spi_transfer true 1 [0xFF] w0)
        /\ rd (fst (spi_transfer true 1 [0xFF] w0)) 0 = token).
Proof.
  intros Hd. cbv zeta.
  split; [apply find_token_bool |].
  split; [apply find_token_hw_only |].
  unfold find_token. rewrite bind_run. unfold timer_read_time.
  assert (HT : 0 <= timer_from_us timeout_us < 4294967296)
    by (unfold timer_from_us, u32; apply Z.mod_pos_bound; lia).
  pose proof (find_token_loop_deadline token (now w)
                (timer_from_us timeout_us) Hd
                (S (Z.to_nat (timer_from_us timeout_us))) w) as H.
  rewrite Z.sub_diag in H. specialize (H ltac:(lia) ltac:(lia)).
  cbv zeta in H. destruct H as (H1 & H2 & H3 & H4).
  split; [lia |]. split; [| exact H4].
  intros H0 HT'. specialize (H3 H0 HT'). lia.
Qed.

(** ** What a block transfer records and sends *)

Lemma read_data_block_err_cases (cmd arg : Z) (buf : list Z) (length : Z)
    (w : world) :
  let res := read_data_block cmd arg buf length w in
  let e := err (sd_spi w) in
  let e' := err (sd_spi (snd res)) in
  (fst (fst res) = 1 -> e' = e)
  /\ (fst (fst res) = 0 -> Z.land e' SDE_READ_ERR = SDE_READ_ERR)
  /\ (e' = e \/ e' = Z.lor e SDE_READ_ERR
      \/ e' = Z.lor (Z.lor e SDE_CRC_ERR) SDE_READ_ERR).
Proof.
  cbv zeta.
  unfold read_data_block, read_verdict, spi_prepare, gpio_out_write, log,
    or_err, bind, ret.
  cbv beta iota zeta.
  run_hw.
  match goal with
  | |- context [if recd_crc ?a =? ?b then _ else _] =>
      destruct (recd_crc a =? b)
  end;
    cbv beta iota; change (0 <? 3) with true; cbv beta iota;
  repeat match goal with
         | |- context [if ?b then _ else _] => destruct b
         end;
    cbn [fst snd sd_spi err];
    repeat match goal with
           | H : sd_spi _ = sd_spi _ |- _ => rewrite H; clear H
           end;
    cbn [sd_spi err];
    (split; [intros; try discriminate; try reflexivity
            | split; [intros; try discriminate; try apply land_lor_same
                     | auto ]]).
Qed.

(** X12: [read_data_block] records every failure and nothing else: after a
    return of 1 the error set is as it was; after a return of 0 it holds
    ReadErr; the only bits it ever adds are ReadErr, or CrcErr together
    with ReadErr. *)
Theorem read_data_block_errors (cmd arg : Z) (buf : list Z) (length : Z)
    (w : world) :
  let res := read_data_block cmd arg buf length w in
  let e := err (sd_spi w) in
  let e' := err (sd_spi (snd res)) in
  (fst (fst res) = 1 -> e' = e)
  /\ (fst (fst res) = 0 -> Z.land e' SDE_READ_ERR = SDE_READ_ERR)
  /\ (e' = e \/ e' = Z.lor e SDE_READ_ERR
      \/ e' = Z.lor (Z.lor e SDE_CRC_ERR) SDE_READ_ERR).
Proof. apply read_data_block_err_cases. Qed.

(** Destructs the next transfer of the goal, keeping what it returns, what
    it logs and that it leaves the device structure alone. *)
Ltac xfer_full :=
  match goal with
  | |- context [spi_transfer false ?n ?d ?x] =>
      let T := fresh "Htr" in
      let S := fresh "Hsp" in
      let V := fresh "Hval" in
      let v := fresh "v" in
      pose proof (spi_transfer_trace false n d x) as T;
      pose proof (proj1 (spi_transfer_hw_only false n d x)) as S;
      pose proof (spi_transfer_send n d x) as V;
      destruct (spi_transfer false n d x) as [v ?];
      cbn [fst snd] in T, S, V; subst v
  | |- context [spi_transfer true ?n ?d ?x] =>
      let T := fresh "Htr" in
      let S := fresh "Hsp" in
      let miso := fresh "miso" in
      let E := fresh "Erecv" in
      let L := fresh "Lrecv" in
      let v := fresh "v" in
      pose proof (spi_transfer_trace true n d x) as T;
      pose proof (proj1 (spi_transfer_hw_only true n d x)) as S;
      destruct (spi_transfer_receive n d x) as (miso & E & L);
      destruct (spi_transfer true n d x) as [v ?];
      cbn [fst snd] in T, S, E; subst v
  end.

(** X13: when the write command gets no response (the eight bytes read
    after the frame are all 0xFF), [sdcard_write_sector] gives up at once:
    it returns 0, adds WriteErr and nothing else to the error set, and has
    sent the command frame only; neither the start token, nor the payload,
    nor its CRC goes out. *)
Theorem write_sector_no_response (buf : list Z) (sector : Z) (w : world) :
  initialized w ->
  let frame :=
    populate_buffer SDCMD_WRITE_BLOCK
      (sector_offset (flags (sd_spi w)) sector) (repeat 0 8) in
  let '(cmd_buf, w1) :=
    (spi_prepare ;; gpio_out_write 0 ;;
     cmd_buf <- spi_transfer false 6 frame ;;
     spi_transfer true 8 (memset cmd_buf 0xFF 8)) w in
  response_byte cmd_buf = 0xFF ->
  let '(r, w') := sdcard_write_sector buf sector w in
  r = 0
  /\ err (sd_spi w') = Z.lor (err (sd_spi w)) SDE_WRITE_ERR
  /\ trace w'
     = [EvCS 1; EvXfer true (repeat 0xFF 8); EvXfer false (firstn 6 frame);
        EvCS 0; EvPrepare] ++ trace w.
Proof.
  intros Hi. unfold initialized in Hi.
  unfold sdcard_write_sector, get_flags, spi_prepare, gpio_out_write, log,
    or_err, bind, ret.
  cbv beta iota zeta.
  destruct (Z.eqb_spec (Z.land (flags (sd_spi w)) SDF_INITIALIZED) 0) as [E|_];
    [contradiction |].
  do 2 xfer_full.
  intros Hresp. rewrite Hresp. rewrite Z.eqb_refl. cbv beta iota.
  cbn [sd_spi err trace].
  rewrite Htr0, Htr, Hsp0, Hsp. cbn [sd_spi err trace].
  split; [reflexivity |]. split; reflexivity.
Qed.

Lemma find_token_loop_polls fuel token endtime w :
  exists polls,
    Forall (fun e => e = EvXfer true [0xFF]) polls
    /\ trace (snd (find_token_loop fuel token endtime w)) = polls ++ trace w.
Proof.
  revert w. induction fuel as [|fuel IH]; intros w; simpl.
  - exists []. split; [constructor | reflexivity].
  - rewrite bind_run. unfold timer_read_time.
    destruct (timer_is_before (u32 (now w)) endtime);
      [| exists []; split; [constructor | reflexivity]].
    rewrite bind_run.
    pose proof (spi_transfer_trace true 1 [255] w) as T.
    destruct (spi_transfer true 1 [255] w) as [b w1]. cbn [snd firstn] in T.
    destruct (rd b 0 =? token).
    + exists [EvXfer true [255]]. split; [repeat constructor | exact T].
    + destruct (IH w1) as (polls & F & P).
      exists (polls ++ [EvXfer true [255]]).
      split; [apply Forall_app; split; [exact F | repeat constructor] |].
      rewrite P, T, <- app_assoc. reflexivity.
Qed.

Lemma find_token_polls token timeout_us w :
  exists polls,
    Forall (fun e => e = EvXfer true [0xFF]) polls
    /\ trace (snd (find_token token timeout_us w)) = polls ++ trace w.
Proof.
  unfold find_token. rewrite bind_run. unfold timer_read_time.
  apply find_token_loop_polls.
Qed.

Lemma firstn_memset b v n : firstn n (memset b v n) = repeat v n.
Proof.
  unfold memset. rewrite firstn_app, repeat_length, Nat.sub_diag, firstn_O.
  rewrite app_nil_r. apply firstn_all2. rewrite repeat_length. lia.
Qed.

(** X14: when the write command is answered, [sdcard_write_sector] sends,
    in this order and each in one transfer, the start token 0xFE, the first
    512 bytes of the caller's buffer, and the CRC16 of those bytes, high
    byte first; it then reads eight bytes for the data response and polls
    single bytes until the busy state ends or times out, before releasing
    chip-select. *)
Theorem write_sector_wire_format (buf : list Z) (sector : Z) (w : world) :
  initialized w ->
  let frame :=
    populate_buffer SDCMD_WRITE_BLOCK
      (sector_offset (flags (sd_spi w)) sector) (repeat 0 8) in
  let crc := calc_crc16 buf 512 in
  let '(cmd_buf, w1) :=
    (spi_prepare ;; gpio_out_write 0 ;;
     cmd_buf <- spi_transfer false 6 frame ;;
     spi_transfer true 8 (memset cmd_buf 0xFF 8)) w in
  response_byte cmd_buf <> 0xFF ->
  exists polls,
    Forall (fun e => e = EvXfer true [0xFF]) polls
    /\ trace (snd (sdcard_write_sector buf sector w))
       = EvCS 1 :: polls
         ++ [EvXfer true (repeat 0xFF 8);
             EvXfer false [Z.land (Z.shiftr crc 8) 0xFF; Z.land crc 0xFF];
             EvXfer false (firstn 512 buf);
             EvXfer false [0xFE];
             EvXfer true (repeat 0xFF 8);
             EvXfer false (firstn 6 frame);
             EvCS 0; EvPrepare]
         ++ trace w.
Proof.
  intros Hi. unfold initialized in Hi.
  unfold sdcard_write_sector, write_data, get_flags, spi_prepare,
    gpio_out_write, log, or_err, bind, ret.
  cbv beta iota zeta.
  destruct (Z.eqb_spec (Z.land (flags (sd_spi w)) SDF_INITIALIZED) 0) as [E|_];
    [contradiction |].
  do 2 xfer_full.
  rewrite memset_length, populate_buffer_length, repeat_length in Lrecv.
  destruct miso as [|m0 [|m1 miso]]; try (simpl in Lrecv; lia).
  intros Hresp.
  match goal with
  | |- context [if ?c then _ else _] =>
      destruct c eqn:Ec;
      [apply Z.eqb_eq in Ec; contradiction |]
  end.
  cbv beta iota.
  do 4 xfer_full.
  match goal with
  | |- context [find_token ?t ?us ?x] =>
      destruct (find_token_polls t us x) as (polls & F & P);
      destruct (find_token t us x) as [found wf]
  end.
  cbn [snd] in P.
  exists polls. split; [exact F |].
  match goal with
  | |- context [if ?c then _ else _] => destruct c
  end;
    cbn [snd trace];
    rewrite P, Htr4, Htr3, Htr2, Htr1, Htr0, Htr; cbn [trace];
    rewrite !firstn_memset; reflexivity.
Qed.

(** ** Flags are sticky *)

Lemma flags_grow_refl w : flags_grow w w.
Proof. exists 0. symmetry. apply Z.lor_0_r. Qed.

Lemma flags_grow_trans w1 w2 w3 :
  flags_grow w1 w2 -> flags_grow w2 w3 -> flags_grow w1 w3.
Proof.
  intros [b1 E1] [b2 E2]. exists (Z.lor b1 b2).
  rewrite E2, E1. symmetry. apply Z.lor_assoc.
Qed.

Lemma keeps_setup_flags_grow {A : Type} (m : M A) :
  respects keeps_setup m -> respects flags_grow m.
Proof.
  apply respects_weaken. intros x y [F _]. exists 0. rewrite F.
  symmetry. apply Z.lor_0_r.
Qed.

Lemma or_flags_grow f : respects flags_grow (or_flags f).
Proof. intros w. exists f. reflexivity. Qed.

Lemma set_config_flags_grow r : respects flags_grow (set_config r).
Proof. intros w. exists 0. simpl. symmetry. apply Z.lor_0_r. Qed.

Hint Resolve or_flags_grow set_config_flags_grow : fl_db.

Ltac respects_fl :=
  repeat (first [ solve [eauto with fl_db]
                | solve [apply keeps_setup_flags_grow; respects_ks]
                | solve [apply keeps_setup_flags_grow;
                         apply hw_only_keeps_setup; eauto with hw_db]
                | respects_step flags_grow_refl flags_grow_trans ]).

Lemma sdcard_init_flags_grow : respects flags_grow sdcard_init.
Proof.
  unfold sdcard_init, sdcard_init_negotiate, sdcard_check_write_protect,
    spi_setup, spi_set_rate.
  respects_fl;
    try (apply keeps_setup_flags_grow, read_data_block_keeps_setup).
Qed.

Lemma run_op_flags_grow o w : flags_grow w (run_op o w).
Proof.
  destruct o; simpl.
  - apply sdcard_init_flags_grow.
  - apply keeps_setup_flags_grow.
    unfold sdcard_read_sector. respects_ks.
    apply read_data_block_keeps_setup.
  - apply keeps_setup_flags_grow, sdcard_write_sector_keeps_setup.
  - destruct (sdcard_deinit_hw_flags w) as (F & _).
    exists SDF_DEINIT. exact F.
Qed.

Lemma run_ops_flags_grow os w : flags_grow w (run_ops os w).
Proof.
  revert w. induction os as [|o os IH]; intros w; simpl.
  - apply flags_grow_refl.
  - eapply flags_grow_trans; [apply run_op_flags_grow | apply IH].
Qed.

Lemma flags_grow_keeps_bits w w' b :
  flags_grow w w' ->
  Z.land (flags (sd_spi w)) b = b -> Z.land (flags (sd_spi w')) b = b.
Proof. intros [bits E] H. rewrite E. apply land_lor_keeps, H. Qed.

(** X15: no driver operation ever clears a flag: over every sequence of
    operations the flags after are the flags before with bits OR-ed in.
    In particular HighCapacity, WriteProtected and Deinitialized, once
    set, stay set through any later [sdcard_init]. *)
Theorem flags_never_cleared (os : list op) (w : world) :
  (exists bits,
     flags (sd_spi (run_ops os w)) = Z.lor (flags (sd_spi w)) bits)
  /\ Z.land (flags (sd_spi (run_ops os w))) (flags (sd_spi w))
     = flags (sd_spi w)
  /\ (forall b,
        Z.land (flags (sd_spi w)) b = b ->
        Z.land (flags (sd_spi (run_ops os w))) b = b).
Proof.
  pose proof (run_ops_flags_grow os w) as G.
  split; [exact G |]. split.
  - destruct G as [bits E]. rewrite E, Z.lor_comm. apply land_lor_same.
  - intros b. apply flags_grow_keeps_bits, G.
Qed.

Lemma sdcard_deinit_when_set w :
  Z.land (flags (sd_spi w)) SDF_DEINIT = SDF_DEINIT ->
  sdcard_deinit w = (tt, w).
Proof.
  intros H. unfold sdcard_deinit. rewrite bind_run. unfold get_flags.
  rewrite H. reflexivity.
Qed.

(** X16: once [sdcard_deinit] has run, every later [sdcard_deinit] does
    nothing, whatever operations came in between, a new [sdcard_init]
    included: the Deinitialized flag is never cleared, so the card is not
    returned to idle a second time. *)
Theorem deinit_only_once (os : list op) (w : world) :
  let w1 := run_ops os (snd (sdcard_deinit w)) in
  sdcard_deinit w1 = (tt, w1)
  /\ sdcard_deinit (snd (sdcard_deinit w)) = (tt, snd (sdcard_deinit w)).
Proof.
  cbv zeta.
  assert (H : Z.land (flags (sd_spi (snd (sdcard_deinit w)))) SDF_DEINIT
              = SDF_DEINIT).
  { destruct (sdcard_deinit_hw_flags w) as (F & _). rewrite F.
    apply land_lor_same. }
  split.
  - apply sdcard_deinit_when_set.
    apply (flags_grow_keeps_bits _ _ _ (run_ops_flags_grow os _) H).
  - apply sdcard_deinit_when_set, H.
Qed.

Lemma send_command_plain_trace command arg buf w :
  trace (snd (send_command command arg buf 0 w))
  = [EvCS 1; EvXfer true (repeat 0xFF 8);
     EvXfer false (firstn 6 (populate_buffer command arg (repeat 0 8)))]
    ++ EvCS 0 :: EvPrepare :: trace w.
Proof.
  unfold send_command, spi_prepare, gpio_out_write, log, bind, ret.
  cbv beta iota zeta.
  change (Z.land 0 CF_APP_CMD =? 0) with true.
  change (Z.land 0 CF_FULL_RESP =? 0) with true. cbv beta iota.
  do 2 xfer_full.
  rewrite firstn_memset in Htr0.
  assert (Hf : firstn 6 (populate_buffer command arg (memset buf 0 8))
               = firstn 6 (populate_buffer command arg (repeat 0 8))).
  { unfold memset. cbn [repeat app]. rewrite populate_buffer_shape.
    rewrite firstn_app, firstn_firstn. cbn [Nat.min].
    assert (L : length (firstn 6 (populate_buffer command arg (repeat 0 8)))
                = 6%nat).
    { rewrite length_firstn, populate_buffer_length, repeat_length.
      reflexivity. }
    rewrite L. cbn [Nat.sub firstn]. apply app_nil_r. }
  rewrite Hf in Htr.
  destruct (first_response _ 0) as [[[|i] r]|];
    cbn [snd trace]; rewrite Htr0, Htr; reflexivity.
Qed.

(** X17: the first [sdcard_deinit] (Deinitialized not yet set) sets the
    flag and makes exactly two command exchanges, whose results it
    ignores: go-idle with argument 0, then the CRC switch with argument 0,
    each a six-byte frame followed by one read of eight bytes. *)
Theorem deinit_first_call (w : world) :
  Z.land (flags (sd_spi w)) SDF_DEINIT = 0 ->
  let w' := snd (sdcard_deinit w) in
  flags (sd_spi w') = Z.lor (flags (sd_spi w)) SDF_DEINIT
  /\ trace w'
     = [EvCS 1; EvXfer true (repeat 0xFF 8);
        EvXfer false [0x7B; 0; 0; 0; 0; 0x91]; EvCS 0; EvPrepare;
        EvCS 1; EvXfer true (repeat 0xFF 8);
        EvXfer false [0x40; 0; 0; 0; 0; 0x95]; EvCS 0; EvPrepare]
       ++ trace w.
Proof.
  intros H. cbv zeta.
  split; [apply sdcard_deinit_hw_flags |].
  unfold sdcard_deinit. rewrite bind_run. unfold get_flags.
  rewrite H. cbv beta iota. change (negb (0 =? 0)) with false. cbv iota.
  rewrite bind_run. unfold or_flags at 1.
  rewrite bind_run.
  match goal with
  | |- context [send_command ?c ?a ?b 0 ?x] =>
      pose proof (send_command_plain_trace c a b x) as T1;
      destruct (send_command c a b 0 x) as [[r1 b1] w1]
  end.
  rewrite bind_run.
  match goal with
  | |- context [send_command ?c ?a ?b 0 ?x] =>
      pose proof (send_command_plain_trace c a b x) as T2;
      destruct (send_command c a b 0 x) as [[r2 b2] w2]
  end.
  cbn [snd ret] in *. rewrite T2, T1. reflexivity.
Qed.

(** ** How an initialization ends *)

Ltac run_stage :=
  match goal with
  | |- context [check_command ?a ?b ?c ?d ?e ?f ?x] =>
      let H := fresh "Hdev" in
      pose proof (proj1 (check_command_hw_only a b c d e f x)) as H;
      destruct (check_command a b c d e f x) as [[? ?] ?];
      cbn [fst snd] in H
  | |- context [clock_idle ?n ?b ?x] =>
      let H := fresh "Hdev" in
      pose proof (proj1 (clock_idle_hw_only n b x)) as H;
      destruct (clock_idle n b x) as [? ?];
      cbn [fst snd] in H
  end.

(** The bring-up keeps the init rate, sets no flag but HighCapacity, and
    records exactly one stage flag when it fails. *)
Lemma sdcard_init_negotiate_outcome w :
  let ok := fst (sdcard_init_negotiate w) in
  let w' := snd (sdcard_init_negotiate w) in
  config (sd_spi w') = SPI_INIT_RATE
  /\ (flags (sd_spi w') = flags (sd_spi w)
      \/ flags (sd_spi w') = Z.lor (flags (sd_spi w)) SDF_HIGH_CAPACITY)
  /\ (ok = true -> err (sd_spi w') = err (sd_spi w))
  /\ (ok = false ->
      exists e,
        In e [SDE_NO_IDLE; SDE_IF_COND_ERR; SDE_CRC_ERR; SDE_OCR_ERR;
              SDE_OP_COND_ERR; SDE_OTHER_ERR]
        /\ err (sd_spi w') = Z.lor (err (sd_spi w)) e).
Proof.
  cbv zeta.
  unfold sdcard_init_negotiate, gpio_out_setup, spi_setup, set_config, udelay,
    tick, spi_prepare, log, or_err, or_flags, bind, ret.
  cbv beta iota zeta.
  repeat (first [ run_stage
                | match goal with
                  | |- context [if ?c then _ else _] => destruct c
                  end ];
          cbv beta iota zeta;
          change (0 =? 0) with true; change (1 =? 0) with false;
          cbv beta iota zeta);
    cbn [fst snd sd_spi config flags err];
    repeat match goal with
           | H : sd_spi _ = _ |- _ => rewrite H; clear H
           end;
    cbn [sd_spi config flags err];
    (split; [reflexivity |]);
    (split; [auto |]);
    (split; [intros; try discriminate; reflexivity |]);
    intros; try discriminate;
    eexists; (split; [| reflexivity]); simpl; auto 10.
Qed.

Lemma sdcard_check_write_protect_outcome w :
  let r := fst (sdcard_check_write_protect w) in
  let w' := snd (sdcard_check_write_protect w) in
  keeps_setup w w'
  /\ (r = 1 -> err (sd_spi w') = err (sd_spi w)).
Proof.
  cbv zeta.
  pose proof (sdcard_check_write_protect_spec w) as H.
  pose proof (read_data_block_keeps_setup SDCMD_SEND_CSD 0 (repeat 0 16) 16 w)
    as K.
  pose proof (read_data_block_err_cases SDCMD_SEND_CSD 0 (repeat 0 16) 16 w)
    as (E1 & _).
  pose proof (read_data_block_bool SDCMD_SEND_CSD 0 (repeat 0 16) 16 w) as B.
  destruct (read_data_block SDCMD_SEND_CSD 0 (repeat 0 16) 16 w)
    as [[r csd_buf] w2].
  rewrite H. cbn [fst snd] in *. split; [exact K |].
  destruct B as [-> | ->]; simpl; [discriminate |].
  intros _. apply E1. reflexivity.
Qed.

(** X18: how [sdcard_init] ends.  A return of 1 leaves the error set as it
    was, the bus at the transfer rate and the flags as before with
    Initialized, and possibly HighCapacity, added.  A return of 0 leaves
    the bus at the init rate and is identifiable: either the bring-up
    failed and added exactly one of the six stage error flags, setting no
    flag but possibly HighCapacity, or the write-protect check failed and
    WriteProtected is set. *)
Theorem init_outcome (w : world) :
  let r := fst (sdcard_init w) in
  let w' := snd (sdcard_init w) in
  (r = 1 ->
   err (sd_spi w') = err (sd_spi w)
   /\ config (sd_spi w') = SPI_XFER_RATE
   /\ (flags (sd_spi w') = Z.lor (flags (sd_spi w)) SDF_INITIALIZED
       \/ flags (sd_spi w')
          = Z.lor (Z.lor (flags (sd_spi w)) SDF_HIGH_CAPACITY)
              SDF_INITIALIZED))
  /\ (r = 0 ->
      config (sd_spi w') = SPI_INIT_RATE
      /\ ((exists e,
             In e [SDE_NO_IDLE; SDE_IF_COND_ERR; SDE_CRC_ERR; SDE_OCR_ERR;
                   SDE_OP_COND_ERR; SDE_OTHER_ERR]
             /\ err (sd_spi w') = Z.lor (err (sd_spi w)) e
             /\ (flags (sd_spi w') = flags (sd_spi w)
                 \/ flags (sd_spi w')
                    = Z.lor (flags (sd_spi w)) SDF_HIGH_CAPACITY))
          \/ Z.land (flags (sd_spi w')) SDF_WRITE_PROTECTED
             = SDF_WRITE_PROTECTED)).
Proof.
  cbv zeta.
  pose proof (sdcard_init_negotiate_outcome w) as N. cbv zeta in N.
  destruct (sdcard_init_negotiate w) as [ok w1] eqn:Hn.
  cbn [fst snd] in N. destruct N as (C & F & Eok & Efail).
  destruct ok.
  - rewrite (sdcard_init_after_negotiate w w1 Hn).
    pose proof (sdcard_check_write_protect_outcome w1) as P.
    pose proof (sdcard_check_write_protect_bool w1) as B.
    cbv zeta in P. destruct P as ([Fk Ck] & Ek).
    destruct (sdcard_check_write_protect w1) as [wp w2].
    cbn [fst snd] in *.
    destruct B as [-> | ->]; cbn [Z.eqb fst snd].
    + split; [discriminate |]. intros _.
      unfold or_flags. cbn [snd sd_spi config flags].
      split; [congruence |]. right. apply land_lor_same.
    + split; [| discriminate]. intros _.
      unfold spi_set_rate, set_config, or_flags, log, bind.
      cbn [snd fst sd_spi config flags err].
      split; [rewrite Ek by reflexivity; apply Eok; reflexivity |].
      split; [reflexivity |].
      rewrite Fk. destruct F as [-> | ->]; auto.
  - rewrite (sdcard_init_before_check w w1 Hn). cbn [fst snd].
    split; [discriminate |]. intros _. split; [exact C |].
    left. destruct (Efail eq_refl) as (e & He & Ee).
    exists e. auto.
Qed.

Lemma accepted_plain expect r : accepted 0 expect r = (r =? expect).
Proof. reflexivity. Qed.

(** X19: a card that never answers go-idle with 1 makes [sdcard_init] give
    up after exactly fifty go-idle exchanges: it returns 0, adds NoIdle and
    nothing else to the error set, sets no flag, and has delayed one
    millisecond fifty times (once before clocking the card, then between
    the attempts). *)
Theorem init_no_idle (w : world) :
  (forall b x,
     fst (fst (send_command SDCMD_GO_IDLE_STATE 0 b 0 x)) <> 1) ->
  let w' := snd (sdcard_init w) in
  fst (sdcard_init w) = 0
  /\ err (sd_spi w') = Z.lor (err (sd_spi w)) SDE_NO_IDLE
  /\ flags (sd_spi w') = flags (sd_spi w)
  /\ cs_asserts w' = (cs_asserts w + 50)%nat
  /\ delays_of 1000 w' = (delays_of 1000 w + 50)%nat.
Proof.
  intros Hnever. cbv zeta.
  assert (Hn : forall b x,
             accepted 0 1
               (fst (fst (send_command SDCMD_GO_IDLE_STATE 0 b 0 x))) = false).
  { intros b x. rewrite accepted_plain. apply Z.eqb_neq, Hnever. }
  unfold sdcard_init, sdcard_init_negotiate, gpio_out_setup, spi_setup,
    set_config, udelay, tick, spi_prepare, log, or_err, bind, ret.
  cbv beta iota zeta.
  match goal with
  | |- context [clock_idle ?n ?b ?x] =>
      pose proof (proj1 (clock_idle_hw_only n b x)) as Hs;
      assert (Hc : tallies 0 0 (clock_idle n b))
        by (repeat (simpl clock_idle; tally));
      destruct (Hc x) as (C1 & _ & C3);
      destruct (clock_idle n b x) as [u w1]
  end.
  cbn [fst snd] in Hs, C1, C3.
  match goal with
  | |- context [check_command ?a ?b ?c ?d ?e ?f ?x] =>
      pose proof (check_command_exhausted a b d e Hn f c x ltac:(lia)) as X;
      pose proof (proj1 (check_command_hw_only a b c d e f x)) as Hs2;
      cbv zeta in X;
      destruct (check_command a b c d e f x) as [[ok b1] w2]
  end.
  cbn [fst snd] in X, Hs2. destruct X as (-> & X1 & _ & X3 & _).
  change (0 =? 0) with true. cbv beta iota.
  cbn [fst snd negb sd_spi err flags].
  rewrite Hs2, Hs. cbn [sd_spi err flags].
  split; [reflexivity |]. split; [reflexivity |]. split; [reflexivity |].
  unfold cs_asserts, delays_of in *. cbn [trace] in *.
  rewrite X1, X3, C1, C3. cbn [filter event_eqb_cs is_delay_of length].
  change (1000 =? 1000) with true. cbn [length]. split; lia.
Qed.

(** ** Sector addresses on a standard-capacity card *)

(** X20: with HighCapacity unset the address of a sector is a multiple of
    512 below 2^32; distinct sector indices below 2^23 get distinct
    addresses, and two indices 2^23 apart get the same address, so a
    sector index past the 4 GiB byte range lands on a lower sector. *)
Theorem sector_offset_standard (f s : Z) :
  Z.land f SDF_HIGH_CAPACITY = 0 ->
  sector_offset f s mod 512 = 0
  /\ 0 <= sector_offset f s < 4294967296
  /\ sector_offset f (s + 8388608) = sector_offset f s
  /\ (forall s',
        0 <= s < 8388608 -> 0 <= s' < 8388608 ->
        sector_offset f s = sector_offset f s' -> s = s').
Proof.
  intros H. unfold sector_offset, u32, SD_SECTOR_SIZE. rewrite H.
  change (0 =? 0) with true. cbv iota.
  split; [| split; [| split]].
  - change 4294967296 with (512 * 8388608).
    rewrite Z.mul_comm, Zmult_mod_distr_l.
    rewrite Z.mul_comm. apply Z_mod_mult.
  - apply Z.mod_pos_bound. lia.
  - replace ((s + 8388608) * 512) with (s * 512 + 1 * 4294967296) by lia.
    apply Z_mod_plus_full.
  - intros s' Hs Hs' E.
    rewrite !Z.mod_small in E by lia. lia.
Qed.

(** ** The block read drains the card *)

Lemma poll_response_polls tries cmd_buf r w :
  (1 <= length cmd_buf)%nat ->
  exists polls,
    Forall (fun e => e = EvXfer true [0xFF]) polls
    /\ (length polls <= tries)%nat
    /\ (1 <= tries -> 1 <= length polls)%nat
    /\ (1 <= length (snd (fst (poll_response tries cmd_buf r w))))%nat
    /\ trace (snd (poll_response tries cmd_buf r w)) = polls ++ trace w.
Proof.
  revert cmd_buf r w. induction tries as [|n IH]; intros cmd_buf r w Hl.
  - exists []. simpl. repeat split; try constructor; try lia.
  - simpl poll_response. cbv zeta. rewrite bind_run.
    destruct cmd_buf as [|c0 t]; [simpl in Hl; lia |].
    cbn [wr].
    pose proof (spi_transfer_trace true 1 (255 :: t) w) as T.
    destruct (spi_transfer_receive 1 (255 :: t) w) as (miso & E & L).
    destruct (spi_transfer true 1 (255 :: t) w) as [b w1].
    cbn [fst snd firstn length Nat.min] in T, E, L. subst b.
    destruct miso as [|m0 [|m1 miso]]; simpl in L; try lia.
    cbn [app skipn].
    destruct (rd (m0 :: t) 0 =? 255).
    + destruct (IH (m0 :: t) (rd (m0 :: t) 0) w1 ltac:(simpl; lia))
        as (polls & F & Ln & _ & Lb & P).
      exists (polls ++ [EvXfer true [255]]).
      rewrite length_app. cbn [length].
      split; [apply Forall_app; split; [exact F | repeat constructor] |].
      split; [lia |]. split; [lia |]. split; [exact Lb |].
      rewrite P, T, <- app_assoc. reflexivity.
    + exists [EvXfer true [255]]. cbn [fst snd ret length].
      split; [repeat constructor |]. split; [lia |]. split; [lia |].
      split; [lia | exact T].
Qed.

Lemma firstn_memset_le b v k n :
  (k <= n)%nat -> firstn k (memset b v n) = repeat v k.
Proof.
  intros H. unfold memset.
  rewrite firstn_app, repeat_length.
  replace (k - n)%nat with 0%nat by lia.
  rewrite firstn_O, app_nil_r.
  replace n with (k + (n - k))%nat at 1 by lia.
  rewrite repeat_app, firstn_app, repeat_length, Nat.sub_diag, firstn_O.
  rewrite app_nil_r. apply firstn_all2. rewrite repeat_length. lia.
Qed.

(** X21: [read_data_block] clocks the whole data phase out of the card on
    every call, whether or not the response and the start token were
    good: after the command frame it polls between one and sixteen single
    bytes for the response, polls for the start token, then reads the data
    bytes in one transfer and the two CRC bytes in another, polls for the
    end of the busy state and releases chip-select.  The data transfer is
    of [length] modulo 2^16 bytes, the transfer length being a
    [uint16_t]. *)
Theorem read_data_block_drains (cmd arg : Z) (buf : list Z) (length : Z)
    (w : world) :
  0 <= length ->
  exists polls1 polls2 polls3,
    Forall (fun e => e = EvXfer true [0xFF]) (polls1 ++ polls2 ++ polls3)
    /\ (1 <= List.length polls1 <= 16)%nat
    /\ trace (snd (read_data_block cmd arg buf length w))
       = EvCS 1 :: polls3
         ++ [EvXfer true [0xFF; 0xFF];
             EvXfer true (repeat 0xFF (Z.to_nat (length mod 65536)))]
         ++ polls2 ++ polls1
         ++ [EvXfer false (firstn 6 (populate_buffer cmd arg (repeat 0 8)));
             EvCS 0; EvPrepare]
         ++ trace w.
Proof.
  intros Hlen.
  unfold read_data_block, spi_prepare, gpio_out_write, log, bind, ret.
  cbv beta iota zeta.
  xfer_full.
  match goal with
  | |- context [poll_response ?n ?b ?r ?x] =>
      destruct (poll_response_polls n b r x) as (p1 & F1 & L1 & L1' & Lb & P1);
      [rewrite populate_buffer_length; simpl; lia |];
      destruct (poll_response n b r x) as [[r1 cb] w1]
  end.
  cbn [fst snd] in Lb, P1.
  match goal with
  | |- context [find_token ?t ?us ?x] =>
      destruct (find_token_polls t us x) as (p2 & F2 & P2);
      destruct (find_token t us x) as [found w2]
  end.
  cbn [snd] in P2.
  do 2 xfer_full.
  match goal with
  | |- context [find_token ?t ?us ?x] =>
      destruct (find_token_polls t us x) as (p3 & F3 & P3);
      destruct (find_token t us x) as [found3 w5]
  end.
  cbn [snd] in P3.
  exists p1, p2, p3.
  split; [repeat (apply Forall_app; split); assumption |].
  split; [lia |].
  unfold read_verdict, or_err, bind, ret.
  assert (Hu : (Z.to_nat (u16 length) <= Z.to_nat length)%nat).
  { unfold u16. apply Z2Nat.inj_le; [apply Z.mod_pos_bound; lia | lia |].
    apply Z.mod_le; lia. }
  rewrite (firstn_memset_le _ _ _ _ Hu) in Htr0. unfold u16 in Htr0.
  assert (H2 : firstn 2 (memset cb 255 8) = [255; 255]) by reflexivity.
  rewrite H2 in Htr1.
  repeat match goal with
         | |- context [if ?c then _ else _] => destruct c
         end;
    cbn [snd trace];
    rewrite P3, Htr1, Htr0, P2, P1, Htr; cbn [trace];
    reflexivity.
Qed.

(** ** The driver's scans and the bytes of the card

    What the polling loops and the eight-byte scans of the driver return,
    stated on the bytes the card shifts back. *)

Lemma exchange_app c l1 l2 :
  exchange c (l1 ++ l2)
  = (fst (exchange c l1) ++ fst (exchange (card_after c l1) l2),
     card_after (card_after c l1) l2).
Proof.
  unfold card_after. revert c.
  induction l1 as [|b l1 IH]; intros c; cbn [app exchange fst snd].
  - destruct (exchange c l2); reflexivity.
  - destruct (card_xfer c b) as [r c1]. rewrite (IH c1).
    destruct (exchange c1 l1) as [rs c2]. reflexivity.
Qed.

Lemma card_after_app c l1 l2 :
  card_after c (l1 ++ l2) = card_after (card_after c l1) l2.
Proof. unfold card_after at 1. rewrite exchange_app. reflexivity. Qed.

Lemma card_after_nil c : card_after c [] = c.
Proof. reflexivity. Qed.

Lemma idle_reply_S c n :
  idle_reply c (S n)
  = fst (card_xfer c 0xFF) :: idle_reply (snd (card_xfer c 0xFF)) n.
Proof.
  unfold idle_reply. cbn [repeat exchange].
  destruct (card_xfer c 255) as [r c1]. cbn [fst snd].
  destruct (exchange c1 (repeat 255 n)) as [rs c2]. reflexivity.
Qed.

Lemma card_after_idle_S c n :
  card_after c (repeat 0xFF (S n))
  = card_after (snd (card_xfer c 0xFF)) (repeat 0xFF n).
Proof.
  unfold card_after. cbn [repeat exchange].
  destruct (card_xfer c 255) as [r c1]. cbn [fst snd].
  destruct (exchange c1 (repeat 255 n)) as [rs c2]. reflexivity.
Qed.

Lemma idle_reply_length c n : length (idle_reply c n) = n.
Proof. unfold idle_reply. rewrite exchange_length. apply repeat_length. Qed.

Lemma idle_reply_add c n m :
  idle_reply c (n + m)
  = idle_reply c n ++ idle_reply (card_after c (repeat 0xFF n)) m.
Proof.
  unfold idle_reply. rewrite repeat_app, exchange_app. reflexivity.
Qed.

Lemma card_after_idle_add c n m :
  card_after c (repeat 0xFF (n + m))
  = card_after (card_after c (repeat 0xFF n)) (repeat 0xFF m).
Proof. rewrite repeat_app. apply card_after_app. Qed.

Lemma spi_transfer_card r len data w :
  card (snd (spi_transfer r len data w))
  = card_after (card w) (firstn len data).
Proof.
  unfold spi_transfer, card_after.
  destruct (exchange (card w) (firstn len data)) as [miso c]. reflexivity.
Qed.

Lemma spi_transfer_reply len data w :
  fst (spi_transfer true len data w)
  = fst (exchange (card w) (firstn len data)) ++ skipn len data.
Proof.
  unfold spi_transfer.
  destruct (exchange (card w) (firstn len data)) as [miso c]. reflexivity.
Qed.

Lemma last_cons_default (l : list Z) : forall x d, last (x :: l) d = last l x.
Proof.
  induction l as [|y l IH]; intros x d; [reflexivity |].
  change (last (x :: y :: l) d) with (last (y :: l) d).
  change (last (y :: l) x) with (last (y :: l) x).
  rewrite (IH y d), (IH y x). reflexivity.
Qed.

Lemma up_to_non_idle_cons b s :
  up_to_non_idle (b :: s)
  = if b =? 0xFF then b :: up_to_non_idle s else [b].
Proof.
  unfold up_to_non_idle. cbn [idle_prefix].
  destruct (b =? 255); reflexivity.
Qed.

Lemma up_to_token_cons token b s :
  up_to_token token (b :: s)
  = if b =? token then [b] else b :: up_to_token token s.
Proof.
  unfold up_to_token. cbn [index_of].
  destruct (b =? token); reflexivity.
Qed.

(** The response loop of [read_data_block]: it reads the card's bytes up
    to and including the first that is not 0xFF, [tries] at most, and
    returns the last one read. *)
Lemma poll_response_stream tries :
  forall b t r0 w,
    let polled := up_to_non_idle (idle_reply (card w) tries) in
    let res := poll_response tries (b :: t) r0 w in
    fst (fst res) = last polled r0
    /\ card (snd res) = card_after (card w) (repeat 0xFF (length polled))
    /\ length (snd (fst res)) = S (length t).
Proof.
  induction tries as [|n IH]; intros b t r0 w; cbv zeta.
  - cbn. repeat split; reflexivity.
  - cbn [poll_response wr]. rewrite bind_run.
    rewrite idle_reply_S, up_to_non_idle_cons.
    pose proof (spi_transfer_card true 1 (255 :: t) w) as Hc.
    pose proof (spi_transfer_reply 1 (255 :: t) w) as Hr.
    destruct (spi_transfer true 1 (255 :: t) w) as [buf1 w1].
    cbn [fst snd firstn skipn] in Hc, Hr.
    unfold card_after in Hc. cbn [exchange] in Hc, Hr.
    destruct (card_xfer (card w) 255) as [r c1] eqn:Ex.
    cbn [fst snd app] in Hc, Hr |- *. subst buf1.
    change (rd (r :: t) 0) with r.
    destruct (r =? 255).
    + destruct (IH r t r w1) as (I1 & I2 & I3). rewrite Hc in I1, I2.
      rewrite I1, I2, I3. cbn [length].
      rewrite card_after_idle_S, Ex.
      split; [symmetry; apply last_cons_default |].
      split; reflexivity.
    + cbn [fst snd ret length last]. rewrite Hc.
      split; [reflexivity |]. split; [| reflexivity].
      rewrite card_after_idle_S, Ex. reflexivity.
Qed.

Lemma poll_response_first_non_idle tries b t r0 w :
  (1 <= tries)%nat ->
  fst (fst (poll_response tries (b :: t) r0 w))
  = first_non_idle (idle_reply (card w) tries).
Proof.
  intros H. destruct (poll_response_stream tries b t r0 w) as (P & _).
  rewrite P. unfold first_non_idle.
  destruct tries as [|n]; [lia |].
  rewrite idle_reply_S, up_to_non_idle_cons.
  destruct (fst (card_xfer (card w) 255) =? 255); [| reflexivity].
  rewrite !last_cons_default. reflexivity.
Qed.

(** Polls left before the deadline, [rem] ticks away. *)
Lemma polls_left_none rem :
  0 < byte_ticks -> rem <= 0 ->
  Z.to_nat ((rem + byte_ticks - 1) / byte_ticks) = O.
Proof.
  intros Hd Hr.
  assert ((rem + byte_ticks - 1) / byte_ticks <= 0); [| lia].
  apply Z.lt_succ_r. apply Z.div_lt_upper_bound; lia.
Qed.

Lemma polls_left_some rem :
  0 < byte_ticks -> 0 < rem ->
  Z.to_nat ((rem + byte_ticks - 1) / byte_ticks)
  = S (Z.to_nat ((rem - byte_ticks + byte_ticks - 1) / byte_ticks)).
Proof.
  intros Hd Hr.
  replace (rem + byte_ticks - 1)
    with ((rem - byte_ticks + byte_ticks - 1) + 1 * byte_ticks) by lia.
  rewrite Z.div_add by lia.
  assert (0 <= (rem - byte_ticks + byte_ticks - 1) / byte_ticks)
    by (apply Z.div_pos; lia).
  lia.
Qed.

(** The loop of [find_token]: it reads the card's bytes up to and
    including the first [token], as many as start before the deadline at
    most, and returns 1 exactly when it met the token. *)
Lemma find_token_loop_stream token now0 T :
  0 < byte_ticks <= 2147483648 -> T <= 2147483648 ->
  forall (n fuel : nat) (w : world),
    0 <= now w - now0 < T + byte_ticks ->
    n = Z.to_nat ((T - (now w - now0) + byte_ticks - 1) / byte_ticks) ->
    (n < fuel)%nat ->
    let scanned := up_to_token token (idle_reply (card w) n) in
    let res := find_token_loop fuel token (u32 (u32 now0 + T)) w in
    (fst res = 1 <-> In token scanned)
    /\ card (snd res) = card_after (card w) (repeat 0xFF (length scanned)).
Proof.
  intros Hd HT n. induction n as [|n IH]; intros fuel w He Hn Hf;
    (destruct fuel as [|fuel]; [lia |]); cbv zeta;
    cbn [find_token_loop]; rewrite bind_run; unfold timer_read_time.
  - assert (G : T <= now w - now0).
    { destruct (Z.lt_ge_cases (now w - now0) T) as [L|G]; [| lia].
      rewrite (polls_left_some (T - (now w - now0))) in Hn by lia.
      discriminate. }
    pose proof (timer_is_before_elapsed now0 (now w - now0) T
                  ltac:(lia)) as Hx.
    replace (now0 + (now w - now0)) with (now w) in Hx by lia.
    rewrite Hx. cbn.
    split; [split; [discriminate | contradiction] | reflexivity].
  - assert (L : now w - now0 < T).
    { destruct (Z.lt_ge_cases (now w - now0) T) as [L|G]; [lia |].
      rewrite (polls_left_none (T - (now w - now0))) in Hn by lia.
      discriminate. }
    pose proof (timer_is_before_pending now0 (now w - now0) T
                  ltac:(lia) HT) as Hx.
    replace (now0 + (now w - now0)) with (now w) in Hx by lia.
    rewrite Hx. rewrite bind_run.
    rewrite idle_reply_S, up_to_token_cons.
    pose proof (spi_transfer_card true 1 [255] w) as Hc.
    pose proof (spi_transfer_reply 1 [255] w) as Hr.
    pose proof (spi_transfer_one_now true 255 w) as Hnow.
    destruct (spi_transfer true 1 [255] w) as [buf1 w1].
    cbn [fst snd firstn skipn] in Hc, Hr, Hnow.
    unfold card_after in Hc. cbn [exchange] in Hc, Hr.
    destruct (card_xfer (card w) 255) as [r c1] eqn:Ex.
    cbn [fst snd app] in Hc, Hr |- *. subst buf1.
    change (rd [r] 0) with r.
    destruct (Z.eqb_spec r token) as [E|E].
    + cbn [fst snd ret length]. rewrite Hc, card_after_idle_S, Ex.
      split; [split; [intros _; left; exact E | reflexivity] |].
      reflexivity.
    + rewrite (polls_left_some (T - (now w - now0))) in Hn by lia.
      injection Hn as Hn.
      destruct (IH fuel w1) as (I1 & I2).
      * rewrite Hnow. lia.
      * rewrite Hn, Hnow. do 3 f_equal. lia.
      * lia.
      * rewrite Hc in I1, I2. rewrite I1, I2. cbn [length].
        split; [| rewrite card_after_idle_S, Ex; reflexivity].
        split; [intros H; right; exact H |].
        intros [H|H]; [contradiction | exact H].
Qed.

Lemma find_token_stream token timeout_us w :
  0 < byte_ticks <= 2147483648 ->
  timer_from_us timeout_us <= 2147483648 ->
  let scanned :=
    up_to_token token (idle_reply (card w) (polls_allowed timeout_us)) in
  let res := find_token token timeout_us w in
  (fst res = 1 <-> In token scanned)
  /\ card (snd res) = card_after (card w) (repeat 0xFF (length scanned)).
Proof.
  intros Hd HT. cbv zeta.
  unfold find_token. rewrite bind_run. unfold timer_read_time.
  assert (H0 : 0 <= timer_from_us timeout_us < 4294967296)
    by (unfold timer_from_us, u32; apply Z.mod_pos_bound; lia).
  apply (find_token_loop_stream token (now w) (timer_from_us timeout_us)
           Hd HT).
  - lia.
  - unfold polls_allowed. do 3 f_equal. lia.
  - unfold polls_allowed.
    assert ((timer_from_us timeout_us + byte_ticks - 1) / byte_ticks
            <= timer_from_us timeout_us); [| lia].
    apply Z.lt_succ_r. apply Z.div_lt_upper_bound; nia.
Qed.

(** The scan of eight received bytes in [sdcard_write_sector]. *)
Lemma first_response_non_idle l : forall i,
  match first_response l i with
  | None => 0xFF
  | Some (_, r) => r
  end = first_non_idle l.
Proof.
  unfold first_non_idle.
  induction l as [|b l IH]; intros i; [reflexivity |].
  cbn [first_response]. rewrite up_to_non_idle_cons.
  destruct (Z.eqb_spec b 255) as [E|E]; [| reflexivity].
  rewrite IH, last_cons_default. subst b. reflexivity.
Qed.

Lemma response_byte_non_idle cmd_buf :
  response_byte cmd_buf = first_non_idle (firstn 8 cmd_buf).
Proof. unfold response_byte. apply first_response_non_idle. Qed.

(** ** The block read, on the bytes of the card *)

Lemma recd_crc_app (x y : list Z) :
  length x = 2%nat -> recd_crc (x ++ y) = recd_crc x.
Proof.
  intros H. destruct x as [|a [|b [|c x]]]; try discriminate. reflexivity.
Qed.

Lemma calc_crc16_firstn data n :
  calc_crc16 (firstn n data) n = calc_crc16 data n.
Proof. unfold calc_crc16. rewrite firstn_firstn, Nat.min_id. reflexivity. Qed.

Lemma firstn_app_exact (x y : list Z) n :
  length x = n -> firstn n (x ++ y) = x.
Proof.
  intros <-. rewrite firstn_app, Nat.sub_diag, firstn_O, app_nil_r.
  apply firstn_all.
Qed.

(** C1: let the card answer the filler bytes that follow the command
    frame of [read_data_block] with the bytes [idle_reply] lists.  With a
    byte time between one tick and 2^31 ticks and a 50 ms timeout of at
    most 2^31 ticks, [read_data_block] returns 1 exactly when
    - the first byte other than 0xFF among the sixteen bytes polled after
      the frame is 0 (polling stops at that byte),
    - the start token 0xFE is among the bytes the card sends next, as
      many as are polled before the 50 ms deadline, and
    - the CRC16 recomputed over the data bytes that follow the token
      equals the two bytes sent after them;
    otherwise it returns 0.  A trailer that differs makes it return 0 with
    CrcErr in the error set, whatever the response and the start token
    were; the two bytes compared are read high byte first, so that a card
    that sends the CRC16 of its data that way passes the comparison.  The
    bytes returned are the data bytes of the card, and
    [sdcard_read_sector] is this function behind the not-ready guard. *)
Theorem read_data_block_verdict (cmd arg : Z) (buf : list Z) (length : Z)
    (sector : Z) (w : world) :
  0 < byte_ticks <= 2147483648 ->
  timer_from_us 50000 <= 2147483648 ->
  0 <= length ->
  let frame := firstn 6 (populate_buffer cmd arg (repeat 0 8)) in
  let c0 := card_after (card w) frame in
  let polled := up_to_non_idle (idle_reply c0 16) in
  let response := first_non_idle (idle_reply c0 16) in
  let c1 := card_after c0 (repeat 0xFF (List.length polled)) in
  let scanned := up_to_token 0xFE (idle_reply c1 (polls_allowed 50000)) in
  let c2 := card_after c1 (repeat 0xFF (List.length scanned)) in
  let n := Z.to_nat (u16 length) in
  let data := idle_reply c2 n in
  let trailer := idle_reply (card_after c2 (repeat 0xFF n)) 2 in
  let crc := calc_crc16 data n in
  let '((r, out), w') := read_data_block cmd arg buf length w in
  firstn n out = data
  /\ (r = 1 <-> response = 0 /\ In 0xFE scanned /\ recd_crc trailer = crc)
  /\ (r = 0 \/ r = 1)
  /\ (recd_crc trailer <> crc ->
      r = 0 /\ Z.land (err (sd_spi w')) SDE_CRC_ERR = SDE_CRC_ERR)
  /\ (response = 0 -> In 0xFE scanned ->
      trailer = [Z.land (Z.shiftr crc 8) 0xFF; Z.land crc 0xFF] ->
      r = 1)
  /\ sdcard_read_sector buf sector w
     = (if Z.land (flags (sd_spi w)) SDF_INITIALIZED =? 0
        then ((255, buf), w)
        else read_data_block SDCMD_READ_SINGLE_BLOCK
               (sector_offset (flags (sd_spi w)) sector) buf
               SD_SECTOR_SIZE w).
Proof.
  intros Hd HT Hlen.
  destruct (read_run_verdict cmd arg buf length sector w) as [Hsec H].
  revert H.
  pose proof (populate_buffer_length cmd arg (repeat 0 8)) as Hpl.
  destruct (populate_buffer cmd arg (repeat 0 8)) as [|b t];
    [discriminate Hpl |].
  intros H frame c0 polled response c1 scanned c2 n data trailer crc.
  revert H.
  unfold spi_prepare, gpio_out_write, log, bind, ret.
  cbv beta iota zeta.
  match goal with
  | |- context [spi_transfer false 6 ?f ?x] =>
      pose proof (spi_transfer_card false 6 f x) as Hc0;
      pose proof (spi_transfer_send 6 f x) as Hb0;
      destruct (spi_transfer false 6 f x) as [cmd_buf1 w1]
  end.
  cbn [fst snd card] in Hc0, Hb0. subst cmd_buf1.
  change (card w1 = c0) in Hc0.
  pose proof (poll_response_first_non_idle 16 b t 0 w1 ltac:(lia)) as P1.
  pose proof (poll_response_stream 16 b t 0 w1) as (_ & P2 & _).
  destruct (poll_response 16 (b :: t) 0 w1) as [[resp0 cmd_buf2] w2].
  cbn [fst snd] in P1, P2. rewrite Hc0 in P1, P2.
  change (resp0 = response) in P1. change (card w2 = c1) in P2.
  pose proof (find_token_stream 254 50000 w2 Hd HT) as (F1 & F2).
  pose proof (find_token_bool 254 50000 w2) as Fb.
  destruct (find_token 254 50000 w2) as [found w3].
  cbn [fst snd] in F1, F2, Fb. rewrite P2 in F1, F2.
  change (found = 1 <-> In 254 scanned) in F1. change (card w3 = c2) in F2.
  assert (Hn : (n <= Z.to_nat length)%nat).
  { unfold n, u16. pose proof (Z.mod_le length 65536 Hlen ltac:(lia)). lia. }
  fold n.
  match goal with
  | |- context [spi_transfer true n ?f w3] =>
      pose proof (spi_transfer_card true n f w3) as Hc3;
      pose proof (spi_transfer_reply n f w3) as Hb3;
      destruct (spi_transfer true n f w3) as [data_buf w4]
  end.
  cbn [fst snd] in Hc3, Hb3.
  rewrite (firstn_memset_le buf 255 _ _ Hn), F2 in Hc3, Hb3.
  change (data_buf = data ++ skipn n (memset buf 255 (Z.to_nat length)))
    in Hb3.
  match goal with
  | |- context [spi_transfer true 2 ?f w4] =>
      pose proof (spi_transfer_card true 2 f w4) as Hc4;
      pose proof (spi_transfer_reply 2 f w4) as Hb4;
      destruct (spi_transfer true 2 f w4) as [trailer_buf w5]
  end.
  cbn [fst snd] in Hc4, Hb4.
  rewrite (firstn_memset_le cmd_buf2 255 2 8 ltac:(lia)), Hc3 in Hb4.
  change (trailer_buf = trailer ++ skipn 2 (memset cmd_buf2 255 8)) in Hb4.
  destruct (read_data_block cmd arg buf length w) as [[r out] w'].
  intros (Ho & Hiff & Hbool & Hcrc).
  assert (Ld : List.length data = n) by apply idle_reply_length.
  assert (Lt : List.length trailer = 2%nat) by apply idle_reply_length.
  assert (Ec : calc_crc16 data_buf n = crc).
  { rewrite <- calc_crc16_firstn, Hb3, (firstn_app_exact _ _ _ Ld).
    reflexivity. }
  assert (Er : recd_crc trailer_buf = recd_crc trailer).
  { rewrite Hb4. apply recd_crc_app, Lt. }
  rewrite Ec, Er in Hiff, Hcrc. subst resp0 out.
  split; [rewrite Hb3; apply firstn_app_exact, Ld |].
  split; [tauto |].
  split; [exact Hbool |]. split; [exact Hcrc |]. split; [| exact Hsec].
  intros Hr0 Hin Htr. apply Hiff.
  split; [exact Hr0 |]. split; [apply F1, Hin |].
  rewrite Htr. unfold recd_crc, rd. cbn [nth].
  apply be16_roundtrip, calc_crc16_range.
Qed.

(** ** The sector write, on the bytes of the card *)

Lemma wr_length (l : list Z) : forall i v, length (wr l i v) = length l.
Proof. induction l as [|x l IH]; intros [|i] v; simpl; auto. Qed.

Lemma firstn_wr_0 (l : list Z) v :
  (1 <= length l)%nat -> firstn 1 (wr l 0 v) = [v].
Proof. destruct l as [|x l]; simpl; [lia | reflexivity]. Qed.

Lemma firstn_wr_0_1 (l : list Z) a b :
  (2 <= length l)%nat -> firstn 2 (wr (wr l 0 a) 1 b) = [a; b].
Proof. destruct l as [|x [|y l]]; simpl; try lia. reflexivity. Qed.

Lemma spi_transfer_reply_length len data w :
  length (fst (spi_transfer true len data w)) = length data.
Proof.
  rewrite spi_transfer_reply, length_app, exchange_length, length_firstn,
    length_skipn.
  lia.
Qed.

(** C5: let the card answer the filler bytes with the bytes [idle_reply]
    lists, and let the call of [sdcard_write_sector] reach the data
    exchange: Initialized is set and one of the eight bytes read after the
    command frame is not 0xFF.  The driver then sends the start token, 512
    data bytes and their CRC16 and reads eight bytes; the data-response
    token is the first of these eight that is not 0xFF, and 0xFF when
    there is none.  With a byte time between one tick and 2^31 ticks and a
    50 ms timeout of at most 2^31 ticks, the call returns 1 exactly when
    the low five bits of that token are 0b00101 and a byte 0xFF is among
    the bytes the card sends next, as many as are polled before the 50 ms
    deadline; in every other case it returns 0 with WriteErr in the error
    set.  A successful call leaves the error set as it was. *)
Theorem write_sector_verdict (buf : list Z) (sector : Z) (w : world) :
  0 < byte_ticks <= 2147483648 ->
  timer_from_us 50000 <= 2147483648 ->
  initialized w ->
  let offset := sector_offset (flags (sd_spi w)) sector in
  let crc := calc_crc16 buf (Z.to_nat SD_SECTOR_SIZE) in
  let frame :=
    firstn 6 (populate_buffer SDCMD_WRITE_BLOCK offset (repeat 0 8)) in
  let c0 := card_after (card w) frame in
  first_non_idle (idle_reply c0 8) <> 0xFF ->
  let c1 := card_after c0 (repeat 0xFF 8) in
  let block :=
    [0xFE] ++ firstn (Z.to_nat SD_SECTOR_SIZE) buf
    ++ [Z.land (Z.shiftr crc 8) 0xFF; Z.land crc 0xFF] in
  let c2 := card_after c1 block in
  let token := first_non_idle (idle_reply c2 8) in
  let c3 := card_after c2 (repeat 0xFF 8) in
  let scanned := up_to_token 0xFF (idle_reply c3 (polls_allowed 50000)) in
  let '(r, w') := sdcard_write_sector buf sector w in
  (r = 1 <-> Z.land token 0x1F = 5 /\ In 0xFF scanned)
  /\ (r = 0 \/ r = 1)
  /\ (r = 0 -> Z.land (err (sd_spi w')) SDE_WRITE_ERR = SDE_WRITE_ERR)
  /\ (r = 1 -> err (sd_spi w') = err (sd_spi w)).
Proof.
  intros Hd HT Hi.
  pose proof (write_run_verdict buf sector w Hi) as H. revert H.
  pose proof (populate_buffer_length SDCMD_WRITE_BLOCK
                (sector_offset (flags (sd_spi w)) sector) (repeat 0 8))
    as Hpl.
  set (pb := populate_buffer SDCMD_WRITE_BLOCK
               (sector_offset (flags (sd_spi w)) sector) (repeat 0 8)) in *.
  intros H offset crc frame c0 Hreach c1 block c2 token c3 scanned.
  revert H.
  unfold spi_prepare, gpio_out_write, log, bind, ret.
  cbv beta iota zeta.
  match goal with
  | |- context [spi_transfer false 6 ?f ?x] =>
      pose proof (spi_transfer_card false 6 f x) as Hc0;
      pose proof (spi_transfer_send 6 f x) as Hb0;
      destruct (spi_transfer false 6 f x) as [cmd_buf0 w0]
  end.
  cbn [fst snd card] in Hc0, Hb0. subst cmd_buf0.
  change (card w0 = c0) in Hc0.
  match goal with
  | |- context [spi_transfer true 8 ?f w0] =>
      pose proof (spi_transfer_card true 8 f w0) as Hc1;
      pose proof (spi_transfer_reply 8 f w0) as Hb1;
      pose proof (spi_transfer_reply_length 8 f w0) as Hl1;
      destruct (spi_transfer true 8 f w0) as [cmd_buf w1]
  end.
  cbn [fst snd] in Hc1, Hb1, Hl1.
  rewrite firstn_memset, Hc0 in Hc1, Hb1.
  rewrite memset_length in Hl1.
  change (card w1 = c1) in Hc1.
  assert (Hrb : response_byte cmd_buf = first_non_idle (idle_reply c0 8)).
  { rewrite response_byte_non_idle, Hb1.
    unfold idle_reply. rewrite firstn_app_exact; [reflexivity |].
    rewrite exchange_length. apply repeat_length. }
  rewrite Hrb. intros H. specialize (H Hreach). revert H.
  match goal with
  | |- context [spi_transfer false 1 ?f w1] =>
      pose proof (spi_transfer_card false 1 f w1) as Hc2;
      pose proof (spi_transfer_send 1 f w1) as Hb2;
      destruct (spi_transfer false 1 f w1) as [cmd_buf2 w2]
  end.
  cbn [fst snd] in Hc2, Hb2. subst cmd_buf2.
  rewrite firstn_wr_0, Hc1 in Hc2 by lia.
  match goal with
  | |- context [spi_transfer false ?n buf w2] =>
      pose proof (spi_transfer_card false n buf w2) as Hc3;
      destruct (spi_transfer false n buf w2) as [buf3 w3]
  end.
  cbn [fst snd] in Hc3. rewrite Hc2 in Hc3.
  match goal with
  | |- context [spi_transfer false 2 ?f w3] =>
      pose proof (spi_transfer_card false 2 f w3) as Hc4;
      pose proof (spi_transfer_send 2 f w3) as Hb4;
      destruct (spi_transfer false 2 f w3) as [cmd_buf4 w4]
  end.
  cbn [fst snd] in Hc4, Hb4. subst cmd_buf4.
  rewrite firstn_wr_0_1, Hc3 in Hc4 by (rewrite wr_length; lia).
  rewrite <- !card_after_app in Hc4.
  change (card w4 = c2) in Hc4.
  match goal with
  | |- context [spi_transfer true 8 ?f w4] =>
      pose proof (spi_transfer_card true 8 f w4) as Hc5;
      pose proof (spi_transfer_reply 8 f w4) as Hb5;
      destruct (spi_transfer true 8 f w4) as [token_buf w5]
  end.
  cbn [fst snd] in Hc5, Hb5.
  rewrite firstn_memset, Hc4 in Hc5, Hb5.
  change (card w5 = c3) in Hc5.
  assert (Htk : response_byte token_buf = token).
  { rewrite response_byte_non_idle, Hb5.
    unfold token, idle_reply. rewrite firstn_app_exact; [reflexivity |].
    rewrite exchange_length. apply repeat_length. }
  rewrite Htk.
  pose proof (find_token_stream 255 50000 w5 Hd HT) as (F1 & _).
  destruct (find_token 255 50000 w5) as [released w6].
  cbn [fst snd] in F1. rewrite Hc5 in F1.
  change (released = 1 <-> In 255 scanned) in F1.
  destruct (sdcard_write_sector buf sector w) as [r w'].
  intros (Hiff & Hrest). split; [tauto | exact Hrest].
Qed.

(** ** The retry loop, attempt by attempt *)

Lemma attempt_O cmd arg fl buf w :
  attempt cmd arg fl 0 buf w = send_command cmd arg buf fl w.
Proof. reflexivity. Qed.

Lemma attempt_S cmd arg fl k buf w :
  attempt cmd arg fl (S k) buf w
  = attempt cmd arg fl k (snd (fst (send_command cmd arg buf fl w)))
      (snd (udelay 1000 (snd (send_command cmd arg buf fl w)))).
Proof.
  unfold attempt. cbn [after_failures].
  destruct (send_command cmd arg buf fl w) as [[r buf1] w1]. reflexivity.
Qed.

Lemma attempt_tallies cmd arg fl k : forall buf w,
  let w' := snd (attempt cmd arg fl k buf w) in
  cs_asserts w' = (cs_asserts w + S k)%nat
  /\ delays w' = (delays w + k)%nat
  /\ delays_of 1000 w' = (delays_of 1000 w + k)%nat
  /\ hd_error (trace w') = Some (EvCS 1).
Proof.
  induction k as [|k IH]; intros buf w; cbv zeta.
  - rewrite attempt_O.
    pose proof (send_command_tallies cmd arg buf fl w) as (T1 & T2 & T3).
    pose proof (send_command_ends cmd arg buf fl w) as Hend.
    rewrite T1, T2, T3. repeat split; try lia. exact Hend.
  - rewrite attempt_S.
    pose proof (send_command_tallies cmd arg buf fl w) as (T1 & T2 & T3).
    destruct (send_command cmd arg buf fl w) as [[r buf1] w1].
    cbn [fst snd] in *.
    pose proof (tallies_udelay_1ms w1) as (U1 & U2 & U3).
    destruct (IH buf1 (snd (udelay 1000 w1))) as (I1 & I2 & I3 & I4).
    rewrite I1, I2, I3, I4, U1, U2, U3, T1, T2, T3.
    repeat split; lia.
Qed.

Lemma check_command_accepted_at cmd arg fl expect (k : nat) :
  forall (n : nat) (buf : list Z) (w : world),
    (k < n)%nat ->
    (forall j, (j < k)%nat ->
       accepted fl expect (fst (fst (attempt cmd arg fl j buf w))) = false) ->
    accepted fl expect (fst (fst (attempt cmd arg fl k buf w))) = true ->
    check_command cmd arg buf fl expect n w
    = ((1, snd (fst (attempt cmd arg fl k buf w))),
       snd (attempt cmd arg fl k buf w)).
Proof.
  induction k as [|k IH]; intros n buf w Hn Hrej Hacc;
    (destruct n as [|n]; [lia |]); rewrite check_command_step.
  - rewrite attempt_O in *.
    destruct (send_command cmd arg buf fl w) as [[r buf1] w1].
    cbn [fst snd] in *. rewrite Hacc. reflexivity.
  - pose proof (Hrej 0%nat ltac:(lia)) as H0. rewrite attempt_O in H0.
    rewrite attempt_S in Hacc. rewrite attempt_S.
    assert (Hrej' : forall j, (j < k)%nat ->
              accepted fl expect
                (fst (fst (attempt cmd arg fl j
                             (snd (fst (send_command cmd arg buf fl w)))
                             (snd (udelay 1000
                                     (snd (send_command cmd arg buf fl w)))))))
              = false).
    { intros j Hj. rewrite <- attempt_S. apply Hrej. lia. }
    destruct (send_command cmd arg buf fl w) as [[r buf1] w1].
    cbn [fst snd] in *. rewrite H0.
    destruct n as [|n]; [lia |].
    apply IH; [lia | exact Hrej' | exact Hacc].
Qed.

Lemma check_command_rejected_all cmd arg fl expect (n : nat) :
  forall (buf : list Z) (w : world),
    (forall j, (j <= n)%nat ->
       accepted fl expect (fst (fst (attempt cmd arg fl j buf w))) = false) ->
    check_command cmd arg buf fl expect (S n) w
    = ((0, snd (fst (attempt cmd arg fl n buf w))),
       snd (attempt cmd arg fl n buf w)).
Proof.
  induction n as [|n IH]; intros buf w Hrej; rewrite check_command_step;
    pose proof (Hrej 0%nat ltac:(lia)) as H0; rewrite attempt_O in H0.
  - rewrite attempt_O.
    destruct (send_command cmd arg buf fl w) as [[r buf1] w1].
    cbn [fst snd] in *. rewrite H0. reflexivity.
  - rewrite attempt_S.
    assert (Hrej' : forall j, (j <= n)%nat ->
              accepted fl expect
                (fst (fst (attempt cmd arg fl j
                             (snd (fst (send_command cmd arg buf fl w)))
                             (snd (udelay 1000
                                     (snd (send_command cmd arg buf fl w)))))))
              = false).
    { intros j Hj. rewrite <- attempt_S. apply Hrej. lia. }
    destruct (send_command cmd arg buf fl w) as [[r buf1] w1].
    cbn [fst snd] in *. rewrite H0.
    apply IH. exact Hrej'.
Qed.

(** C6: when no command exchange satisfies the selected success test,
    [check_command] with [max_attempts >= 1] makes exactly [max_attempts]
    exchanges (one assertion of chip-select each), delays exactly
    [max_attempts - 1] times, each time by 1000 microseconds, ends on the
    release of chip-select of its last exchange (no delay follows it) and
    returns 0.  When the exchanges of a run are told apart, [attempt k]
    being exchange number [k] (from 0) with the delay after each earlier
    one: if exchange [k < max_attempts] is the first that satisfies the
    test, [check_command] returns 1 in the very world that exchange left,
    after [k + 1] exchanges and [k] delays of 1000 microseconds and with
    nothing after the release of chip-select; and if none of the
    [max_attempts] exchanges of the run satisfies it, [check_command]
    returns 0 in the world the last exchange left.  The success test on a
    response is equality with the expected byte, or difference from it
    when the flag CF_NOT_EXPECT is given. *)
Theorem check_command_attempts (cmd arg fl expect : Z) :
  (forall (max_attempts : nat) (buf : list Z) (w : world),
     (1 <= max_attempts)%nat ->
     (forall b x,
        accepted fl expect (fst (fst (send_command cmd arg b fl x))) = false) ->
     let w' := snd (check_command cmd arg buf fl expect max_attempts w) in
     fst (fst (check_command cmd arg buf fl expect max_attempts w)) = 0
     /\ cs_asserts w' = (cs_asserts w + max_attempts)%nat
     /\ delays w' = (delays w + (max_attempts - 1))%nat
     /\ delays_of 1000 w' = (delays_of 1000 w + (max_attempts - 1))%nat
     /\ hd_error (trace w') = Some (EvCS 1))
  /\ (forall (max_attempts k : nat) (buf : list Z) (w : world),
        (k < max_attempts)%nat ->
        (forall j, (j < k)%nat ->
           accepted fl expect (fst (fst (attempt cmd arg fl j buf w)))
           = false) ->
        accepted fl expect (fst (fst (attempt cmd arg fl k buf w))) = true ->
        let w' := snd (check_command cmd arg buf fl expect max_attempts w) in
        check_command cmd arg buf fl expect max_attempts w
        = ((1, snd (fst (attempt cmd arg fl k buf w))),
           snd (attempt cmd arg fl k buf w))
        /\ cs_asserts w' = (cs_asserts w + S k)%nat
        /\ delays w' = (delays w + k)%nat
        /\ delays_of 1000 w' = (delays_of 1000 w + k)%nat
        /\ hd_error (trace w') = Some (EvCS 1))
  /\ (forall (max_attempts : nat) (buf : list Z) (w : world),
        (1 <= max_attempts)%nat ->
        (forall j, (j < max_attempts)%nat ->
           accepted fl expect (fst (fst (attempt cmd arg fl j buf w)))
           = false) ->
        check_command cmd arg buf fl expect max_attempts w
        = ((0, snd (fst (attempt cmd arg fl (max_attempts - 1) buf w))),
           snd (attempt cmd arg fl (max_attempts - 1) buf w)))
  /\ (forall r : Z,
        accepted fl expect r = true
        <-> (Z.land fl CF_NOT_EXPECT = 0 /\ r = expect)
            \/ (Z.land fl CF_NOT_EXPECT <> 0 /\ r <> expect)).
Proof.
  split; [| split; [| split]].
  - intros n buf w Hn Hnever. apply check_command_exhausted; assumption.
  - intros n k buf w Hk Hrej Hacc. cbv zeta.
    rewrite (check_command_accepted_at cmd arg fl expect k n buf w
               Hk Hrej Hacc).
    cbn [snd]. split; [reflexivity |].
    apply (attempt_tallies cmd arg fl k buf w).
  - intros n buf w Hn Hrej. destruct n as [|n]; [lia |].
    replace (S n - 1)%nat with n by lia.
    apply check_command_rejected_all. intros j Hj. apply Hrej. lia.
  - intros r. unfold accepted.
    destruct (Z.eqb_spec (Z.land fl CF_NOT_EXPECT) 0) as [E|E];
      destruct (Z.eqb_spec r expect) as [R|R]; cbn [negb];
      intuition (try discriminate; try congruence).
Qed.
End Properties.

(** * The theorems at concrete cards *)

Lemma read_data_block_crc_example :
  let w := ready 0xC0 (idle 6 ++ [0; 0xFE] ++ repeat 0x5A 512 ++ [0; 0]) in
  fst (fst (sdcard_read_sector (repeat 0 512) 3 w)) = 0
  /\ Z.land (err (sd_spi (snd (sdcard_read_sector (repeat 0 512) 3 w))))
            SDE_CRC_ERR = SDE_CRC_ERR.
Proof. vm_compute. split; reflexivity. Qed.

Lemma read_data_block_verdict_witness :
  let d := repeat 0x5A 512 in
  let w := ready 0xC0 (idle 6 ++ idle 10 ++ [0; 0xFE] ++ d ++ crc_bytes d) in
  let res := read_data_block SDCMD_READ_SINGLE_BLOCK 3 (repeat 0 512)
               SD_SECTOR_SIZE w in
  0 < @byte_ticks scripted <= 2147483648
  /\ @timer_from_us scripted 50000 <= 2147483648
  /\ 0 <= SD_SECTOR_SIZE
  /\ fst (fst res) = 1
  /\ firstn 512 (snd (fst res)) = d.
Proof.
  cbv zeta.
  assert (Hd : 0 < @byte_ticks scripted <= 2147483648) by (cbn; lia).
  assert (HT : @timer_from_us scripted 50000 <= 2147483648)
    by (vm_compute; discriminate).
  assert (Hl : 0 <= SD_SECTOR_SIZE) by (unfold SD_SECTOR_SIZE; lia).
  split; [exact Hd |]. split; [exact HT |]. split; [exact Hl |].
  pose proof (@read_data_block_verdict scripted SDCMD_READ_SINGLE_BLOCK 3
                (repeat 0 512) SD_SECTOR_SIZE 3
                (ready 0xC0 (idle 6 ++ idle 10 ++ [0; 0xFE]
                             ++ repeat 0x5A 512
                             ++ crc_bytes (repeat 0x5A 512)))
                Hd HT Hl) as H.
  cbv zeta in H.
  destruct (read_data_block SDCMD_READ_SINGLE_BLOCK 3 (repeat 0 512)
              SD_SECTOR_SIZE
              (ready 0xC0 (idle 6 ++ idle 10 ++ [0; 0xFE]
                           ++ repeat 0x5A 512
                           ++ crc_bytes (repeat 0x5A 512))))
    as [[r out] w'].
  destruct H as (Hdata & Hiff & _).
  cbn [fst snd]. split.
  - apply (proj2 Hiff). vm_compute.
    split; [reflexivity |]. split; [| reflexivity].
    left. reflexivity.
  - etransitivity; [exact Hdata |]. vm_compute. reflexivity.
Defined.

(** The card answers 0 only after sixteen idle bytes and then sends the
    start token, the data and the matching CRC16.  The first byte other
    than 0xFF that the card sends after the frame is 0, the start token is
    met within the timeout and the CRC matches, yet the read fails: the
    sixteen polls of the response loop saw idle bytes only. *)
Lemma response_after_sixteen_polls :
  let d := repeat 0x5A 512 in
  let w := ready 0xC0 (idle 6 ++ idle 16 ++ [0; 0xFE] ++ d ++ crc_bytes d) in
  let c0 := card_after (card w)
              (firstn 6 (populate_buffer SDCMD_READ_SINGLE_BLOCK 3
                           (repeat 0 8))) in
  let res := read_data_block SDCMD_READ_SINGLE_BLOCK 3 (repeat 0 512)
               SD_SECTOR_SIZE w in
  idle_reply c0 532 = idle 16 ++ [0; 0xFE] ++ d ++ crc_bytes d
  /\ first_non_idle (idle_reply c0 532) = 0
  /\ first_non_idle (idle_reply c0 16) = 0xFF
  /\ up_to_token 0xFE
       (idle_reply (card_after c0 (repeat 0xFF 16)) (@polls_allowed scripted 50000))
     = [0; 0xFE]
  /\ firstn 512 (snd (fst res)) = d
  /\ recd_crc (crc_bytes d) = calc_crc16 d 512
  /\ fst (fst res) = 0
  /\ sdcard_read_sector (repeat 0 512) 3 w = res
  /\ err (sd_spi (snd res)) = SDE_READ_ERR
  /\ ~ (fst (fst res) = 1 <->
        first_non_idle (idle_reply c0 532) = 0
        /\ In 0xFE
             (up_to_token 0xFE
                (idle_reply (card_after c0 (repeat 0xFF 16))
                   (@polls_allowed scripted 50000)))
        /\ recd_crc (crc_bytes d) = calc_crc16 d 512).
Proof.
  vm_compute. repeat split; try reflexivity.
  intros [_ H]. discriminate H.
  split; [reflexivity |]. split; [| reflexivity].
  right. left. reflexivity.
Qed.

Lemma read_sector_example :
  let w := ready 0xC0 (data_block (repeat 0x5A 512)) in
  fst (sdcard_read_sector (repeat 0 512) 3 w) = (1, repeat 0x5A 512)
  /\ err (sd_spi (snd (sdcard_read_sector (repeat 0 512) 3 w))) = 0.
Proof. vm_compute. split; reflexivity. Qed.

(** The standard-capacity card of [ready] addresses sector 2^23 at offset
    0, not at 2^23 * 512. *)
Lemma offset_wraps_at_2_23 :
  let w := ready 0x80 (write_script 0xE5) in
  initialized w
  /\ Z.land (flags (sd_spi w)) SDF_HIGH_CAPACITY = 0
  /\ addressed w (snd (sdcard_write_sector (repeat 0 512) 8388608 w))
     = Some (SDCMD_WRITE_BLOCK, 0)
  /\ addressed w (snd (sdcard_write_sector (repeat 0 512) 8388608 w))
     <> Some (SDCMD_WRITE_BLOCK, 8388608 * 512).
Proof.
  vm_compute. repeat split; try discriminate; reflexivity.
Qed.

Lemma sector_address_witness :
  addressed (ready 0x80 (write_script 0xE5))
    (snd (sdcard_write_sector (repeat 0 512) 5 (ready 0x80 (write_script 0xE5))))
  = Some (SDCMD_WRITE_BLOCK, 2560)
  /\ addressed (ready 0xC0 (write_script 0xE5))
       (snd (sdcard_write_sector (repeat 0 512) 5
               (ready 0xC0 (write_script 0xE5))))
     = Some (SDCMD_WRITE_BLOCK, 5).
Proof.
  split.
  - refine (proj1 (@sector_address scripted (repeat 0 512) 5
                     (ready 0x80 (write_script 0xE5)) _ _)).
    + vm_compute. discriminate.
    + lia.
  - refine (proj1 (@sector_address scripted (repeat 0 512) 5
                     (ready 0xC0 (write_script 0xE5)) _ _)).
    + vm_compute. discriminate.
    + lia.
Defined.

(** A write to a card that stopped answering adds WriteErr to the error
    set, and a read adds CrcErr and ReadErr. *)
Lemma transfers_add_error_bits :
  let w := ready 0xC0 [] in
  err (sd_spi w) = 0
  /\ err (sd_spi (snd (sdcard_write_sector (repeat 0 512) 0 w)))
     = SDE_WRITE_ERR
  /\ err (sd_spi (snd (sdcard_read_sector (repeat 0 512) 0 w)))
     = Z.lor SDE_CRC_ERR SDE_READ_ERR
  /\ err (sd_spi (run_op (OpWrite (repeat 0 512) 0) w)) <> err (sd_spi w)
  /\ err (sd_spi (run_op (OpRead (repeat 0 512) 0) w)) <> err (sd_spi w).
Proof.
  vm_compute. repeat split; try discriminate; reflexivity.
Qed.

Lemma not_ready_guard_witness :
  Z.land (flags (sd_spi (power_on (write_script 0xE5)))) SDF_INITIALIZED = 0
  /\ sdcard_read_sector (repeat 0 512) 7 (power_on (write_script 0xE5))
     = ((255, repeat 0 512), power_on (write_script 0xE5))
  /\ sdcard_write_sector (repeat 0 512) 7 (power_on (write_script 0xE5))
     = (255, power_on (write_script 0xE5)).
Proof.
  split; [reflexivity |].
  pose proof (@not_ready_guard scripted (power_on (write_script 0xE5))
                (repeat 0 512) 7 eq_refl) as H.
  split; [exact (proj1 H) | exact (proj1 (proj2 H))].
Defined.

Lemma write_sector_verdict_witness :
  let w := ready 0x80 (write_script 0xE5) in
  0 < @byte_ticks scripted <= 2147483648
  /\ @timer_from_us scripted 50000 <= 2147483648
  /\ initialized w
  /\ fst (sdcard_write_sector (repeat 0xA5 512) 9 w) = 1
  /\ err (sd_spi (snd (sdcard_write_sector (repeat 0xA5 512) 9 w)))
     = err (sd_spi w).
Proof.
  cbv zeta.
  assert (Hd : 0 < @byte_ticks scripted <= 2147483648) by (cbn; lia).
  assert (HT : @timer_from_us scripted 50000 <= 2147483648)
    by (vm_compute; discriminate).
  assert (Hi : initialized (ready 0x80 (write_script 0xE5)))
    by (vm_compute; discriminate).
  split; [exact Hd |]. split; [exact HT |]. split; [exact Hi |].
  pose proof (@write_sector_verdict scripted (repeat 0xA5 512) 9
                (ready 0x80 (write_script 0xE5)) Hd HT Hi) as H.
  cbv zeta in H.
  specialize (H ltac:(vm_compute; discriminate)).
  destruct (sdcard_write_sector (repeat 0xA5 512) 9
              (ready 0x80 (write_script 0xE5))) as [r w'].
  destruct H as (Hiff & _ & _ & Hkeep).
  cbn [fst snd].
  assert (R : r = 1).
  { apply (proj2 Hiff). vm_compute. split; [reflexivity |].
    left. reflexivity. }
  split; [exact R | exact (Hkeep R)].
Defined.

(** The card sends its data-response token 0xE5, low five bits 0b00101,
    as the ninth byte after the CRC, and idles at 0xFF from the next byte
    on.  The eight bytes read for the data response are all 0xFF, the
    token is met by the wait for the end of the busy state instead, and
    the write fails with WriteErr. *)
Lemma data_response_after_eight_bytes :
  let buf := repeat 0xA5 512 in
  let w := ready 0x80 (resp [0] ++ idle 515 ++ idle 8 ++ [0xE5]) in
  let crc := calc_crc16 buf 512 in
  let c0 := card_after (card w)
              (firstn 6 (populate_buffer SDCMD_WRITE_BLOCK
                           (sector_offset (flags (sd_spi w)) 9)
                           (repeat 0 8))) in
  let c2 := card_after (card_after c0 (repeat 0xFF 8))
              ([0xFE] ++ buf
               ++ [Z.land (Z.shiftr crc 8) 0xFF; Z.land crc 0xFF]) in
  let res := sdcard_write_sector buf 9 w in
  initialized w
  /\ first_non_idle (idle_reply c0 8) = 0
  /\ idle_reply c2 10 = idle 8 ++ [0xE5; 0xFF]
  /\ first_non_idle (idle_reply c2 10) = 0xE5
  /\ Z.land 0xE5 0x1F = 5
  /\ first_non_idle (idle_reply c2 8) = 0xFF
  /\ up_to_token 0xFF
       (idle_reply (card_after c2 (repeat 0xFF 8)) (@polls_allowed scripted 50000))
     = [0xE5; 0xFF]
  /\ fst res = 0
  /\ err (sd_spi (snd res)) = SDE_WRITE_ERR
  /\ ~ (fst res = 1 <->
        Z.land (first_non_idle (idle_reply c2 10)) 0x1F = 5
        /\ In 0xFF
             (up_to_token 0xFF
                (idle_reply (card_after c2 (repeat 0xFF 8))
                   (@polls_allowed scripted 50000)))).
Proof.
  vm_compute. repeat split; try reflexivity; try discriminate.
  intros [_ H]. discriminate H.
  split; [reflexivity |]. right. left. reflexivity.
Qed.

(** A card whose data-response token reports a CRC error (low five bits
    0b01011) makes the write fail with WriteErr. *)
Lemma write_sector_rejected_example :
  let w := ready 0x80 (write_script 0xEB) in
  fst (sdcard_write_sector (repeat 0xA5 512) 9 w) = 0
  /\ err (sd_spi (snd (sdcard_write_sector (repeat 0xA5 512) 9 w)))
     = SDE_WRITE_ERR.
Proof. vm_compute. split; reflexivity. Qed.

Lemma silent_never_idle b (x : @world silent) :
  accepted 0 1 (fst (fst (send_command SDCMD_GO_IDLE_STATE 0 b 0 x))) = false.
Proof. reflexivity. Qed.

Lemma silent_then_idle_rejected (j : nat) :
  (j < 1)%nat ->
  accepted 0 1
    (fst (fst (@attempt scripted SDCMD_GO_IDLE_STATE 0 0 j (repeat 0 8)
                 (power_on (resp [] ++ resp [1])))))
  = false.
Proof.
  intros Hj. destruct j as [|j]; [vm_compute; reflexivity | lia].
Defined.

Lemma check_command_attempts_witness :
  (let r := check_command SDCMD_GO_IDLE_STATE 0 (repeat 0 8) 0 1 3
              silent_power_on in
   fst (fst r) = 0
   /\ cs_asserts (snd r) = 3%nat
   /\ delays (snd r) = 2%nat
   /\ delays_of 1000 (snd r) = 2%nat
   /\ hd_error (trace (snd r)) = Some (EvCS 1))
  /\ (let w := power_on (resp [] ++ resp [1]) in
      let r := check_command SDCMD_GO_IDLE_STATE 0 (repeat 0 8) 0 1 3 w in
      r = ((1, snd (fst (attempt SDCMD_GO_IDLE_STATE 0 0 1 (repeat 0 8) w))),
           snd (attempt SDCMD_GO_IDLE_STATE 0 0 1 (repeat 0 8) w))
      /\ cs_asserts (snd r) = 2%nat
      /\ delays (snd r) = 1%nat
      /\ delays_of 1000 (snd r) = 1%nat
      /\ hd_error (trace (snd r)) = Some (EvCS 1)).
Proof.
  split.
  - exact (proj1 (@check_command_attempts silent SDCMD_GO_IDLE_STATE 0 0 1)
             3%nat (repeat 0 8) silent_power_on
             ltac:(lia) silent_never_idle).
  - exact (proj1 (proj2 (@check_command_attempts scripted
                           SDCMD_GO_IDLE_STATE 0 0 1))
             3%nat 1%nat (repeat 0 8) (power_on (resp [] ++ resp [1]))
             ltac:(lia) silent_then_idle_rejected
             ltac:(vm_compute; reflexivity)).
Defined.


Lemma init_csd_read_failure_witness :
  let w := power_on (negotiate_script 0xC0) in
  let v := power_on (init_script 0xC0 0x10) in
  fst (sdcard_init_negotiate w) = true
  /\ fst (fst (read_data_block SDCMD_SEND_CSD 0 (repeat 0 16) 16
                 (snd (sdcard_init_negotiate w)))) = 0
  /\ fst (sdcard_init w) = 0
  /\ Z.land (flags (sd_spi (snd (sdcard_init w)))) SDF_WRITE_PROTECTED
     = SDF_WRITE_PROTECTED
  /\ fst (sdcard_init v) = fst (sdcard_init w)
  /\ flags (sd_spi (snd (sdcard_init v)))
     = flags (sd_spi (snd (sdcard_init w))).
Proof.
  cbv zeta.
  assert (Hn : sdcard_init_negotiate (power_on (negotiate_script 0xC0))
               = (true, snd (sdcard_init_negotiate
                               (power_on (negotiate_script 0xC0)))))
    by (vm_compute; reflexivity).
  assert (Hr : fst (fst (read_data_block SDCMD_SEND_CSD 0 (repeat 0 16) 16
                           (snd (sdcard_init_negotiate
                                   (power_on (negotiate_script 0xC0))))))
               = 0)
    by (vm_compute; reflexivity).
  assert (Hv : sdcard_init_negotiate (power_on (init_script 0xC0 0x10))
               = (true, snd (sdcard_init_negotiate
                               (power_on (init_script 0xC0 0x10)))))
    by (vm_compute; reflexivity).
  destruct (@init_csd_read_failure scripted _ _ Hn Hr) as (R & _ & P & Same).
  destruct (Same _ _ Hv) as (S1 & S2).
  - vm_compute. reflexivity.
  - vm_compute. discriminate.
  - vm_compute. reflexivity.
  - split; [rewrite Hn; reflexivity |].
    split; [exact Hr |]. split; [exact R |]. split; [exact P |].
    split; [exact S1 | exact S2].
Defined.

Lemma deinit_frame_witness :
  let w := power_on (init_script 0xC0 0 ++ data_block (repeat 0x5A 512)) in
  let w2 := snd (sdcard_deinit (snd (sdcard_init w))) in
  fst (sdcard_init w) = 1
  /\ flags (sd_spi w2)
     = Z.lor (flags (sd_spi (snd (sdcard_init w)))) SDF_DEINIT
  /\ err (sd_spi w2) = err (sd_spi (snd (sdcard_init w)))
  /\ fst (fst (sdcard_read_sector (repeat 0 512) 3 w2)) <> 255
  /\ fst (sdcard_write_sector (repeat 0 512) 3 w2) <> 255
  /\ (exists l,
        trace (snd (sdcard_read_sector (repeat 0 512) 3 w2))
        = l ++ EvXfer false
                 (firstn 6 (populate_buffer SDCMD_READ_SINGLE_BLOCK
                              (sector_offset (flags (sd_spi w2)) 3)
                              (repeat 0 8)))
               :: EvCS 0 :: EvPrepare :: trace w2).
Proof.
  cbv zeta.
  assert (Hi : sdcard_init
                 (power_on (init_script 0xC0 0 ++ data_block (repeat 0x5A 512)))
               = (1, snd (sdcard_init
                            (power_on (init_script 0xC0 0
                                       ++ data_block (repeat 0x5A 512))))))
    by (vm_compute; reflexivity).
  destruct (proj1 (@deinit_frame scripted)
              (snd (sdcard_init
                      (power_on (init_script 0xC0 0
                                 ++ data_block (repeat 0x5A 512))))))
    as (F & E & _).
  destruct (proj2 (@deinit_frame scripted) _ _ (repeat 0 512) 3 Hi)
    as (R & W & T & _).
  split; [rewrite Hi; reflexivity |].
  split; [exact F |]. split; [exact E |]. split; [exact R |].
  split; [exact W | exact T].
Defined.

(** * The further properties at concrete cards *)

Lemma crc16_trailer_roundtrip_witness :
  (2 <= length (repeat 0xFF 8))%nat
  /\ recd_crc
       (wr (wr (repeat 0xFF 8) 0
              (Z.land (Z.shiftr (calc_crc16 (repeat 0xA5 512) 512) 8) 0xFF))
           1 (Z.land (calc_crc16 (repeat 0xA5 512) 512) 0xFF))
     = calc_crc16 (repeat 0xA5 512) 512.
Proof.
  assert (H : (2 <= length (repeat 0xFF 8))%nat) by (simpl; lia).
  split; [exact H |].
  exact (proj1 (@crc16_trailer_roundtrip scripted (repeat 0xA5 512)
                  (repeat 0xFF 8) 512 (power_on []) H)).
Defined.

Lemma command_frame_layout_witness :
  frame_cmd (populate_buffer SDCMD_READ_SINGLE_BLOCK 0x12345678 (repeat 0 8))
  = SDCMD_READ_SINGLE_BLOCK
  /\ frame_arg (populate_buffer SDCMD_READ_SINGLE_BLOCK 0x12345678
                  (repeat 0 8))
     = 0x12345678.
Proof.
  destruct (command_frame_layout SDCMD_READ_SINGLE_BLOCK 0x12345678
              (repeat 0 8) ltac:(simpl; lia)
              ltac:(unfold SDCMD_READ_SINGLE_BLOCK; lia) ltac:(lia))
    as (_ & _ & _ & Hc & Ha & _).
  split; [exact Hc | exact Ha].
Defined.

(** The interface-condition probe answered three bytes late: the response
    is moved to the front and the window refilled to eight bytes. *)
Example send_command_realign_example :
  fst (send_command SDCMD_SEND_IF_COND 0x10A (repeat 0 8) CF_FULL_RESP
         (power_on (idle 6 ++ idle 3 ++ [1; 0; 0; 1; 10; 0x21; 0x22; 0x23])))
  = (1, [1; 0; 0; 1; 10; 0x21; 0x22; 0x23]).
Proof. vm_compute. reflexivity. Qed.


Lemma write_sector_transaction_witness :
  let w := ready 0x80 (write_script 0xE5) in
  initialized w
  /\ flags (sd_spi (snd (sdcard_write_sector (repeat 0xA5 512) 9 w)))
     = flags (sd_spi w)
  /\ exists l,
       Forall (fun e => is_xfer e = true) l
       /\ trace (snd (sdcard_write_sector (repeat 0xA5 512) 9 w))
          = EvCS 1 :: l ++ EvCS 0 :: EvPrepare :: trace w.
Proof.
  cbv zeta.
  assert (Hi : initialized (ready 0x80 (write_script 0xE5)))
    by (vm_compute; discriminate).
  destruct (@write_sector_transaction scripted (repeat 0xA5 512) 9
              (ready 0x80 (write_script 0xE5)) Hi) as (F & _ & T).
  split; [exact Hi |]. split; [exact F | exact T].
Defined.

Lemma chip_select_released_witness :
  let w := power_on (init_script 0x80 0 ++ write_script 0xE5) in
  cs_idle (trace w) = true
  /\ cs_idle (trace (run_ops [OpInit; OpWrite (repeat 0xA5 512) 9; OpDeinit]
                       w)) = true.
Proof.
  cbv zeta. split; [reflexivity |].
  exact (proj1 (@chip_select_released scripted
                  [OpInit; OpWrite (repeat 0xA5 512) 9; OpDeinit]
                  (power_on (init_script 0x80 0 ++ write_script 0xE5)))
           eq_refl).
Defined.

Lemma check_command_bound_witness :
  let w := power_on (resp [] ++ resp [1]) in
  let res := check_command SDCMD_GO_IDLE_STATE 0 (repeat 0 8) 0 1 3 w in
  (1 <= 3)%nat
  /\ exists k : nat,
       (1 <= k <= 3)%nat
       /\ cs_asserts (snd res) = (cs_asserts w + k)%nat
       /\ delays (snd res) = (delays w + (k - 1))%nat.
Proof.
  cbv zeta. split; [lia |].
  destruct (@check_command_bound scripted SDCMD_GO_IDLE_STATE 0 0 1 3
              (repeat 0 8) (power_on (resp [] ++ resp [1])) ltac:(lia))
    as (k & Hk & Hc & Hd & _).
  exists k. split; [exact Hk |]. split; [exact Hc | exact Hd].
Defined.

Example check_command_second_attempt :
  let w := power_on (resp [] ++ resp [1]) in
  let res := check_command SDCMD_GO_IDLE_STATE 0 (repeat 0 8) 0 1 3 w in
  fst (fst res) = 1 /\ cs_asserts (snd res) = 2%nat
  /\ delays (snd res) = 1%nat.
Proof. vm_compute. repeat split; reflexivity. Qed.

Lemma find_token_deadline_witness :
  let w := power_on [0xFF; 0xFF; 0xFE] in
  0 < @byte_ticks scripted <= 2147483648
  /\ now w <= now (snd (find_token 0xFE 50000 w))
     < now w + @timer_from_us scripted 50000 + @byte_ticks scripted.
Proof.
  cbv zeta.
  assert (H : 0 < @byte_ticks scripted <= 2147483648) by (simpl; lia).
  split; [exact H |].
  destruct (@find_token_deadline scripted 0xFE 50000
              (power_on [0xFF; 0xFF; 0xFE]) H) as (_ & _ & B & _).
  exact B.
Defined.

Example find_token_third_byte :
  let res := find_token 0xFE 50000 (power_on [0xFF; 0xFF; 0xFE]) in
  fst res = 1 /\ now (snd res) = 6.
Proof. vm_compute. split; reflexivity. Qed.

Example find_token_times_out :
  let res := find_token 0xFE 50000 (power_on []) in
  fst res = 0 /\ now (snd res) = 50000.
Proof. vm_compute. split; reflexivity. Qed.

Lemma read_data_block_errors_witness :
  let w := ready 0xC0 (idle 6 ++ [0; 0xFE] ++ repeat 0x5A 512 ++ [0; 0]) in
  fst (fst (read_data_block SDCMD_READ_SINGLE_BLOCK 3 (repeat 0 512) 512 w))
  = 0
  /\ Z.land (err (sd_spi (snd (read_data_block SDCMD_READ_SINGLE_BLOCK 3
                                 (repeat 0 512) 512 w)))) SDE_READ_ERR
     = SDE_READ_ERR.
Proof.
  cbv zeta.
  assert (H : fst (fst (read_data_block SDCMD_READ_SINGLE_BLOCK 3
                          (repeat 0 512) 512
                          (ready 0xC0 (idle 6 ++ [0; 0xFE] ++ repeat 0x5A 512
                                       ++ [0; 0])))) = 0)
    by (vm_compute; reflexivity).
  split; [exact H |].
  exact (proj1 (proj2 (@read_data_block_errors scripted
                         SDCMD_READ_SINGLE_BLOCK 3 (repeat 0 512) 512
                         (ready 0xC0 (idle 6 ++ [0; 0xFE] ++ repeat 0x5A 512
                                      ++ [0; 0])))) H).
Defined.

Lemma write_sector_no_response_witness :
  let w := ready 0x80 [] in
  initialized w
  /\ fst (sdcard_write_sector (repeat 0xA5 512) 9 w) = 0
  /\ err (sd_spi (snd (sdcard_write_sector (repeat 0xA5 512) 9 w)))
     = Z.lor (err (sd_spi w)) SDE_WRITE_ERR
  /\ trace (snd (sdcard_write_sector (repeat 0xA5 512) 9 w))
     = [EvCS 1; EvXfer true (repeat 0xFF 8);
        EvXfer false
          (firstn 6 (populate_buffer SDCMD_WRITE_BLOCK
                       (sector_offset (flags (sd_spi w)) 9) (repeat 0 8)));
        EvCS 0; EvPrepare] ++ trace w.
Proof.
  cbv zeta.
  assert (Hi : initialized (ready 0x80 [])) by (vm_compute; discriminate).
  split; [exact Hi |].
  generalize (@write_sector_no_response scripted (repeat 0xA5 512) 9
                (ready 0x80 []) Hi).
  vm_compute. intros H. specialize (H eq_refl).
  destruct H as (H1 & H2 & H3).
  split; [exact H1 |]. split; [exact H2 | exact H3].
Defined.

Lemma write_sector_wire_format_witness :
  let w := ready 0x80 (write_script 0xE5) in
  initialized w
  /\ exists polls,
       Forall (fun e => e = EvXfer true [0xFF]) polls
       /\ trace (snd (sdcard_write_sector (repeat 0xA5 512) 9 w))
          = EvCS 1 :: polls
            ++ [EvXfer true (repeat 0xFF 8);
                EvXfer false
                  [Z.land (Z.shiftr (calc_crc16 (repeat 0xA5 512) 512) 8) 0xFF;
                   Z.land (calc_crc16 (repeat 0xA5 512) 512) 0xFF];
                EvXfer false (firstn 512 (repeat 0xA5 512));
                EvXfer false [0xFE];
                EvXfer true (repeat 0xFF 8);
                EvXfer false
                  (firstn 6 (populate_buffer SDCMD_WRITE_BLOCK
                               (sector_offset (flags (sd_spi w)) 9)
                               (repeat 0 8)));
                EvCS 0; EvPrepare]
            ++ trace w.
Proof.
  cbv zeta.
  assert (Hi : initialized (ready 0x80 (write_script 0xE5)))
    by (vm_compute; discriminate).
  split; [exact Hi |].
  generalize (@write_sector_wire_format scripted (repeat 0xA5 512) 9
                (ready 0x80 (write_script 0xE5)) Hi).
  vm_compute. intros H. apply H. discriminate.
Defined.

Lemma flags_never_cleared_witness :
  let w := snd (sdcard_deinit (power_on [])) in
  Z.land (flags (sd_spi w)) SDF_DEINIT = SDF_DEINIT
  /\ Z.land (flags (sd_spi (run_ops [OpInit] w))) SDF_DEINIT = SDF_DEINIT.
Proof.
  cbv zeta.
  assert (H : Z.land (flags (sd_spi (snd (sdcard_deinit (power_on [])))))
                SDF_DEINIT = SDF_DEINIT) by (vm_compute; reflexivity).
  split; [exact H |].
  exact (proj2 (proj2 (@flags_never_cleared scripted [OpInit]
                         (snd (sdcard_deinit (power_on [])))))
           SDF_DEINIT H).
Defined.

Lemma deinit_first_call_witness :
  Z.land (flags (sd_spi (power_on []))) SDF_DEINIT = 0
  /\ trace (snd (sdcard_deinit (power_on [])))
     = [EvCS 1; EvXfer true (repeat 0xFF 8);
        EvXfer false [0x7B; 0; 0; 0; 0; 0x91]; EvCS 0; EvPrepare;
        EvCS 1; EvXfer true (repeat 0xFF 8);
        EvXfer false [0x40; 0; 0; 0; 0; 0x95]; EvCS 0; EvPrepare]
       ++ trace (power_on []).
Proof.
  split; [reflexivity |].
  exact (proj2 (@deinit_first_call scripted (power_on []) eq_refl)).
Defined.

Lemma init_outcome_witness :
  let w := power_on (init_script 0xC0 0) in
  fst (sdcard_init w) = 1
  /\ err (sd_spi (snd (sdcard_init w))) = err (sd_spi w)
  /\ config (sd_spi (snd (sdcard_init w))) = SPI_XFER_RATE.
Proof.
  cbv zeta.
  assert (H : fst (sdcard_init (power_on (init_script 0xC0 0))) = 1)
    by (vm_compute; reflexivity).
  split; [exact H |].
  destruct (proj1 (@init_outcome scripted (power_on (init_script 0xC0 0))) H)
    as (E & C & _).
  split; [exact E | exact C].
Defined.

Lemma silent_never_goes_idle b (x : @world silent) :
  fst (fst (send_command SDCMD_GO_IDLE_STATE 0 b 0 x)) <> 1.
Proof. discriminate. Qed.

Lemma init_no_idle_witness :
  fst (sdcard_init silent_power_on) = 0
  /\ err (sd_spi (snd (sdcard_init silent_power_on)))
     = Z.lor (err (sd_spi silent_power_on)) SDE_NO_IDLE
  /\ cs_asserts (snd (sdcard_init silent_power_on))
     = (cs_asserts silent_power_on + 50)%nat.
Proof.
  destruct (@init_no_idle silent silent_power_on silent_never_goes_idle)
    as (R & E & _ & C & _).
  split; [exact R |]. split; [exact E | exact C].
Defined.

Lemma sector_offset_standard_witness :
  Z.land SDF_INITIALIZED SDF_HIGH_CAPACITY = 0
  /\ sector_offset SDF_INITIALIZED (5 + 8388608)
     = sector_offset SDF_INITIALIZED 5
  /\ sector_offset SDF_INITIALIZED 5 = 2560.
Proof.
  split; [reflexivity |].
  destruct (sector_offset_standard SDF_INITIALIZED 5 eq_refl)
    as (_ & _ & A & _).
  split; [exact A | reflexivity].
Defined.

Lemma read_data_block_drains_witness :
  let w := ready 0xC0 (idle 6 ++ idle 20) in
  0 <= 512
  /\ exists polls1 polls2 polls3,
       (1 <= length polls1 <= 16)%nat
       /\ trace (snd (read_data_block SDCMD_READ_SINGLE_BLOCK 3
                        (repeat 0 512) 512 w))
          = EvCS 1 :: polls3
            ++ [EvXfer true [0xFF; 0xFF];
                EvXfer true (repeat 0xFF (Z.to_nat (512 mod 65536)))]
            ++ polls2 ++ polls1
            ++ [EvXfer false
                  (firstn 6 (populate_buffer SDCMD_READ_SINGLE_BLOCK 3
                               (repeat 0 8)));
                EvCS 0; EvPrepare]
            ++ trace w.
Proof.
  cbv zeta. split; [lia |].
  destruct (@read_data_block_drains scripted SDCMD_READ_SINGLE_BLOCK 3
              (repeat 0 512) 512 (ready 0xC0 (idle 6 ++ idle 20))
              ltac:(lia))
    as (p1 & p2 & p3 & _ & L & T).
  exists p1, p2, p3. split; [exact L | exact T].
Defined.

(** ** Runs against the scripted card *)

Example crc16_check :
  calc_crc16 [0x31; 0x32; 0x33; 0x34; 0x35; 0x36; 0x37; 0x38; 0x39] 9 = 0x31C3.
Proof. reflexivity. Qed.

Example init_plain_card :
  let r := sdcard_init (power_on (init_script 0xC0 0)) in
  (fst r, sd_spi (snd r)) = (1, mk_sd_spi SPI_XFER_RATE 3 0).
Proof. vm_compute. reflexivity. Qed.

Example init_protected_card :
  let r := sdcard_init (power_on (init_script 0xC0 0x10)) in
  (fst r, sd_spi (snd r)) = (0, mk_sd_spi SPI_INIT_RATE 6 0).
Proof. vm_compute. reflexivity. Qed.


(** A response that comes within the sixteen polls of [read_data_block] is
    taken; one that comes later is met by the scan for the start token and
    the read fails with ReadErr alone. *)
Example late_response_within_polls :
  let w := ready 0xC0 (idle 6 ++ idle 10 ++ [0; 0xFE] ++ repeat 0x5A 512
                       ++ crc_bytes (repeat 0x5A 512)) in
  fst (fst (sdcard_read_sector (repeat 0 512) 3 w)) = 1.
Proof. vm_compute. reflexivity. Qed.

Example late_response_after_polls :
  let w := ready 0xC0 (idle 6 ++ idle 16 ++ [0; 0xFE] ++ repeat 0x5A 512
                       ++ crc_bytes (repeat 0x5A 512)) in
  fst (fst (sdcard_read_sector (repeat 0 512) 3 w)) = 0
  /\ err (sd_spi (snd (sdcard_read_sector (repeat 0 512) 3 w)))
     = SDE_READ_ERR.
Proof. vm_compute. split; reflexivity. Qed.

(** A card that never answers: [sdcard_init] gives up after its fifty
    go-idle attempts and records NoIdle. *)
Example init_silent_card :
  fst (sdcard_init silent_power_on) = 0
  /\ sd_spi (snd (sdcard_init silent_power_on))
     = mk_sd_spi SPI_INIT_RATE 0 SDE_NO_IDLE
  /\ cs_asserts (snd (sdcard_init silent_power_on)) = 50%nat
  /\ delays_of 1000 (snd (sdcard_init silent_power_on)) = 50%nat.
Proof. vm_compute. repeat split; reflexivity. Qed.

(** With a byte time of two ticks the 50 ms of [find_token] allow 25000
    polls: a token sent as byte 25000 is met, one sent as byte 25001 is
    not. *)
Example start_token_at_deadline :
  Z.of_nat (@polls_allowed scripted 50000) = 25000
  /\ fst (find_token 0xFE 50000
            (power_on (idle (Z.to_nat 24999) ++ [0xFE]))) = 1
  /\ fst (find_token 0xFE 50000
            (power_on (idle (Z.to_nat 25000) ++ [0xFE]))) = 0.
Proof. vm_compute. repeat split; reflexivity. Qed.

(** A data-response token among the eight bytes read after the CRC is
    taken wherever it stands among them. *)
Example data_response_as_eighth_byte :
  let w := ready 0x80 (resp [0] ++ idle 515 ++ idle 7 ++ [0xE5]) in
  fst (sdcard_write_sector (repeat 0xA5 512) 9 w) = 1.
Proof. vm_compute. reflexivity. Qed.
